(** * Crane monitor: dashboard script (src/app.js) and telemetry backend
    (src/unnamed/part_001)

    A shallow embedding of the browser script [CraneMonitor] and of the
    Node backend that feeds it.

    Conventions of the embedding.
    - A message is an object whose fields, when present, hold values of the
      types the data model gives them.
    - JavaScript numbers are exact rationals ([Q]) or integers ([Z]) where the
      wire field is integral; NaN, the infinities, the rounding of doubles
      and the exponent notation of numbers from 10^21 on are not
      represented.
    - Calls into libraries whose code is not part of the sources (the
      WebSocket constructor, [new URL], [jwt.verify], [Math.random], the
      clock) are taken by their outcome, which the caller of the embedded
      function supplies.
    - The page markup is not part of the sources.  The document is a store
      from selectors to elements; each selector the script uses names its own
      element, and an element is its class-token list and its text.
    - A JavaScript exception is an explicit [Thrown] result that keeps the
      document as it was when the exception was raised. *)

From stdpp Require Import gmap strings list pretty.
From Stdlib Require Import QArith Lqa.

Open Scope string_scope.
Open Scope list_scope.

(** ** JavaScript values *)

Module Js.

(** A field that holds a boolean or is absent ([undefined]). *)
Definition flag : Type := option bool.

Definition truthy (b : flag) : bool := default false b.

(** Truthiness of a number: everything but zero. *)
Definition num_truthy (x : Q) : bool := negb (Qeq_bool x 0).

(** [x >= y] and [x > y] on numbers. *)
Definition ge (x y : Q) : bool := Qle_bool y x.
Definition gt (x y : Q) : bool := negb (Qle_bool x y).

(** Truthiness of a string: everything but the empty string. *)
Definition str_truthy (s : string) : bool := negb (String.eqb s "").

(** [s.padStart(n, c)] for a one-character filler [c]. *)
Definition padStart (n : nat) (c : string) (s : string) : string :=
  String.concat "" (replicate (n - String.length s) c) +:+ s.

(** The result of [x.toFixed(f)]: the decimal numeral
    [sign n / 10^f], kept as its parts.  [Fixed_text] is the string the
    script interpolates, [Fixed_num] the number the string coerces to in a
    comparison. *)
Record Fixed : Type := { fx_neg : bool; fx_n : N; fx_digits : nat }.

Definition pow10 (f : nat) : Z := 10 ^ Z.of_nat f.

(** Number.prototype.toFixed: the integer [n] nearest to [|x| * 10^f], the
    larger one on a tie, with the sign of [x] in front. *)
Definition toFixed (f : nat) (x : Q) : Fixed :=
  let a := Z.abs (Qnum x) in
  let b := Zpos (Qden x) in
  {| fx_neg := (Qnum x <? 0)%Z;
     fx_n := Z.to_N ((2 * a * pow10 f + b) / (2 * b));
     fx_digits := f |}.

Definition Fixed_num (v : Fixed) : Q :=
  let n := Z.of_N (fx_n v) in
  Qmake (if fx_neg v then - n else n) (Z.to_pos (pow10 (fx_digits v))).

Definition Fixed_text (v : Fixed) : string :=
  let f := fx_digits v in
  let m := pretty (fx_n v) in
  let m :=
    match f with
    | O => m
    | S _ =>
        let m := padStart (f + 1) "0" m in
        let k := String.length m in
        String.substring 0 (k - f) m +:+ "." +:+ String.substring (k - f) f m
    end in
  (if fx_neg v then "-" else "") +:+ m.

(** [n.toString(16).toUpperCase()] for an integer [n]. *)
Definition hex_digit (d : N) : string :=
  default "?" (["0";"1";"2";"3";"4";"5";"6";"7";"8";"9";"A";"B";"C";"D";"E";"F"] !! N.to_nat d).

Fixpoint hex_go (fuel : nat) (n : N) (acc : string) : string :=
  match fuel with
  | O => acc
  | S fuel =>
      let acc := hex_digit (n mod 16)%N +:+ acc in
      if (n / 16 =? 0)%N then acc else hex_go fuel (n / 16)%N acc
  end.

Definition toHexUpper (z : Z) : string :=
  let n := Z.to_N (Z.abs z) in
  (if (z <? 0)%Z then "-" else "") +:+ hex_go (S (N.to_nat (N.log2 n))) n "".

End Js.

(** ** The document *)

Record Element : Type := { className : list string; textContent : string }.

Abbreviation DOM := (gmap string Element).

(** A reference to an element, or [null]. *)
Definition node : Type := option string.

Inductive result (A : Type) : Type :=
| Ok (a : A)
| Thrown.
Arguments Ok {A} a.
Arguments Thrown {A}.

(** Code that reads and writes a state [S] and may throw. *)
Definition Eff (S A : Type) : Type := S → result A * S.

#[export] Instance Eff_ret {S} : MRet (Eff S) := λ A a s, (Ok a, s).
#[export] Instance Eff_bind {S} : MBind (Eff S) := λ A B f m s,
  match m s with
  | (Ok a, s') => f a s'
  | (Thrown, s') => (Thrown, s')
  end.

Definition throw {S A} : Eff S A := λ s, (Thrown, s).

Definition read {S} : Eff S S := λ s, (Ok s, s).

Definition modify {S} (f : S → S) : Eff S unit := λ s, (Ok tt, f s).

(** The state a piece of code leaves behind, thrown or not. *)
Definition exec {S A} (m : Eff S A) (s : S) : S := (m s).2.

Definition completes {S A} (m : Eff S A) (s : S) : Prop :=
  ∃ a, (m s).1 = Ok a.

(** [try { m } catch (error) { handler }] *)
Definition try_catch {S} (m handler : Eff S unit) : Eff S unit := λ s,
  match m s with
  | (Ok a, s') => (Ok a, s')
  | (Thrown, s') => handler s'
  end.

(** Code that reads and writes the document. *)
Abbreviation Dom := (Eff DOM).

Module Document.

Definition select (key : string) : Dom node := λ d,
  (Ok (match d !! key with Some _ => Some key | None => None end), d).

(** [document.getElementById(id)] *)
Definition getElementById (id : string) : Dom node := select ("#" +:+ id).

(** [document.querySelector(sel)] *)
Definition querySelector (sel : string) : Dom node := select sel.

(** [parent.querySelector(sel)]; a [null] parent throws. *)
Definition querySelectorIn (parent : node) (sel : string) : Dom node :=
  match parent with
  | None => throw
  | Some p => select (p +:+ " " +:+ sel)
  end.

Definition update (n : node) (f : Element → Element) : Dom unit :=
  match n with
  | None => throw
  | Some k => λ d,
      match d !! k with
      | Some e => (Ok tt, <[k := f e]> d)
      | None => (Thrown, d)
      end
  end.

(** [el.className = 'tok'] with the attribute given as its tokens. *)
Definition set_className (n : node) (cls : list string) : Dom unit :=
  update n (λ e, {| className := cls; textContent := textContent e |}).

Definition set_textContent (n : node) (s : string) : Dom unit :=
  update n (λ e, {| className := className e; textContent := s |}).

Definition add_token (c : string) (cls : list string) : list string :=
  if decide (c ∈ cls) then cls else cls ++ [c].

Definition remove_token (c : string) (cls : list string) : list string :=
  filter (λ x, x ≠ c) cls.

(** [el.classList.add(c)] and [el.classList.remove(c)] *)
Definition classList_add (n : node) (c : string) : Dom unit :=
  update n (λ e, {| className := add_token c (className e); textContent := textContent e |}).

Definition classList_remove (n : node) (c : string) : Dom unit :=
  update n (λ e, {| className := remove_token c (className e); textContent := textContent e |}).

End Document.
Import Document.

(** ** Telemetry snapshot as the script reads it

    Every field of the parsed message may be absent. *)

Record TestMode : Type := {
  in_progress : Js.flag;
  all_complete : Js.flag;
  remaining_seconds : option Z;
  ls1_tested : Js.flag; ls1_hit : Js.flag;
  ls2_tested : Js.flag; ls2_hit : Js.flag;
  ls3_tested : Js.flag; ls3_hit : Js.flag;
  ls4_tested : Js.flag; ls4_hit : Js.flag;
  warning_active : Js.flag
}.

Record Counters : Type := { hookup : option Z; hookdown : option Z }.

Record Snapshot : Type := {
  load : option Q;
  swl : option Q;
  trolley : option Q;
  wind : option Q;
  safety_level : option string;
  test_mode : option TestMode;
  hoist_active : Js.flag;
  trolley_active : Js.flag;
  slew_active : Js.flag;
  utilization_minutes : option Z;
  utilization_active : Js.flag;
  counters : option Counters;
  status_word : option Z;
  overload_active : Js.flag;
  bypass_active : Js.flag
}.

(** [{}], the object with no field. *)
Definition empty_test_mode : TestMode :=
  {| in_progress := None; all_complete := None; remaining_seconds := None;
     ls1_tested := None; ls1_hit := None; ls2_tested := None; ls2_hit := None;
     ls3_tested := None; ls3_hit := None; ls4_tested := None; ls4_hit := None;
     warning_active := None |}.

Definition empty_snapshot : Snapshot :=
  {| load := None; swl := None; trolley := None; wind := None;
     safety_level := None; test_mode := None;
     hoist_active := None; trolley_active := None; slew_active := None;
     utilization_minutes := None; utilization_active := None;
     counters := None; status_word := None;
     overload_active := None; bypass_active := None |}.

(** ** src/app.js, class CraneMonitor: rendering *)

(** [x?.toFixed(f) || dflt] *)
Definition fixed_or (f : nat) (dflt : string) (x : option Q) : string :=
  match x with
  | Some v => Js.Fixed_text (Js.toFixed f v)
  | None => dflt
  end.

(** [x || '0'] rendered as text, for an integer field. *)
Definition int_or_zero (x : option Z) : string :=
  match x with
  | Some v => if (v =? 0)%Z then "0" else pretty v
  | None => "0"
  end.

Definition updateElement (id value : string) : Dom unit :=
  el ← getElementById id;
  match el with
  | Some _ => set_textContent el value
  | None => mret tt
  end.

Definition updateSafetyStatus (level : string) : Dom unit :=
  statusLight ← querySelector ".status-light";
  statusText ← querySelector ".status-text";
  banner ← getElementById "safety-banner";
  message ← getElementById "safety-message";
  set_className statusLight ["status-light"];;
  set_className banner ["safety-banner"];;
  if String.eqb level "safe" then
    classList_add statusLight "safe";;
    set_textContent statusText "Safe";;
    classList_add banner "hidden"
  else if String.eqb level "warning" then
    classList_add statusLight "warning";;
    set_textContent statusText "Warning";;
    set_textContent message "⚠️ Load approaching limit";;
    classList_remove banner "hidden"
  else if String.eqb level "overload" || String.eqb level "cutoff" then
    classList_add statusLight "danger";;
    set_textContent statusText (if String.eqb level "cutoff" then "CUTOFF" else "Overload");;
    set_textContent message "🚨 OVERLOAD - Operations stopped";;
    classList_add banner "danger";;
    classList_remove banner "hidden"
  else mret tt.

Definition updateTestIndicator (elementId : string) (tested hit : Js.flag) : Dom unit :=
  element ← getElementById elementId;
  match element with
  | None => mret tt
  | Some _ =>
      indicator ← querySelectorIn element ".test-indicator";
      match indicator with
      | None => mret tt
      | Some _ =>
          set_className indicator ["test-indicator"];;
          if Js.truthy hit then
            classList_add indicator (if Js.truthy tested then "yellow" else "red")
          else
            classList_add indicator (if Js.truthy tested then "green" else "grey")
      end
  end.

Definition updateTestMode (testData : TestMode) : Dom unit :=
  badge ← getElementById "test-status-badge";
  statusText ← getElementById "test-status-text";
  timer ← getElementById "test-timer";
  warning ← getElementById "test-warning";
  set_className badge ["test-status-badge"];;
  (if Js.truthy (in_progress testData) then
     classList_add badge "active";;
     set_textContent statusText "In Progress"
   else if Js.truthy (all_complete testData) then
     classList_add badge "complete";;
     set_textContent statusText "Complete"
   else
     set_textContent statusText "Not Started");;
  (match Js.truthy (in_progress testData), remaining_seconds testData with
   | true, Some rs =>
       let minutes := (rs / 60)%Z in
       let seconds := Z.rem rs 60 in
       set_textContent timer (pretty minutes +:+ ":" +:+ Js.padStart 2 "0" (pretty seconds))
   | _, _ => set_textContent timer "10:00"
   end);;
  updateTestIndicator "test-ls1" (ls1_tested testData) (ls1_hit testData);;
  updateTestIndicator "test-ls2" (ls2_tested testData) (ls2_hit testData);;
  updateTestIndicator "test-ls3" (ls3_tested testData) (ls3_hit testData);;
  updateTestIndicator "test-ls4" (ls4_tested testData) (ls4_hit testData);;
  if Js.truthy (warning_active testData) then classList_remove warning "hidden"
  else classList_add warning "hidden".

Definition updateOperation (id : string) (active : Js.flag) : Dom unit :=
  element ← getElementById id;
  match element with
  | None => mret tt
  | Some _ =>
      status ← querySelectorIn element ".op-status";
      match status with
      | None => mret tt
      | Some _ =>
          set_className status ["op-status"];;
          if Js.truthy active then
            classList_add status "active";;
            set_textContent status "ON"
          else set_textContent status "OFF"
      end
  end.

Definition updateUtilStatus (active : Js.flag) : Dom unit :=
  status ← getElementById "util-status";
  dot ← querySelectorIn status ".status-dot";
  text ← querySelectorIn status "span:last-child";
  if Js.truthy active then
    classList_add dot "online";;
    set_textContent text "Active"
  else
    classList_remove dot "online";;
    set_textContent text "Inactive".

Definition updateBadge (id : string) (active : Js.flag) : Dom unit :=
  badge ← getElementById id;
  status ← querySelectorIn badge ".badge-status";
  set_className status ["badge-status"];;
  if Js.truthy active then
    classList_add status "active";;
    set_textContent status "ON"
  else set_textContent status "OFF".

(** The load-percentage block of [updateUI] (lines 121-130).  [percent] is
    the string [toFixed(1)] returns; the comparisons coerce it back to a
    number. *)
Definition updateLoadPercent (data : Snapshot) : Dom unit :=
  match load data, swl data with
  | Some l, Some w =>
      if Js.num_truthy l && Js.num_truthy w && Js.gt w 0 then
        let percent := Js.toFixed 1 (l / w * 100) in
        percentEl ← getElementById "load-percent";
        set_textContent percentEl (Js.Fixed_text percent +:+ "%");;
        set_className percentEl [];;
        if Js.ge (Js.Fixed_num percent) 95 then classList_add percentEl "danger"
        else if Js.ge (Js.Fixed_num percent) 80 then classList_add percentEl "warning"
        else mret tt
      else mret tt
  | _, _ => mret tt
  end.

(** [data.safety_level || 'safe'] *)
Definition safety_level_or_safe (data : Snapshot) : string :=
  match safety_level data with
  | Some s => if Js.str_truthy s then s else "safe"
  | None => "safe"
  end.

(** [updateUI(data)]; [now] is what [new Date().toLocaleTimeString()]
    returns at the call. *)
Definition updateUI (now : string) (data : Snapshot) : Dom unit :=
  updateElement "load-value" (fixed_or 2 "0.00" (load data));;
  updateElement "swl-value" (fixed_or 2 "0.00" (swl data));;
  updateElement "trolley-value" (fixed_or 2 "0.00" (trolley data));;
  updateElement "wind-value" (fixed_or 1 "0.0" (wind data));;
  updateLoadPercent data;;
  updateSafetyStatus (safety_level_or_safe data);;
  updateTestMode (default empty_test_mode (test_mode data));;
  updateOperation "hoist-op" (hoist_active data);;
  updateOperation "trolley-op" (trolley_active data);;
  updateOperation "slew-op" (slew_active data);;
  updateElement "util-time" (int_or_zero (utilization_minutes data));;
  updateUtilStatus (utilization_active data);;
  updateElement "counter-hookup" (int_or_zero (counters data ≫= hookup));;
  updateElement "counter-hookdown" (int_or_zero (counters data ≫= hookdown));;
  updateElement "status-word"
    ("0x" +:+ Js.padStart 4 "0" (Js.toHexUpper (default 0%Z (status_word data))));;
  updateElement "last-update" now;;
  updateBadge "overload-badge" (overload_active data);;
  updateBadge "bypass-badge" (bypass_active data).

(** ** The rendered state, read back from the document *)

Inductive severity : Type := normal | warning | danger.

#[export] Instance severity_eq_dec : EqDecision severity.
Proof. solve_decision. Defined.

Definition classes (key : string) (d : DOM) : list string :=
  from_option className [] (d !! key).

Definition text (key : string) (d : DOM) : string :=
  from_option textContent "" (d !! key).

(** The severity a class list stands for, by the tokens the script adds. *)
Definition severity_of (cls : list string) : severity :=
  if decide ("danger" ∈ cls) then danger
  else if decide ("warning" ∈ cls) then warning
  else normal.

Definition banner_visible (d : DOM) : bool :=
  bool_decide ("hidden" ∉ classes "#safety-banner" d).

Definition banner_severity (d : DOM) : severity :=
  severity_of (classes "#safety-banner" d).

Definition banner_message (d : DOM) : string := text "#safety-message" d.

Definition status_text (d : DOM) : string := text ".status-text" d.

Definition percent_severity (d : DOM) : severity :=
  severity_of (classes "#load-percent" d).

Inductive colour : Type := grey | green | yellow | red.

Definition colour_token (c : colour) : string :=
  match c with
  | grey => "grey" | green => "green" | yellow => "yellow" | red => "red"
  end.

(** The colour of limit switch [id]'s indicator, when its class list is the
    base token followed by exactly one colour. *)
Definition indicator_colour (id : string) (d : DOM) : option colour :=
  match classes ("#" +:+ id +:+ " .test-indicator") d with
  | [base; c] =>
      if decide (base = "test-indicator") then
        if decide (c = "grey") then Some grey
        else if decide (c = "green") then Some green
        else if decide (c = "yellow") then Some yellow
        else if decide (c = "red") then Some red
        else None
      else None
  | _ => None
  end.

(** A page that has every element the script looks up. *)
Definition page_keys : list string :=
  [ ".status-dot"; "#connection-text";
    "#load-value"; "#swl-value"; "#trolley-value"; "#wind-value"; "#load-percent";
    ".status-light"; ".status-text"; "#safety-banner"; "#safety-message";
    "#test-status-badge"; "#test-status-text"; "#test-timer"; "#test-warning";
    "#test-ls1"; "#test-ls1 .test-indicator"; "#test-ls2"; "#test-ls2 .test-indicator";
    "#test-ls3"; "#test-ls3 .test-indicator"; "#test-ls4"; "#test-ls4 .test-indicator";
    "#hoist-op"; "#hoist-op .op-status"; "#trolley-op"; "#trolley-op .op-status";
    "#slew-op"; "#slew-op .op-status";
    "#util-time"; "#util-status"; "#util-status .status-dot"; "#util-status span:last-child";
    "#counter-hookup"; "#counter-hookdown"; "#status-word"; "#last-update";
    "#overload-badge"; "#overload-badge .badge-status";
    "#bypass-badge"; "#bypass-badge .badge-status" ].

Definition blank : Element := {| className := []; textContent := "" |}.

Definition blank_page : DOM := list_to_map ((λ k, (k, blank)) <$> page_keys).


(** ** src/app.js, class CraneMonitor: connection life cycle *)

(** The address [setupWebSocket] builds,
    [scheme://host/ws?token=encodeURIComponent(token)], kept as its parts. *)
Record WsUrl : Type := { url_scheme : string; url_host : string; url_token : string }.

(** A pending [setTimeout]: its handle and the time it is due.  The only
    callback the script ever registers is the reconnect closure of
    [scheduleReconnect]. *)
Record Timeout : Type := { timeout_id : positive; timeout_due : Z }.

(** The fields of the [CraneMonitor] instance. *)
Record CraneMonitor : Type := {
  ws : option nat;
  reconnectInterval : Z;
  reconnectTimer : option positive;
  data : option Snapshot
}.

(** The browser the instance lives in. *)
Record Browser : Type := {
  document : DOM;
  monitor_token : option string;     (* localStorage 'monitor_token' *)
  location_https : bool;             (* location.protocol === 'https:' *)
  location_host : string;
  location_href : option string;     (* set by a navigation *)
  clock : Z;                         (* milliseconds *)
  timeouts : list Timeout;           (* pending timers, oldest first *)
  next_timeout : positive;           (* the handle setTimeout returns next *)
  sockets : list WsUrl               (* WebSockets constructed, oldest first *)
}.

Record World : Type := { this : CraneMonitor; browser : Browser }.

Abbreviation Script := (Eff World).

Module Upd.

Definition with_document (d : DOM) (b : Browser) : Browser :=
  {| document := d; monitor_token := monitor_token b;
     location_https := location_https b; location_host := location_host b;
     location_href := location_href b; clock := clock b;
     timeouts := timeouts b; next_timeout := next_timeout b; sockets := sockets b |}.

Definition with_token (t : option string) (b : Browser) : Browser :=
  {| document := document b; monitor_token := t;
     location_https := location_https b; location_host := location_host b;
     location_href := location_href b; clock := clock b;
     timeouts := timeouts b; next_timeout := next_timeout b; sockets := sockets b |}.

Definition with_href (h : string) (b : Browser) : Browser :=
  {| document := document b; monitor_token := monitor_token b;
     location_https := location_https b; location_host := location_host b;
     location_href := Some h; clock := clock b;
     timeouts := timeouts b; next_timeout := next_timeout b; sockets := sockets b |}.

Definition with_clock (t : Z) (b : Browser) : Browser :=
  {| document := document b; monitor_token := monitor_token b;
     location_https := location_https b; location_host := location_host b;
     location_href := location_href b; clock := t;
     timeouts := timeouts b; next_timeout := next_timeout b; sockets := sockets b |}.

Definition with_timeouts (ts : list Timeout) (n : positive) (b : Browser) : Browser :=
  {| document := document b; monitor_token := monitor_token b;
     location_https := location_https b; location_host := location_host b;
     location_href := location_href b; clock := clock b;
     timeouts := ts; next_timeout := n; sockets := sockets b |}.

Definition with_sockets (ss : list WsUrl) (b : Browser) : Browser :=
  {| document := document b; monitor_token := monitor_token b;
     location_https := location_https b; location_host := location_host b;
     location_href := location_href b; clock := clock b;
     timeouts := timeouts b; next_timeout := next_timeout b; sockets := ss |}.

Definition with_ws (s : option nat) (m : CraneMonitor) : CraneMonitor :=
  {| ws := s; reconnectInterval := reconnectInterval m;
     reconnectTimer := reconnectTimer m; data := data m |}.

Definition with_reconnectTimer (t : option positive) (m : CraneMonitor) : CraneMonitor :=
  {| ws := ws m; reconnectInterval := reconnectInterval m;
     reconnectTimer := t; data := data m |}.

Definition with_data (s : option Snapshot) (m : CraneMonitor) : CraneMonitor :=
  {| ws := ws m; reconnectInterval := reconnectInterval m;
     reconnectTimer := reconnectTimer m; data := s |}.

Definition on_browser (f : Browser → Browser) (w : World) : World :=
  {| this := this w; browser := f (browser w) |}.

Definition on_this (f : CraneMonitor → CraneMonitor) (w : World) : World :=
  {| this := f (this w); browser := browser w |}.

End Upd.

(** Run document code inside the script. *)
Definition in_document {A} (m : Dom A) : Script A := λ w,
  let r := m (document (browser w)) in
  (r.1, Upd.on_browser (Upd.with_document r.2) w).

Module Window.

(** [setTimeout(callback, delay)]: registers the timer and returns its
    handle, a positive integer. *)
Definition setTimeout (delay : Z) : Script positive := λ w,
  let b := browser w in
  let h := next_timeout b in
  (Ok h,
   Upd.on_browser
     (Upd.with_timeouts
        (timeouts b ++ [{| timeout_id := h; timeout_due := (clock b + delay)%Z |}])
        (Pos.succ h)) w).

(** [clearTimeout(h)]: nothing happens when [h] is not pending. *)
Definition clearTimeout (h : positive) : Script unit :=
  modify (Upd.on_browser (λ b,
    Upd.with_timeouts (filter (λ t, timeout_id t ≠ h) (timeouts b)) (next_timeout b) b)).

(** What the browser does when timer [h] fires: the timer is no longer
    pending while its callback runs. *)
Definition expire (h : positive) : Script unit :=
  modify (Upd.on_browser (λ b,
    Upd.with_timeouts (filter (λ t, timeout_id t ≠ h) (timeouts b)) (next_timeout b) b)).

(** [new WebSocket(url)]; [ok = false] is a constructor that throws. *)
Definition newWebSocket (ok : bool) (url : WsUrl) : Script nat := λ w,
  if ok then
    let b := browser w in
    (Ok (length (sockets b)), Upd.on_browser (Upd.with_sockets (sockets b ++ [url])) w)
  else (Thrown, w).

End Window.

Definition updateConnectionStatus (connected : bool) : Dom unit :=
  statusDot ← querySelector ".status-dot";
  statusText ← getElementById "connection-text";
  if connected then
    classList_remove statusDot "offline";;
    classList_add statusDot "online";;
    set_textContent statusText "Connected"
  else
    classList_remove statusDot "online";;
    classList_add statusDot "offline";;
    set_textContent statusText "Mock Data".

Definition scheduleReconnect : Script unit :=
  w ← read;
  match reconnectTimer (this w) with
  | None =>
      h ← Window.setTimeout (reconnectInterval (this w));
      modify (Upd.on_this (Upd.with_reconnectTimer (Some h)))
  | Some _ => mret tt
  end.

(** [setupWebSocket()]; [ctor_ok] tells whether the WebSocket constructor
    returns. *)
Definition setupWebSocket (ctor_ok : bool) : Script unit :=
  w ← read;
  let b := browser w in
  let token := monitor_token b in
  if negb (from_option Js.str_truthy false token) then
    modify (Upd.on_browser (Upd.with_href "/login.html"))
  else
    let scheme := if location_https b then "wss" else "ws" in
    let wsUrl := {| url_scheme := scheme; url_host := location_host b;
                    url_token := default "" token |} in
    try_catch
      (s ← Window.newWebSocket ctor_ok wsUrl;
       modify (Upd.on_this (Upd.with_ws (Some s))))
      (in_document (updateConnectionStatus false);;
       scheduleReconnect).

Definition init (ctor_ok : bool) : Script unit :=
  in_document (updateConnectionStatus false);;
  setupWebSocket ctor_ok.

(** [new CraneMonitor()] in browser [b]. *)
Definition construct (ctor_ok : bool) (b : Browser) : World :=
  exec (init ctor_ok)
    {| this := {| ws := None; reconnectInterval := 5000; reconnectTimer := None;
                  data := Some empty_snapshot |};
       browser := b |}.

Definition onConnect : Script unit :=
  in_document (updateConnectionStatus true);;
  w ← read;
  match reconnectTimer (this w) with
  | Some h =>
      Window.clearTimeout h;;
      modify (Upd.on_this (Upd.with_reconnectTimer None))
  | None => mret tt
  end.

(** [onMessage(event)]: [payload] is what [JSON.parse(event.data)] returns,
    [None] when it throws. *)
Definition onMessage (now : string) (payload : option Snapshot) : Script unit :=
  try_catch
    (match payload with
     | None => throw
     | Some d =>
         modify (Upd.on_this (Upd.with_data (Some d)));;
         in_document (updateUI now d)
     end)
    (mret tt).

Definition onError : Script unit := mret tt.

Definition onDisconnect : Script unit :=
  in_document (updateConnectionStatus false);;
  scheduleReconnect.

(** *** The browser's event loop *)

Inductive event : Type :=
| SocketOpen
| SocketMessage (now : string) (payload : option Snapshot)
| SocketError
| SocketClose
| TimerFires (h : positive) (ctor_ok : bool)
| TimePasses (dt : Z)
| StorageSet (token : option string).

Definition due (h : positive) (b : Browser) : bool :=
  existsb (λ t, bool_decide (timeout_id t = h) && (timeout_due t <=? clock b)%Z) (timeouts b).

(** One turn of the event loop.  Socket events reach the handlers only once a
    socket exists; a timer fires only when it is pending and due, and its
    callback is the reconnect closure, which calls [setupWebSocket]; an
    exception that escapes a handler ends the turn. *)
Definition step (w : World) (e : event) : World :=
  match e with
  | SocketOpen => if sockets (browser w) is [] then w else exec onConnect w
  | SocketMessage now p => if sockets (browser w) is [] then w else exec (onMessage now p) w
  | SocketError => if sockets (browser w) is [] then w else exec onError w
  | SocketClose => if sockets (browser w) is [] then w else exec onDisconnect w
  | TimerFires h ctor_ok =>
      if due h (browser w) then
        exec (Window.expire h;; setupWebSocket ctor_ok) w
      else w
  | TimePasses dt =>
      Upd.on_browser (λ b, Upd.with_clock (clock b + Z.max 0 dt)%Z b) w
  | StorageSet t => Upd.on_browser (Upd.with_token t) w
  end.

Definition run (w : World) (es : list event) : World := foldl step w es.

(** A freshly loaded page: nothing scheduled, nothing connected. *)
Definition fresh (b : Browser) : Prop := timeouts b = [] ∧ sockets b = [].

Inductive reachable : World → Prop :=
| reachable_construct b ctor_ok : fresh b → reachable (construct ctor_ok b)
| reachable_step w e : reachable w → reachable (step w e).

(** ** src/unnamed/part_001: the backend's WebSocket endpoint *)

(** The values the tick object holds; the one nested object maps counter
    names to counts. *)
Inductive value : Type :=
| VNum (q : Q)
| VStr (s : string)
| VBool (b : bool)
| VDate (ms : Z)
| VObj (members : list (string * Z)).

(** An object literal: its own properties in insertion order. *)
Definition object : Type := list (string * value).

Definition keys (o : object) : list string := o.*1.

Definition member (k : string) (o : object) : option value :=
  snd <$> List.find (λ kv, String.eqb kv.1 k) o.

(** What the socket hands to the peer.  [Data data] stands for the text frame
    [JSON.stringify(data)], which has one member for each own property of
    [data] (the date as a string). *)
Inductive frame : Type :=
| Data (msg : object)
| CloseFrame (code : Z) (reason : string).

(** An upgrade request as the ['connection'] handler meets it.
    [token_param] is the token the address carries, if any.  The handler
    obtains it through [new URL(req.url, base).searchParams.get('token')],
    where the base is built from the Host header; [url_throws] tells whether
    that constructor throws (a Host header that is no valid authority, such
    as a port above 65535), and [verify_ok] whether
    [jwt.verify(token, JWT_SECRET)] returns. *)
Record Request : Type := {
  req_url : option string;
  req_host : option string;
  token_param : option string;
  url_throws : bool;
  verify_ok : bool
}.

(** [reqUrl.includes('?')] *)
Fixpoint includes_qmark (s : string) : bool :=
  match s with
  | EmptyString => false
  | String c s => if String.eqb (String c "") "?" then true else includes_qmark s
  end.

(** The five draws of [Math.random()] of one tick, each in [0, 1). *)
Record Draws : Type := {
  draw_load : Q;
  draw_fork : Q;
  draw_battery : Q;
  draw_minutes : Q;
  draw_active : Q
}.

(** [Math.floor] *)
Definition floor (x : Q) : Z := (Qnum x / Zpos (Qden x))%Z.

(** [+(x.toFixed(2))] *)
Definition round2 (x : Q) : Q := Js.Fixed_num (Js.toFixed 2 x).

(** The object literal of the tick callback; [now] is [new Date()]. *)
Definition tick_data (r : Draws) (now : Z) : object :=
  [ ("load", VNum (round2 (draw_load r * 2000)));
    ("swl", VNum 2500);
    ("fork_position", VNum (round2 (draw_fork r * 5)));
    ("battery", VNum (inject_Z (floor (50 + draw_battery r * 50))));
    ("safety_level", VStr "safe");
    ("utilization_minutes", VNum (inject_Z (floor (draw_minutes r * 300))));
    ("utilization_active", VBool (Js.gt (draw_active r) (3 # 10)));
    ("counters", VObj [("liftup", 10%Z); ("liftdown", 5%Z)]);
    ("timestamp", VDate now) ].

(** [rs.slice(-n)] *)
Definition slice_last {A} (n : nat) (rs : list A) : list A :=
  drop (length rs - n) rs.

(** The save step of the tick callback: [readings.push(data)], then keep
    the last 1000 when there are more. *)
Definition push_reading {A} (readings : list A) (data : A) : list A :=
  let readings := readings ++ [data] in
  if (1000 <? length readings)%nat then slice_last 1000 readings else readings.

(** The module state: the in-memory readings, the connections whose interval
    timer runs, and everything written to the sockets so far. *)
Record Server : Type := {
  readings : list object;
  tickers : list nat;
  wire : list (nat * frame)
}.

Definition server_start : Server := {| readings := []; tickers := []; wire := [] |}.

Definition ws_close (c : nat) (code : Z) (reason : string) (s : Server) : Server :=
  {| readings := readings s; tickers := tickers s;
     wire := wire s ++ [(c, CloseFrame code reason)] |}.

Definition setInterval (c : nat) (s : Server) : Server :=
  {| readings := readings s; tickers := tickers s ++ [c]; wire := wire s |}.

Definition clearInterval (c : nat) (s : Server) : Server :=
  {| readings := readings s; tickers := filter (λ x, x ≠ c) (tickers s); wire := wire s |}.

(** The token extraction of the handler: the token, [null], or an
    exception. *)
Definition extract_token (req : Request) : result (option string) :=
  let reqUrl := default "" (req_url req) in
  let hasQuery := includes_qmark reqUrl in
  if hasQuery then
    if url_throws req then Thrown else Ok (token_param req)
  else Ok None.

(** [wss.on('connection', (ws, req) => ...)] for connection [c]. *)
Definition on_connection (c : nat) (req : Request) (s : Server) : Server :=
  match extract_token req with
  | Thrown => ws_close c 1011 "Server error" s
  | Ok token =>
      if negb (from_option Js.str_truthy false token) then
        ws_close c 1008 "Unauthorized" s
      else if negb (verify_ok req) then
        ws_close c 1008 "Invalid token" s
      else setInterval c s
  end.

(** The interval callback of connection [c]. *)
Definition on_tick (c : nat) (r : Draws) (now : Z) (s : Server) : Server :=
  let data := tick_data r now in
  {| readings := push_reading (readings s) data;
     tickers := tickers s;
     wire := wire s ++ [(c, Data data)] |}.

(** [ws.on('close', ...)] of connection [c]. *)
Definition on_close (c : nat) (s : Server) : Server := clearInterval c s.

Inductive server_event : Type :=
| Connection (c : nat) (req : Request)
| Tick (c : nat) (r : Draws) (now : Z)
| PeerClose (c : nat).

(** One turn of the server's event loop: an interval fires only while it
    runs, and the close handler exists only on an accepted connection. *)
Definition server_step (s : Server) (e : server_event) : Server :=
  match e with
  | Connection c req => on_connection c req s
  | Tick c r now => if bool_decide (c ∈ tickers s) then on_tick c r now s else s
  | PeerClose c => if bool_decide (c ∈ tickers s) then on_close c s else s
  end.

Definition server_run (s : Server) (es : list server_event) : Server :=
  foldl server_step s es.

(** The frames connection [c] has received. *)
Definition received (c : nat) (s : Server) : list frame :=
  (filter (λ cf, cf.1 = c) (wire s)).*2.

(** The member names section 6 of the specification lists for a wire
    message. *)
Definition documented_fields : list string :=
  [ "load"; "swl"; "safety_level"; "test_mode"; "hoist_active"; "trolley_active";
    "slew_active"; "utilization_minutes"; "utilization_active"; "counters";
    "status_word"; "overload_active"; "bypass_active"; "timestamp" ].

(** ** src/unnamed/part_001: users, login and the HTTP routes

    [bcrypt] and [jsonwebtoken] are libraries; the functions below take what
    a call returns, or the message of what it throws, from their caller. *)

Inductive outcome (A : Type) : Type :=
| Returns (a : A)
| Throws (message : string).
Arguments Returns {A} a.
Arguments Throws {A} message.

(** An entry of the in-memory [users] array. *)
Record User : Type := { username : string; passwordHash : string; role : string }.

(** The payload [jwt.sign] gets at login. *)
Record TokenClaims : Type := { claim_sub : string; claim_username : string; claim_role : string }.

(** The JSON bodies the routes answer with. *)
Inductive body : Type :=
| ErrorBody (error : string)
| MessageBody (message : string)
| LoginBody (token : string) (user_name : string) (user_role : string)
| ReadingBody (reading : object)
| ReadingsBody (found : list object)
| HealthBody.

Record Response : Type := { res_status : Z; res_body : body }.

(** [res.status(code).json(b)], and [res.json(b)] with the default status. *)
Definition respond (code : Z) (b : body) : Response := {| res_status := code; res_body := b |}.
Definition res_json (b : body) : Response := respond 200 b.

(** [process.env.DEFAULT_ADMIN_PASSWORD || 'password'] *)
Definition default_admin_password (env : option string) : string :=
  match env with
  | Some p => if Js.str_truthy p then p else "password"
  | None => "password"
  end.

(** [seedDefaultUser()]: [env] is the environment variable and [bcrypt_hash]
    the outcome of [bcrypt.hash(password, 10)]. *)
Definition seedDefaultUser (env : option string) (bcrypt_hash : string → outcome string)
    (users : list User) : list User :=
  let count := length users in
  if (count =? 0)%nat then
    let password := default_admin_password env in
    match bcrypt_hash password with
    | Returns hash =>
        users ++ [{| username := "admin"; passwordHash := hash; role := "admin" |}]
    | Throws _ => users
    end
  else users.

(** The body of a login request: [req.body || {}] with its two fields, which
    hold strings when they are present. *)
Record Credentials : Type := { cred_username : option string; cred_password : option string }.

(** [users.find(u => u.username === username)] *)
Definition find_user (name : string) (users : list User) : option User :=
  List.find (λ u, String.eqb (username u) name) users.

(** The handler of [POST /api/login]. *)
Definition login (bcrypt_compare : string → string → outcome bool)
    (jwt_sign : TokenClaims → outcome string)
    (users : list User) (req_body : option Credentials) : Response :=
  let name := req_body ≫= cred_username in
  let password := req_body ≫= cred_password in
  if negb (from_option Js.str_truthy false name) || negb (from_option Js.str_truthy false password)
  then respond 400 (ErrorBody "Missing credentials")
  else
    match find_user (default "" name) users with
    | None => respond 401 (ErrorBody "Invalid credentials")
    | Some user =>
        match bcrypt_compare (default "" password) (passwordHash user) with
        | Throws message => respond 500 (ErrorBody message)
        | Returns false => respond 401 (ErrorBody "Invalid credentials")
        | Returns true =>
            match jwt_sign {| claim_sub := username user; claim_username := username user;
                              claim_role := role user |} with
            | Throws message => respond 500 (ErrorBody message)
            | Returns token => res_json (LoginBody token (username user) (role user))
            end
        end
    end.

(** [s.split(' ')] *)
Fixpoint split_space (s : string) : list string :=
  match s with
  | EmptyString => [""]
  | String c rest =>
      if String.eqb (String c "") " " then "" :: split_space rest
      else
        match split_space rest with
        | part :: parts => String c part :: parts
        | [] => [String c ""]
        end
  end.

(** What a middleware does with a request: it answers, or it calls [next()]. *)
Inductive checked : Type :=
| Answered (r : Response)
| Next.

(** [verifyToken(req, res, next)]: [authorization] is the request header and
    [jwt_verify t] tells whether [jwt.verify(t, JWT_SECRET)] returns. *)
Definition verifyToken (jwt_verify : string → bool) (authorization : option string) : checked :=
  if negb (from_option Js.str_truthy false authorization)
  then Answered (respond 401 (ErrorBody "Missing token"))
  else
    let parts := split_space (default "" authorization) in
    if negb (length parts =? 2)%nat || negb (String.eqb (default "" (parts !! 0%nat)) "Bearer")
    then Answered (respond 401 (ErrorBody "Bad authorization header"))
    else
      if jwt_verify (default "" (parts !! 1%nat)) then Next
      else Answered (respond 401 (ErrorBody "Invalid token")).

(** A route behind [verifyToken]. *)
Definition guarded (jwt_verify : string → bool) (authorization : option string)
    (handler : Response) : Response :=
  match verifyToken jwt_verify authorization with
  | Answered r => r
  | Next => handler
  end.

(** [GET /health] *)
Definition health : Response := res_json HealthBody.

(** The handler of [GET /api/readings/latest]. *)
Definition latest (readings : list object) : Response :=
  let reading := if (0 <? length readings)%nat then readings !! (length readings - 1)%nat else None in
  res_json (match reading with
            | Some r => ReadingBody r
            | None => MessageBody "No readings yet"
            end).

(** The largest time value of a [Date]; beyond it the date is invalid. *)
Definition max_time : Z := 8640000000000000.

(** [new Date(t)] for a number of milliseconds: its time value, [None] for an
    Invalid Date. *)
Definition new_Date (t : Z) : option Z :=
  if (Z.abs t <=? max_time)%Z then Some t else None.

(** [new Date(reading.timestamp)].  The readings are the objects of the tick
    callback, whose timestamp is a [Date]; a reading without timestamp gives
    an Invalid Date. *)
Definition reading_date (reading : object) : option Z :=
  match member "timestamp" reading with
  | Some (VDate t) => Some t
  | _ => None
  end.

(** [a >= b] on dates: false when either is invalid. *)
Definition date_ge (a b : option Z) : bool :=
  match a, b with
  | Some x, Some y => (y <=? x)%Z
  | _, _ => false
  end.

(** The comparison function of the sort,
    [(a, b) => new Date(b.timestamp) - new Date(a.timestamp)]; a NaN result
    counts as zero. *)
Definition recent_first (a b : object) : Z :=
  match reading_date b, reading_date a with
  | Some y, Some x => (y - x)%Z
  | _, _ => 0%Z
  end.

(** [array.sort(recent_first)]: the sort is stable, so each reading, from the
    last to the first, goes in front of the first reading it need not
    follow. *)
Fixpoint insert_recent (r : object) (sorted : list object) : list object :=
  match sorted with
  | [] => [r]
  | x :: rest =>
      if (0 <? recent_first r x)%Z then x :: insert_recent r rest
      else r :: sorted
  end.

Definition sort_recent_first (rs : list object) : list object :=
  foldr insert_recent [] rs.

(** [parseInt(req.params.hours) || 1]: [parsed] is what [parseInt] returns,
    [None] for NaN. *)
Definition hours_or_one (parsed : option Z) : Z :=
  match parsed with
  | Some h => if (h =? 0)%Z then 1 else h
  | None => 1
  end.

(** The handler of [GET /api/readings/history/:hours]; [now] is
    [Date.now()]. *)
Definition history (now : Z) (parsed_hours : option Z) (readings : list object) : Response :=
  let hours := hours_or_one parsed_hours in
  let since := new_Date (now - hours * 60 * 60 * 1000) in
  let filteredReadings :=
    take 1000
      (sort_recent_first
         (List.filter (λ reading, date_ge (reading_date reading) since) readings)) in
  res_json (ReadingsBody filteredReadings).

(** ** The message as the script reads it

    [JSON.parse] of the frame [JSON.stringify(data)]: each field the script
    reads is the member of that name.  The snapshot keeps the utilization
    minutes and the status word as integers; a tick object holds whole
    numbers there. *)
Definition field_number (k : string) (o : object) : option Q :=
  match member k o with Some (VNum q) => Some q | _ => None end.

Definition field_integer (k : string) (o : object) : option Z :=
  match member k o with
  | Some (VNum q) => if Qeq_bool q (inject_Z (floor q)) then Some (floor q) else None
  | _ => None
  end.

Definition field_string (k : string) (o : object) : option string :=
  match member k o with Some (VStr s) => Some s | _ => None end.

Definition field_flag (k : string) (o : object) : Js.flag :=
  match member k o with Some (VBool b) => Some b | _ => None end.

Definition field_counters (o : object) : option Counters :=
  match member "counters" o with
  | Some (VObj ms) =>
      Some {| hookup := snd <$> List.find (λ kv, String.eqb kv.1 "hookup") ms;
              hookdown := snd <$> List.find (λ kv, String.eqb kv.1 "hookdown") ms |}
  | _ => None
  end.

(** The snapshot [onMessage] gets for a tick object: the tick object has no
    [test_mode], which is the one field of the snapshot that is an object of
    flags. *)
Definition message_snapshot (o : object) : Snapshot :=
  {| load := field_number "load" o;
     swl := field_number "swl" o;
     trolley := field_number "trolley" o;
     wind := field_number "wind" o;
     safety_level := field_string "safety_level" o;
     test_mode := None;
     hoist_active := field_flag "hoist_active" o;
     trolley_active := field_flag "trolley_active" o;
     slew_active := field_flag "slew_active" o;
     utilization_minutes := field_integer "utilization_minutes" o;
     utilization_active := field_flag "utilization_active" o;
     counters := field_counters o;
     status_word := field_integer "status_word" o;
     overload_active := field_flag "overload_active" o;
     bypass_active := field_flag "bypass_active" o |}.

(** ** src/app.js, [startMockData]: the mock frame

    The eight draws of [Math.random()] of one mock frame; [hook] and the
    trolley counters are in the object but no code reads them. *)
Record MockDraws : Type := {
  mock_load : Q;
  mock_trolley : Q;
  mock_hook : Q;
  mock_wind : Q;
  mock_hoist : Q;
  mock_trolley_op : Q;
  mock_slew : Q;
  mock_util : Q
}.

Definition mockData (r : MockDraws) : Snapshot :=
  {| load := Some ((155 # 10) + mock_load r * 5);
     swl := Some 100;
     trolley := Some ((253 # 10) + mock_trolley r * 2);
     wind := Some ((32 # 10) + mock_wind r * 2);
     safety_level := Some "safe";
     test_mode :=
       Some {| in_progress := Some false; all_complete := Some true;
               remaining_seconds := Some 600%Z;
               ls1_tested := Some true; ls1_hit := Some false;
               ls2_tested := Some true; ls2_hit := Some false;
               ls3_tested := Some true; ls3_hit := Some false;
               ls4_tested := Some true; ls4_hit := Some false;
               warning_active := Some false |};
     hoist_active := Some (Js.gt (mock_hoist r) (7 # 10));
     trolley_active := Some (Js.gt (mock_trolley_op r) (8 # 10));
     slew_active := Some (Js.gt (mock_slew r) (9 # 10));
     utilization_minutes := Some 245%Z;
     utilization_active := Some (Js.gt (mock_util r) (5 # 10));
     counters := Some {| hookup := Some 42%Z; hookdown := Some 38%Z |};
     status_word := Some 291%Z;
     overload_active := Some false;
     bypass_active := Some false |}.

(** The interval callback of [startMockData]: it renders one mock frame. *)
Definition mockFrame (now : string) (r : MockDraws) : Script unit :=
  in_document (updateUI now (mockData r)).

(** * Vocabulary of the properties *)

(** The values a computation can return. *)
Definition returns {S A} (m : Eff S A) (a : A) : Prop := ∃ s, (m s).1 = Ok a.

(** [touches K m]: [m] neither creates nor removes elements and leaves every
    element outside [K] as it was, whether it throws or not. *)
Definition touches {A} (K : list string) (m : Dom A) : Prop :=
  ∀ d, (∀ k, is_Some (exec m d !! k) ↔ is_Some (d !! k)) ∧
       (∀ k, k ∉ K → exec m d !! k = d !! k).

(** [safe K m]: [m] does not throw on a page that has the elements [K]. *)
Definition safe {A} (K : list string) (m : Dom A) : Prop :=
  ∀ d, (∀ k, k ∈ K → is_Some (d !! k)) → completes m d.

(** The page has every element the script looks up. *)
Definition page_ok (d : DOM) : Prop := ∀ k, k ∈ page_keys → is_Some (d !! k).

(** The four elements [updateSafetyStatus] writes. *)
Definition safety_keys : list string :=
  [".status-light"; ".status-text"; "#safety-banner"; "#safety-message"].

(** The levels [updateSafetyStatus] has a case for. *)
Definition known_levels : list string := ["safe"; "warning"; "overload"; "cutoff"].

(** The statements of [updateUI] before the load percentage and after the
    test mode, and the elements each part of [updateUI] writes. *)
Definition ui_values (data : Snapshot) : Dom unit :=
  updateElement "load-value" (fixed_or 2 "0.00" (load data));;
  updateElement "swl-value" (fixed_or 2 "0.00" (swl data));;
  updateElement "trolley-value" (fixed_or 2 "0.00" (trolley data));;
  updateElement "wind-value" (fixed_or 1 "0.0" (wind data)).

Definition ui_tail (now : string) (data : Snapshot) : Dom unit :=
  updateOperation "hoist-op" (hoist_active data);;
  updateOperation "trolley-op" (trolley_active data);;
  updateOperation "slew-op" (slew_active data);;
  updateElement "util-time" (int_or_zero (utilization_minutes data));;
  updateUtilStatus (utilization_active data);;
  updateElement "counter-hookup" (int_or_zero (counters data ≫= hookup));;
  updateElement "counter-hookdown" (int_or_zero (counters data ≫= hookdown));;
  updateElement "status-word"
    ("0x" +:+ Js.padStart 4 "0" (Js.toHexUpper (default 0%Z (status_word data))));;
  updateElement "last-update" now;;
  updateBadge "overload-badge" (overload_active data);;
  updateBadge "bypass-badge" (bypass_active data).

Definition values_keys : list string :=
  ["#load-value"; "#swl-value"; "#trolley-value"; "#wind-value"].

Definition test_mode_keys : list string :=
  [ "#test-status-badge"; "#test-status-text"; "#test-timer"; "#test-warning";
    "#test-ls1 .test-indicator"; "#test-ls2 .test-indicator";
    "#test-ls3 .test-indicator"; "#test-ls4 .test-indicator" ].

Definition tail_keys : list string :=
  [ "#hoist-op .op-status"; "#trolley-op .op-status"; "#slew-op .op-status";
    "#util-time"; "#util-status .status-dot"; "#util-status span:last-child";
    "#counter-hookup"; "#counter-hookdown"; "#status-word"; "#last-update";
    "#overload-badge .badge-status"; "#bypass-badge .badge-status" ].

(** A message that carries nothing but a safety level. *)
Definition level_snapshot (level : string) : Snapshot :=
  {| load := None; swl := None; trolley := None; wind := None;
     safety_level := Some level; test_mode := None;
     hoist_active := None; trolley_active := None; slew_active := None;
     utilization_minutes := None; utilization_active := None;
     counters := None; status_word := None;
     overload_active := None; bypass_active := None |}.

(** A message that carries nothing but a load and a safe working load. *)
Definition load_snapshot (l w : Q) : Snapshot :=
  {| load := Some l; swl := Some w; trolley := None; wind := None;
     safety_level := None; test_mode := None;
     hoist_active := None; trolley_active := None; slew_active := None;
     utilization_minutes := None; utilization_active := None;
     counters := None; status_word := None;
     overload_active := None; bypass_active := None |}.

(** The colour table of section 4.3 of the specification, in its words:
    hit and not tested is red, hit and tested is yellow, tested and not hit is
    green, neither is grey. *)
Definition spec_colour (tested hit : bool) : colour :=
  match hit, tested with
  | true, false => red
  | true, true => yellow
  | false, true => green
  | false, false => grey
  end.

Definition set_safety_level (level : option string) (data : Snapshot) : Snapshot :=
  {| load := load data; swl := swl data; trolley := trolley data; wind := wind data;
     safety_level := level; test_mode := test_mode data;
     hoist_active := hoist_active data; trolley_active := trolley_active data;
     slew_active := slew_active data;
     utilization_minutes := utilization_minutes data;
     utilization_active := utilization_active data;
     counters := counters data; status_word := status_word data;
     overload_active := overload_active data; bypass_active := bypass_active data |}.

(** The percentage as the page shows it: [load / swl * 100] rounded to one
    decimal by [toFixed(1)]. *)
Definition displayed_percent (l w : Q) : Q := Js.Fixed_num (Js.toFixed 1 (l / w * 100)).

(** [preserves P m]: running [m] from a state in [P] ends in [P], thrown or
    not. *)
Definition preserves {S A} (P : S → Prop) (m : Eff S A) : Prop :=
  ∀ s, P s → P (exec m s).

(** At most one reconnect timer is pending, and the instance holds its
    handle. *)
Definition at_most_one_timer (w : World) : Prop :=
  timeouts (browser w) = [] ∨
  ∃ t, timeouts (browser w) = [t] ∧ reconnectTimer (this w) = Some (timeout_id t).

(** The two elements [updateConnectionStatus] writes. *)
Definition has_status_elements (w : World) : Prop :=
  is_Some (document (browser w) !! ".status-dot") ∧
  is_Some (document (browser w) !! "#connection-text").

(** No timer is pending although the instance still holds a handle. *)
Definition stale_handle (w : World) : Prop :=
  timeouts (browser w) = [] ∧ is_Some (reconnectTimer (this w)).

(** A browser showing the blank page, with a stored token. *)
Definition sample_browser : Browser :=
  {| document := blank_page; monitor_token := Some "abc";
     location_https := false; location_host := "crane.local:3001";
     location_href := None; clock := 0;
     timeouts := []; next_timeout := 1; sockets := [] |}.

(** The request carries no token. *)
Definition carries_no_token (r : Request) : Prop := token_param r = None.

(** The handler can read the address: it has no query, or [new URL]
    returns. *)
Definition address_parses (r : Request) : Prop :=
  includes_qmark (default "" (req_url r)) = false ∨ url_throws r = false.

(** The request carries a token that the handler reads and [jwt.verify]
    rejects. *)
Definition carries_invalid_token (r : Request) : Prop :=
  includes_qmark (default "" (req_url r)) = true ∧ url_throws r = false ∧
  (∃ t, token_param r = Some t ∧ t ≠ "") ∧ verify_ok r = false.

(** The member names of a tick object. *)
Definition tick_fields : list string :=
  [ "load"; "swl"; "fork_position"; "battery"; "safety_level";
    "utilization_minutes"; "utilization_active"; "counters"; "timestamp" ].

(** No event of [es] is a connection with identifier [c]. *)
Definition no_connection (c : nat) (es : list server_event) : Prop :=
  ∀ req, Connection c req ∉ es.

Definition sample_draws : Draws :=
  {| draw_load := 1 # 3; draw_fork := 1 # 2; draw_battery := 99 # 100;
     draw_minutes := 1 # 7; draw_active := 1 # 2 |}.

(** An upgrade request for [/ws] without query. *)
Definition request_without_token : Request :=
  {| req_url := Some "/ws"; req_host := Some "crane.local:3001";
     token_param := None; url_throws := false; verify_ok := false |}.

(** An upgrade request whose token does not verify. *)
Definition request_with_bad_token : Request :=
  {| req_url := Some "/ws?token=abc"; req_host := Some "crane.local:3001";
     token_param := Some "abc"; url_throws := false; verify_ok := false |}.

(** An upgrade request with an empty query and a Host header whose port is
    out of range, so that [new URL("/ws?", "http://x:99999")] throws. *)
Definition request_with_bad_host : Request :=
  {| req_url := Some "/ws?"; req_host := Some "x:99999";
     token_param := None; url_throws := true; verify_ok := false |}.

(** An upgrade request with a token that verifies. *)
Definition request_with_good_token : Request :=
  {| req_url := Some "/ws?token=good"; req_host := Some "crane.local:3001";
     token_param := Some "good"; url_throws := false; verify_ok := true |}.

(** The documented fields a tick object has, and those it lacks. *)
Definition documented_present : list string :=
  [ "load"; "swl"; "safety_level"; "utilization_minutes"; "utilization_active";
    "counters"; "timestamp" ].

Definition documented_absent : list string :=
  [ "test_mode"; "hoist_active"; "trolley_active"; "slew_active"; "status_word";
    "overload_active"; "bypass_active" ].

(** Every data frame on the wire is a tick object. *)
Definition only_tick_frames (s : Server) : Prop :=
  ∀ c msg, (c, Data msg) ∈ wire s → ∃ r now, msg = tick_data r now.

(** The objects the ticks of a run append, in order: a tick counts when its
    interval timer runs at that point of the run. *)
Fixpoint tick_log (s : Server) (es : list server_event) : list object :=
  match es with
  | [] => []
  | e :: es =>
      match e with
      | Tick c r now =>
          if bool_decide (c ∈ tickers s) then tick_data r now :: tick_log (server_step s e) es
          else tick_log (server_step s e) es
      | _ => tick_log (server_step s e) es
      end
  end.

(** * Vocabulary of the further properties *)

(** ** Rendering *)

(** The elements [updateUI] writes. *)
Definition ui_keys : list string :=
  values_keys ++ ["#load-percent"] ++ safety_keys ++ test_mode_keys ++ tail_keys.

(** The elements [updateUI] uses without asking whether they exist. *)
Definition needed_keys : list string :=
  [ "#load-percent";
    ".status-light"; ".status-text"; "#safety-banner"; "#safety-message";
    "#test-status-badge"; "#test-status-text"; "#test-timer"; "#test-warning";
    "#util-status"; "#util-status .status-dot"; "#util-status span:last-child";
    "#overload-badge"; "#overload-badge .badge-status";
    "#bypass-badge"; "#bypass-badge .badge-status" ].

(** A page with the needed elements and no other. *)
Definition bare_page : DOM := list_to_map ((λ k, (k, blank)) <$> needed_keys).

(** The page without its percentage element. *)
Definition page_without_percent : DOM := delete "#load-percent" blank_page.

Definition decimal_digit (n : Z) : string :=
  default "?" (["0";"1";"2";"3";"4";"5";"6";"7";"8";"9"] !! Z.to_nat n).

(** The two decimal digits of a number below one hundred. *)
Definition two_digits (n : Z) : string :=
  decimal_digit (n / 10) +:+ decimal_digit (n `mod` 10).

(** The four hexadecimal digits of a 16-bit word. *)
Definition hex4 (w : Z) : string :=
  Js.hex_digit (Z.to_N (w / 4096)) +:+ Js.hex_digit (Z.to_N ((w / 256) `mod` 16)) +:+
  Js.hex_digit (Z.to_N ((w / 16) `mod` 16)) +:+ Js.hex_digit (Z.to_N (w `mod` 16)).

(** [P] holds of the [n] integers from [x] on. *)
Fixpoint holds_from (P : Z → bool) (n : nat) (x : Z) : bool :=
  match n with
  | O => true
  | S n => P x && holds_from P n (x + 1)
  end.

(** A test in progress with [rs] seconds left. *)
Definition running_test (rs : Z) : TestMode :=
  {| in_progress := Some true; all_complete := None; remaining_seconds := Some rs;
     ls1_tested := None; ls1_hit := None; ls2_tested := None; ls2_hit := None;
     ls3_tested := None; ls3_hit := None; ls4_tested := None; ls4_hit := None;
     warning_active := None |}.

Definition set_test_mode (t : option TestMode) (data : Snapshot) : Snapshot :=
  {| load := load data; swl := swl data; trolley := trolley data; wind := wind data;
     safety_level := safety_level data; test_mode := t;
     hoist_active := hoist_active data; trolley_active := trolley_active data;
     slew_active := slew_active data;
     utilization_minutes := utilization_minutes data;
     utilization_active := utilization_active data;
     counters := counters data; status_word := status_word data;
     overload_active := overload_active data; bypass_active := bypass_active data |}.

Definition set_status_word (w : option Z) (data : Snapshot) : Snapshot :=
  {| load := load data; swl := swl data; trolley := trolley data; wind := wind data;
     safety_level := safety_level data; test_mode := test_mode data;
     hoist_active := hoist_active data; trolley_active := trolley_active data;
     slew_active := slew_active data;
     utilization_minutes := utilization_minutes data;
     utilization_active := utilization_active data;
     counters := counters data; status_word := w;
     overload_active := overload_active data; bypass_active := bypass_active data |}.

(** Each draw of [Math.random()] is in [0, 1). *)
Definition unit_draw (x : Q) : Prop := (0 <= x)%Q ∧ (x < 1)%Q.

Definition sample_mock_draws : MockDraws :=
  {| mock_load := 1 # 2; mock_trolley := 1 # 3; mock_hook := 1 # 4; mock_wind := 1 # 5;
     mock_hoist := 3 # 4; mock_trolley_op := 1 # 2; mock_slew := 19 # 20; mock_util := 0 |}.

(** ** The client's connection *)

(** Nothing is scheduled or connected, and nothing can be: the page has been
    sent to the login form. *)
Definition idle (w : World) : Prop :=
  timeouts (browser w) = [] ∧ sockets (browser w) = [].

(** Every WebSocket address built so far carries a token and one of the two
    schemes. *)
Definition sockets_carry_token (w : World) : Prop :=
  ∀ u, u ∈ sockets (browser w) →
       url_token u ≠ "" ∧ (url_scheme u = "ws" ∨ url_scheme u = "wss").

(** ** The backend *)

Definition draws_in_range (r : Draws) : Prop :=
  unit_draw (draw_load r) ∧ unit_draw (draw_fork r) ∧ unit_draw (draw_battery r) ∧
  unit_draw (draw_minutes r) ∧ unit_draw (draw_active r).

(** The handler lets the request in: it reads a token from the address and
    the token verifies. *)
Definition accepts (req : Request) : bool :=
  includes_qmark (default "" (req_url req)) && negb (url_throws req) &&
  from_option Js.str_truthy false (token_param req) && verify_ok req.

(** Every stored reading went out on some socket. *)
Definition readings_were_sent (s : Server) : Prop :=
  ∀ o, o ∈ readings s → ∃ c, (c, Data o) ∈ wire s.

(** The string has no space. *)
Fixpoint no_space (s : string) : bool :=
  match s with
  | EmptyString => true
  | String c rest => negb (String.eqb (String c "") " ") && no_space rest
  end.

(** Readings from the most recent to the oldest. *)
Definition recent_first_sorted (rs : list object) : Prop :=
  ∀ i j a b x y, (i ≤ j)%nat → rs !! i = Some a → rs !! j = Some b →
                 reading_date a = Some x → reading_date b = Some y → (y ≤ x)%Z.

(** No reading has to come after a later one of the list, by the comparison
    function of the sort. *)
Fixpoint in_sort_order (rs : list object) : Prop :=
  match rs with
  | [] => True
  | x :: rest => Forall (λ y, (recent_first x y ≤ 0)%Z) rest ∧ in_sort_order rest
  end.

(** The reading is not older than [since]. *)
Definition in_window (since : Z) (reading : object) : Prop :=
  ∃ t, reading_date reading = Some t ∧ (since ≤ t)%Z.

Definition sample_users : list User :=
  [ {| username := "admin"; passwordHash := "$2a$10$hash"; role := "admin" |} ].

(** A [bcrypt.compare] that tells the one password of [sample_users]. *)
Definition sample_compare (password hash : string) : outcome bool :=
  Returns (String.eqb password "password" && String.eqb hash "$2a$10$hash").

Definition sample_sign (c : TokenClaims) : outcome string :=
  Returns ("token-of-" +:+ claim_sub c).

Definition sample_hash (password : string) : outcome string :=
  Returns ("hash-of-" +:+ password).

Definition sample_hash_compare (password hash : string) : outcome bool :=
  Returns (String.eqb hash ("hash-of-" +:+ password)).

(** * Properties *)

(** ** Reasoning about effectful code *)

Section Effects.
Context {S : Type}.

Lemma bind_eq {A B} (m : Eff S A) (f : A → Eff S B) s :
  (m ≫= f) s =
  match m s with
  | (Ok a, s') => f a s'
  | (Thrown, s') => (Thrown, s')
  end.
Proof. reflexivity. Qed.

Lemma exec_bind {A B} (m : Eff S A) (f : A → Eff S B) s :
  exec (m ≫= f) s =
  match (m s).1 with
  | Ok a => exec (f a) (exec m s)
  | Thrown => exec m s
  end.
Proof. unfold exec. rewrite bind_eq. destruct (m s) as [[a|] s']; reflexivity. Qed.

Lemma exec_seq {A B} (m : Eff S A) (k : Eff S B) s :
  completes m s → exec (m ;; k) s = exec k (exec m s).
Proof. intros [a E]. rewrite exec_bind, E. reflexivity. Qed.

Lemma completes_bind {A B} (m : Eff S A) (f : A → Eff S B) s a :
  (m s).1 = Ok a → completes (f a) (exec m s) → completes (m ≫= f) s.
Proof.
  unfold completes, exec. intros E [b Eb]. exists b.
  rewrite bind_eq. destruct (m s) as [r s']. simpl in *. subst r. exact Eb.
Qed.

Lemma completes_seq {A B} (m : Eff S A) (k : Eff S B) s :
  completes m s → completes k (exec m s) → completes (m ;; k) s.
Proof. intros [a E] Hk. exact (completes_bind m (λ _, k) s a E Hk). Qed.

Lemma completes_ret {A} (a : A) (s : S) : completes (mret a) s.
Proof. exists a. reflexivity. Qed.

End Effects.

(** ** Footprints of document code *)

Section Footprints.
Variable K : list string.

Lemma touches_ret {A} (a : A) : touches K (mret a : Dom A).
Proof. intros d. split; intros k; reflexivity || (intros _; reflexivity). Qed.

Lemma touches_throw {A} : touches K (throw : Dom A).
Proof. intros d. split; intros k; reflexivity || (intros _; reflexivity). Qed.

Lemma touches_bind {A B} (m : Dom A) (f : A → Dom B) :
  touches K m → (∀ a, returns m a → touches K (f a)) → touches K (m ≫= f).
Proof.
  intros Hm Hf d. rewrite exec_bind.
  destruct ((m d).1) as [a|] eqn:E; [|apply Hm].
  destruct (Hm d) as [Hm1 Hm2].
  destruct (Hf a (ex_intro _ d E) (exec m d)) as [Hf1 Hf2].
  split; intros k.
  - rewrite Hf1. apply Hm1.
  - intros Hk. rewrite Hf2, Hm2; done.
Qed.

Lemma touches_select key : touches K (select key).
Proof. intros d. split; intros k; reflexivity || (intros _; reflexivity). Qed.

Lemma returns_select key a : returns (select key) a → a = Some key ∨ a = None.
Proof.
  intros [d E]. unfold select in E. simpl in E.
  destruct (d !! key); inversion E; auto.
Qed.

Lemma touches_update n f : (∀ k, n = Some k → k ∈ K) → touches K (update n f).
Proof.
  intros Hn d. destruct n as [k|]; [|apply touches_throw].
  unfold exec, update. destruct (d !! k) as [e|] eqn:E; simpl.
  - split; intros k'.
    + rewrite lookup_insert_is_Some. split.
      * intros [<-|[_ H]]; [rewrite E; eauto | done].
      * intros H. destruct (decide (k = k')); auto.
    + intros Hk'. apply lookup_insert_ne. intros ->. apply Hk', Hn. reflexivity.
  - split; intros k'; reflexivity || (intros _; reflexivity).
Qed.

Lemma safe_ret {A} (a : A) : safe K (mret a : Dom A).
Proof. intros d _. apply completes_ret. Qed.

Lemma safe_bind {A B} (m : Dom A) (f : A → Dom B) :
  safe K m → touches K m → (∀ a, returns m a → safe K (f a)) → safe K (m ≫= f).
Proof.
  intros Hm Ht Hf d Hd. destruct (Hm d Hd) as [a E].
  apply (completes_bind m f d a E). apply Hf; [by exists d|].
  intros k Hk. apply (Ht d). auto.
Qed.

(** A lookup of an element the page has returns that element. *)
Lemma safe_select_bind {B} key (f : node → Dom B) :
  key ∈ K → safe K (f (Some key)) → safe K (select key ≫= f).
Proof.
  intros Hk Hf d Hd. destruct (Hd key Hk) as [e E].
  eapply completes_bind.
  - unfold select. simpl. rewrite E. reflexivity.
  - apply Hf. exact Hd.
Qed.

(** Otherwise the lookup tells whether the page has the element. *)
Lemma safe_select_bind_any {B} key (f : node → Dom B) :
  safe (key :: K) (f (Some key)) → safe K (f None) → safe K (select key ≫= f).
Proof.
  intros Hs Hn d Hd. eapply completes_bind; [reflexivity|].
  change (exec (select key) d) with d.
  unfold select. simpl. destruct (d !! key) as [e|] eqn:E; [apply Hs | apply Hn]; [|exact Hd].
  intros k Hk. apply elem_of_cons in Hk as [Hk|Hk]; [subst k; rewrite E; eauto | auto].
Qed.

Lemma safe_update k f : k ∈ K → safe K (update (Some k) f).
Proof.
  intros Hk d Hd. destruct (Hd k Hk) as [e E]. exists tt.
  unfold update. rewrite E. reflexivity.
Qed.

End Footprints.

(** Membership in a literal list of selectors, by evaluation. *)
Ltac in_keys :=
  first [ assumption
        | apply list_elem_of_here
        | apply (bool_decide_unpack _); vm_compute; exact I
        | apply list_elem_of_further; in_keys ].

Ltac returned x :=
  match goal with
  | H : returns (select _) x |- _ => apply returns_select in H as [-> | ->]
  end.

Create HintDb footprint.

#[export] Hint Extern 1 (_ ∈ _) => in_keys : footprint.

Ltac open_document :=
  unfold getElementById, querySelector, querySelectorIn,
    set_className, set_textContent, classList_add, classList_remove.

(** The element an update writes is the one its lookup returned. *)
Ltac updated_key :=
  first
    [ solve [ intros ? [= <-]; in_keys ]
    | solve [ intros ? [=] ]
    | intros ? ->;
      match goal with
      | H : returns (select _) (Some _) |- _ =>
          apply returns_select in H as [[= ->] | [=]]; in_keys
      | H : returns throw _ |- _ => destruct H as [? [=]]
      end ].

(** Footprint of a procedure, following its text. *)
Ltac touch :=
  open_document;
  repeat first
    [ solve [ eauto with footprint ]
    | apply touches_ret
    | apply touches_throw
    | apply touches_select
    | apply touches_update; updated_key
    | match goal with
      | |- touches _ (mbind _ (match ?x with _ => _ end)) => returned x
      end
    | apply touches_bind; [ | intros ? ? ]
    | match goal with
      | |- touches _ (match ?x with _ => _ end) => first [ returned x | destruct x ]
      end ].

(** Absence of exceptions on a page that has the elements, following the
    text of a procedure. *)
Ltac safely :=
  open_document;
  repeat first
    [ solve [ eauto with footprint ]
    | apply safe_ret
    | apply safe_update; in_keys
    | apply safe_select_bind; [ in_keys | ]
    | apply safe_select_bind_any
    | match goal with
      | |- safe _ (mbind _ (match ?x with _ => _ end)) => returned x
      end
    | apply safe_bind; [ | touch | intros ? ? ]
    | match goal with
      | |- safe _ (match ?x with _ => _ end) => first [ returned x | destruct x ]
      end ].

Section Procedures.
Variable K : list string.

Lemma updateElement_touches id value :
  "#" +:+ id ∈ K → touches K (updateElement id value).
Proof. intros H. unfold updateElement. touch. Qed.

Lemma updateElement_safe id value : safe K (updateElement id value).
Proof. unfold updateElement. safely. Qed.

Lemma updateTestIndicator_touches id tested hit :
  ("#" +:+ id) +:+ " " +:+ ".test-indicator" ∈ K →
  touches K (updateTestIndicator id tested hit).
Proof. intros H. unfold updateTestIndicator. touch. Qed.

Lemma updateTestIndicator_safe id tested hit :
  safe K (updateTestIndicator id tested hit).
Proof. unfold updateTestIndicator. safely. Qed.

Lemma updateOperation_touches id active :
  ("#" +:+ id) +:+ " " +:+ ".op-status" ∈ K →
  touches K (updateOperation id active).
Proof. intros H. unfold updateOperation. touch. Qed.

Lemma updateOperation_safe id active : safe K (updateOperation id active).
Proof. unfold updateOperation. safely. Qed.

Lemma updateBadge_touches id active :
  ("#" +:+ id) +:+ " " +:+ ".badge-status" ∈ K →
  touches K (updateBadge id active).
Proof. intros H. unfold updateBadge. touch. Qed.

Lemma updateBadge_safe id active :
  "#" +:+ id ∈ K → ("#" +:+ id) +:+ " " +:+ ".badge-status" ∈ K →
  safe K (updateBadge id active).
Proof. intros H1 H2. unfold updateBadge. safely. Qed.

End Procedures.

#[export] Hint Resolve updateElement_touches updateElement_safe
  updateTestIndicator_touches updateTestIndicator_safe
  updateOperation_touches updateOperation_safe
  updateBadge_touches updateBadge_safe : footprint.

(** *** Running document code on a page whose elements are known *)

Lemma select_bind_Some {B} key (f : node → Dom B) (d : DOM) e :
  d !! key = Some e → (select key ≫= f) d = f (Some key) d.
Proof. intros E. rewrite bind_eq. unfold select. rewrite E. reflexivity. Qed.

Lemma update_bind_Some {B} k g (f : unit → Dom B) (d : DOM) e :
  d !! k = Some e → (update (Some k) g ≫= f) d = f tt (<[k := g e]> d).
Proof. intros E. rewrite bind_eq. unfold update. rewrite E. reflexivity. Qed.

Lemma update_Some k g (d : DOM) e :
  d !! k = Some e → update (Some k) g d = (Ok tt, <[k := g e]> d).
Proof. intros E. unfold update. rewrite E. reflexivity. Qed.

Ltac known_lookup :=
  repeat first [ rewrite lookup_insert_eq | rewrite lookup_insert_ne by done ];
  first [ eassumption | reflexivity ].

Ltac run_document :=
  open_document;
  repeat first
    [ erewrite select_bind_Some by known_lookup
    | erewrite update_bind_Some by known_lookup
    | erewrite update_Some by known_lookup ].

Ltac read_back :=
  unfold exec, classes, text; simpl;
  repeat first [ rewrite lookup_insert_eq | rewrite lookup_insert_ne by done ];
  try reflexivity.

Lemma has_safety_keys (d : DOM) :
  (∀ k, k ∈ safety_keys → is_Some (d !! k)) →
  ∃ l t b m,
    d !! ".status-light" = Some l ∧ d !! ".status-text" = Some t ∧
    d !! "#safety-banner" = Some b ∧ d !! "#safety-message" = Some m.
Proof.
  intros H.
  destruct (H ".status-light" ltac:(in_keys)) as [l Hl].
  destruct (H ".status-text" ltac:(in_keys)) as [t Ht].
  destruct (H "#safety-banner" ltac:(in_keys)) as [b Hb].
  destruct (H "#safety-message" ltac:(in_keys)) as [m Hm].
  eauto 10.
Qed.

(** [updateSafetyStatus] on the levels [overload] and [cutoff]. *)
Lemma updateSafetyStatus_danger level (d : DOM) :
  (∀ k, k ∈ safety_keys → is_Some (d !! k)) →
  level = "overload" ∨ level = "cutoff" →
  let d' := exec (updateSafetyStatus level) d in
  completes (updateSafetyStatus level) d ∧
  classes "#safety-banner" d' = ["safety-banner"; "danger"] ∧
  text "#safety-message" d' = "🚨 OVERLOAD - Operations stopped" ∧
  classes ".status-light" d' = ["status-light"; "danger"] ∧
  text ".status-text" d' = (if String.eqb level "cutoff" then "CUTOFF" else "Overload").
Proof.
  intros (l & t & b & m & Hl & Ht & Hb & Hm)%has_safety_keys Hlevel.
  unfold completes, exec.
  destruct Hlevel as [-> | ->]; unfold updateSafetyStatus; simpl;
    run_document; (split; [by exists tt|]); repeat split; read_back.
Qed.

(** [updateSafetyStatus] on a level it has no case for: the two class lists
    are reset, the two texts stay. *)
Lemma updateSafetyStatus_unknown level (d : DOM) :
  (∀ k, k ∈ safety_keys → is_Some (d !! k)) →
  level ∉ known_levels →
  let d' := exec (updateSafetyStatus level) d in
  completes (updateSafetyStatus level) d ∧
  classes "#safety-banner" d' = ["safety-banner"] ∧
  classes ".status-light" d' = ["status-light"] ∧
  text "#safety-message" d' = text "#safety-message" d ∧
  text ".status-text" d' = text ".status-text" d ∧
  text "#safety-banner" d' = text "#safety-banner" d.
Proof.
  intros (l & t & b & m & Hl & Ht & Hb & Hm)%has_safety_keys Hlevel.
  assert (String.eqb level "safe" = false) as E1.
  { apply String.eqb_neq. intros ->. apply Hlevel. in_keys. }
  assert (String.eqb level "warning" = false) as E2.
  { apply String.eqb_neq. intros ->. apply Hlevel. in_keys. }
  assert (String.eqb level "overload" = false) as E3.
  { apply String.eqb_neq. intros ->. apply Hlevel. in_keys. }
  assert (String.eqb level "cutoff" = false) as E4.
  { apply String.eqb_neq. intros ->. apply Hlevel. in_keys. }
  unfold completes, exec, updateSafetyStatus. rewrite E1, E2, E3, E4. simpl.
  run_document. split; [by exists tt|].
  unfold exec, classes, text; simpl.
  rewrite ?lookup_insert_eq, ?lookup_insert_ne, ?Hl, ?Ht, ?Hb, ?Hm by done.
  repeat split; rewrite ?lookup_insert_eq, ?lookup_insert_ne, ?Hl, ?Ht, ?Hb, ?Hm by done; reflexivity.
Qed.

(** *** The parts of [updateUI] *)

Lemma seq4_assoc {S B} (a b c e : Eff S unit) (k : Eff S B) s :
  ((a;; b;; c;; e);; k) s = (a;; b;; c;; e;; k) s.
Proof.
  rewrite (bind_eq (a;; b;; c;; e)), !(bind_eq a).
  destruct (a s) as [[[]|] s1]; [|reflexivity].
  rewrite !(bind_eq b). destruct (b s1) as [[[]|] s2]; [|reflexivity].
  rewrite !(bind_eq c). destruct (c s2) as [[[]|] s3]; [|reflexivity].
  rewrite (bind_eq e). reflexivity.
Qed.

Lemma updateUI_parts now data d :
  updateUI now data d =
  (ui_values data;;
   updateLoadPercent data;;
   updateSafetyStatus (safety_level_or_safe data);;
   updateTestMode (default empty_test_mode (test_mode data));;
   ui_tail now data) d.
Proof. unfold ui_values. rewrite seq4_assoc. reflexivity. Qed.

Lemma ui_values_touches data : touches values_keys (ui_values data).
Proof. unfold ui_values. touch. Qed.

Lemma ui_values_safe data : safe page_keys (ui_values data).
Proof. unfold ui_values. safely. Qed.

Lemma updateLoadPercent_touches data : touches ["#load-percent"] (updateLoadPercent data).
Proof. unfold updateLoadPercent. touch. Qed.

Lemma updateLoadPercent_safe data : safe page_keys (updateLoadPercent data).
Proof. unfold updateLoadPercent. safely. Qed.

Lemma updateSafetyStatus_touches level : touches safety_keys (updateSafetyStatus level).
Proof. unfold updateSafetyStatus. touch. Qed.

Lemma updateSafetyStatus_safe level : safe page_keys (updateSafetyStatus level).
Proof. unfold updateSafetyStatus. safely. Qed.

Lemma updateTestMode_touches testData : touches test_mode_keys (updateTestMode testData).
Proof. unfold updateTestMode. touch. Qed.

Lemma updateTestMode_safe testData : safe page_keys (updateTestMode testData).
Proof. unfold updateTestMode. safely. Qed.

Lemma updateUtilStatus_touches K active :
  "#util-status .status-dot" ∈ K → "#util-status span:last-child" ∈ K →
  touches K (updateUtilStatus active).
Proof. intros H1 H2. unfold updateUtilStatus. touch. Qed.

Lemma updateUtilStatus_safe active : safe page_keys (updateUtilStatus active).
Proof. unfold updateUtilStatus. safely. Qed.

#[export] Hint Resolve updateUtilStatus_touches updateUtilStatus_safe : footprint.

Lemma ui_tail_touches now data : touches tail_keys (ui_tail now data).
Proof. unfold ui_tail. touch. Qed.

Lemma ui_tail_safe now data : safe page_keys (ui_tail now data).
Proof. unfold ui_tail. safely. Qed.

Lemma page_ok_exec {A} K (m : Dom A) d : touches K m → page_ok d → page_ok (exec m d).
Proof. intros Hm Hd k Hk. apply (Hm d). auto. Qed.

(** On a page that has its elements [updateUI] runs to its end, one part
    after the other. *)
Lemma updateUI_on_page now data d :
  page_ok d →
  let d1 := exec (ui_values data) d in
  let d2 := exec (updateLoadPercent data) d1 in
  let d3 := exec (updateSafetyStatus (safety_level_or_safe data)) d2 in
  let d4 := exec (updateTestMode (default empty_test_mode (test_mode data))) d3 in
  page_ok d1 ∧ page_ok d2 ∧ page_ok d3 ∧ page_ok d4 ∧
  exec (updateUI now data) d = exec (ui_tail now data) d4 ∧
  completes (updateUI now data) d.
Proof.
  intros Hd d1 d2 d3 d4.
  assert (page_ok d1) as H1 by exact (page_ok_exec _ _ _ (ui_values_touches data) Hd).
  assert (page_ok d2) as H2 by exact (page_ok_exec _ _ _ (updateLoadPercent_touches data) H1).
  assert (page_ok d3) as H3 by exact (page_ok_exec _ _ _ (updateSafetyStatus_touches _) H2).
  assert (page_ok d4) as H4 by exact (page_ok_exec _ _ _ (updateTestMode_touches _) H3).
  pose proof (ui_values_safe data d Hd) as C1.
  pose proof (updateLoadPercent_safe data d1 H1) as C2.
  pose proof (updateSafetyStatus_safe (safety_level_or_safe data) d2 H2) as C3.
  pose proof (updateTestMode_safe (default empty_test_mode (test_mode data)) d3 H3) as C4.
  pose proof (ui_tail_safe now data d4 H4) as C5.
  repeat split; try assumption.
  - unfold exec at 1. rewrite updateUI_parts.
    change ((?m d).2) with (exec m d).
    rewrite !exec_seq; [reflexivity | assumption ..].
  - unfold completes. rewrite updateUI_parts.
    repeat (apply completes_seq; [assumption|]). assumption.
Qed.

(** What [updateUI] leaves in an element is what the one part that writes
    it left there. *)
Lemma updateUI_safety_element now data d k :
  page_ok d → k ∈ safety_keys →
  exec (updateUI now data) d !! k =
  exec (updateSafetyStatus (safety_level_or_safe data))
       (exec (updateLoadPercent data) (exec (ui_values data) d)) !! k.
Proof.
  intros Hd Hk. destruct (updateUI_on_page now data d Hd) as (_ & _ & _ & _ & -> & _).
  rewrite (proj2 (ui_tail_touches now data _)).
  - rewrite (proj2 (updateTestMode_touches _ _)); [reflexivity|].
    revert Hk. unfold safety_keys, test_mode_keys. rewrite !elem_of_cons, !elem_of_nil.
    intros [->|[->|[->|[->|[]]]]]; intros H; repeat (destruct H as [H|H]; [discriminate H|]); exact H.
  - revert Hk. unfold safety_keys, tail_keys. rewrite !elem_of_cons, !elem_of_nil.
    intros [->|[->|[->|[->|[]]]]]; intros H; repeat (destruct H as [H|H]; [discriminate H|]); exact H.
Qed.

(** ** The safety banner (src/app.js, [updateSafetyStatus]) *)

Lemma page_has_safety_keys d k : page_ok d → k ∈ safety_keys → is_Some (d !! k).
Proof.
  intros Hd Hk. apply Hd. revert Hk. unfold safety_keys.
  rewrite !elem_of_cons, elem_of_nil. intros [->|[->|[->|[->|[]]]]]; in_keys.
Qed.

(** The safety elements after [updateUI] are as [updateSafetyStatus] leaves
    them, and the statements before it do not write them. *)
Lemma updateUI_safety_text now data d k :
  page_ok d → k ∈ safety_keys →
  let d2 := exec (updateLoadPercent data) (exec (ui_values data) d) in
  page_ok d2 ∧
  classes k (exec (updateUI now data) d) =
    classes k (exec (updateSafetyStatus (safety_level_or_safe data)) d2) ∧
  text k (exec (updateUI now data) d) =
    text k (exec (updateSafetyStatus (safety_level_or_safe data)) d2) ∧
  text k d2 = text k d.
Proof.
  intros Hd Hk d2.
  destruct (updateUI_on_page now data d Hd) as (H1 & H2 & _).
  split; [exact H2|]. unfold classes, text.
  rewrite (updateUI_safety_element now data d k Hd Hk).
  split; [reflexivity|]. split; [reflexivity|].
  unfold d2.
  rewrite (proj2 (updateLoadPercent_touches data _)), (proj2 (ui_values_touches data _));
    [reflexivity | |].
  - revert Hk. unfold safety_keys, values_keys. rewrite !elem_of_cons, !elem_of_nil.
    intros [->|[->|[->|[->|[]]]]]; intros H; repeat (destruct H as [H|H]; [discriminate H|]); exact H.
  - revert Hk. unfold safety_keys. rewrite !elem_of_cons, !elem_of_nil.
    intros [->|[->|[->|[->|[]]]]]; intros H; repeat (destruct H as [H|H]; [discriminate H|]); exact H.
Qed.

Lemma blank_page_ok : page_ok blank_page.
Proof.
  intros k Hk. apply (bool_decide_unpack _). revert k Hk.
  apply Forall_forall. apply (bool_decide_unpack _). vm_compute. exact I.
Qed.

(** C1, as the script has it.  For every snapshot whose safety level is
    overload or cutoff, and every page that has the elements the script
    looks up, the state [updateUI] renders has the safety banner visible with
    severity danger; the banner message is the one text
    "OVERLOAD - Operations stopped" for both levels, and the two levels are
    told apart by the status text only, "CUTOFF" against "Overload". *)
Theorem overload_cutoff_banner now data d :
  page_ok d →
  safety_level data = Some "overload" ∨ safety_level data = Some "cutoff" →
  let d' := exec (updateUI now data) d in
  banner_visible d' = true ∧
  banner_severity d' = danger ∧
  banner_message d' = "🚨 OVERLOAD - Operations stopped" ∧
  status_text d' =
    (if bool_decide (safety_level data = Some "cutoff") then "CUTOFF" else "Overload").
Proof.
  intros Hd Hlevel d'. unfold banner_visible, banner_severity, banner_message, status_text, d'.
  destruct (updateUI_safety_text now data d "#safety-banner" Hd ltac:(in_keys))
    as (H2 & -> & _ & _).
  destruct (updateUI_safety_text now data d "#safety-message" Hd ltac:(in_keys))
    as (_ & _ & -> & _).
  destruct (updateUI_safety_text now data d ".status-text" Hd ltac:(in_keys))
    as (_ & _ & -> & _).
  assert (safety_level_or_safe data = "overload" ∨ safety_level_or_safe data = "cutoff") as L.
  { unfold safety_level_or_safe. destruct Hlevel as [-> | ->]; auto. }
  destruct (updateSafetyStatus_danger _ _ (λ k, page_has_safety_keys _ k H2) L)
    as (_ & -> & -> & _ & ->).
  repeat split.
  unfold safety_level_or_safe. destruct Hlevel as [-> | ->]; reflexivity.
Qed.

(** Witness of [overload_cutoff_banner]: a cutoff message on the blank page. *)
Lemma overload_cutoff_banner_witness :
  let data := level_snapshot "cutoff" in
  let d' := exec (updateUI "12:00:00" data) blank_page in
  page_ok blank_page ∧
  (safety_level data = Some "overload" ∨ safety_level data = Some "cutoff") ∧
  banner_visible d' = true ∧ banner_severity d' = danger ∧
  banner_message d' = "🚨 OVERLOAD - Operations stopped" ∧
  status_text d' = "CUTOFF".
Proof.
  intros data d'.
  assert (safety_level data = Some "overload" ∨ safety_level data = Some "cutoff") as Hl
    by (right; reflexivity).
  split; [exact blank_page_ok|]. split; [exact Hl|].
  exact (overload_cutoff_banner "12:00:00" data blank_page blank_page_ok Hl).
Defined.

(** C1, as the specification words it, fails: on the same page the banner
    message rendered for cutoff is the message rendered for overload. *)
Lemma cutoff_message_is_overload_message :
  banner_message (exec (updateUI "12:00:00" (level_snapshot "cutoff")) blank_page) =
  banner_message (exec (updateUI "12:00:00" (level_snapshot "overload")) blank_page).
Proof. vm_compute. reflexivity. Qed.

Lemma updateUI_page_ok now data d : page_ok d → page_ok (exec (updateUI now data) d).
Proof.
  intros Hd. destruct (updateUI_on_page now data d Hd) as (_ & _ & _ & H4 & -> & _).
  exact (page_ok_exec _ _ _ (ui_tail_touches _ _) H4).
Qed.

Lemma absent_level_is_safe now data d :
  safety_level data = None →
  updateUI now data d = updateUI now (set_safety_level (Some "safe") data) d.
Proof.
  intros E. unfold updateUI, updateLoadPercent, safety_level_or_safe. simpl.
  rewrite E. reflexivity.
Qed.



(** ** The load percentage (src/app.js, [updateUI], lines 121-130) *)

(** Rounding to one decimal moves each threshold down by a twentieth. *)
Lemma displayed_ge (p : Q) (t : Z) :
  (0 < t)%Z →
  Js.ge (Js.Fixed_num (Js.toFixed 1 p)) (inject_Z t) = true ↔
  (inject_Z t - (1 # 20) <= p)%Q.
Proof.
  intros Ht. unfold Js.ge. rewrite Qle_bool_iff.
  destruct p as [a b]. unfold Js.toFixed, Js.Fixed_num, Js.pow10.
  cbn [Qnum Qden Js.fx_neg Js.fx_n Js.fx_digits].
  change (10 ^ Z.of_nat 1)%Z with 10%Z. change (Z.to_pos 10) with 10%positive.
  assert (0 <= (2 * Z.abs a * 10 + Z.pos b) / (2 * Z.pos b))%Z as Hn.
  { apply Z.div_pos; lia. }
  rewrite Z2N.id by exact Hn.
  pose proof (Z.mul_div_le (2 * Z.abs a * 10 + Z.pos b) (2 * Z.pos b) ltac:(lia)) as Hlo.
  pose proof (Z.mul_succ_div_gt (2 * Z.abs a * 10 + Z.pos b) (2 * Z.pos b) ltac:(lia)) as Hhi.
  revert Hn Hlo Hhi.
  generalize ((2 * Z.abs a * 10 + Z.pos b) / (2 * Z.pos b))%Z. intros n Hn Hlo Hhi.
  unfold Qle, Qminus, Qplus, Qopp, inject_Z. cbn [Qnum Qden].
  rewrite ?Pos.mul_1_l, ?Pos.mul_1_r, ?Z.mul_1_r.
  destruct (a <? 0)%Z eqn:Ea.
  - apply Z.ltb_lt in Ea. split; intros H; nia.
  - apply Z.ltb_ge in Ea. rewrite Z.abs_eq in Hlo, Hhi by exact Ea. split; intros H; nia.
Qed.

Lemma updateLoadPercent_renders data (d : DOM) l w e :
  d !! "#load-percent" = Some e →
  load data = Some l → swl data = Some w → ¬ (l == 0)%Q → (0 < w)%Q →
  let r := displayed_percent l w in
  classes "#load-percent" (exec (updateLoadPercent data) d) =
    (if Js.ge r 95 then ["danger"] else if Js.ge r 80 then ["warning"] else []).
Proof.
  intros He El Ew Hl Hw r. unfold exec, updateLoadPercent. rewrite El, Ew.
  assert (Js.num_truthy l = true) as ->.
  { unfold Js.num_truthy. destruct (Qeq_bool l 0) eqn:E; [|reflexivity].
    apply Qeq_bool_iff in E. contradiction. }
  assert (Js.num_truthy w = true) as ->.
  { unfold Js.num_truthy. destruct (Qeq_bool w 0) eqn:E; [|reflexivity].
    apply Qeq_bool_iff in E. rewrite E in Hw. discriminate Hw. }
  assert (Js.gt w 0 = true) as ->.
  { unfold Js.gt. destruct (Qle_bool w 0) eqn:E; [|reflexivity].
    apply Qle_bool_iff in E. exfalso. exact (Qlt_not_le _ _ Hw E). }
  cbn [andb]. fold (displayed_percent l w). fold r.
  destruct (Js.ge r 95); [|destruct (Js.ge r 80)];
    run_document; read_back.
Qed.

Lemma updateLoadPercent_skips data (d : DOM) :
  swl data = None ∨ (∃ w, swl data = Some w ∧ (w <= 0)%Q) →
  updateLoadPercent data d = (Ok tt, d).
Proof.
  unfold updateLoadPercent. intros [-> | (w & -> & Hw)].
  - destruct (load data); reflexivity.
  - destruct (load data) as [l|]; [|reflexivity].
    assert (Js.gt w 0 = false) as ->.
    { unfold Js.gt. apply Qle_bool_iff in Hw. rewrite Hw. reflexivity. }
    rewrite andb_false_r. reflexivity.
Qed.

Lemma updateUI_percent_element now data d :
  page_ok d →
  exec (updateUI now data) d !! "#load-percent" =
  exec (updateLoadPercent data) (exec (ui_values data) d) !! "#load-percent".
Proof.
  intros Hd. destruct (updateUI_on_page now data d Hd) as (_ & _ & _ & _ & -> & _).
  rewrite (proj2 (ui_tail_touches now data _)), (proj2 (updateTestMode_touches _ _)),
    (proj2 (updateSafetyStatus_touches _ _)); [reflexivity | | |];
    intros H; apply (bool_decide_pack _) in H; vm_compute in H; exact H.
Qed.

Lemma severity_by_thresholds (r : Q) :
  let s := severity_of
             (if Js.ge r 95 then ["danger"] else if Js.ge r 80 then ["warning"] else []) in
  (s = normal ↔ (r < 80)%Q) ∧
  (s = warning ↔ (80 <= r)%Q ∧ (r < 95)%Q) ∧
  (s = danger ↔ (95 <= r)%Q).
Proof.
  unfold Js.ge.
  destruct (Qle_bool 95 r) eqn:E95; [|destruct (Qle_bool 80 r) eqn:E80].
  - apply Qle_bool_iff in E95.
    change (severity_of ["danger"]) with danger.
    repeat split; intros; try discriminate; try lra.
  - apply Qle_bool_iff in E80.
    assert (¬ (95 <= r)%Q) as N95 by (rewrite <- Qle_bool_iff, E95; discriminate).
    change (severity_of ["warning"]) with warning.
    repeat split; intros; try discriminate; try lra.
  - assert (¬ (95 <= r)%Q) as N95 by (rewrite <- Qle_bool_iff, E95; discriminate).
    assert (¬ (80 <= r)%Q) as N80 by (rewrite <- Qle_bool_iff, E80; discriminate).
    change (severity_of []) with normal.
    repeat split; intros; try discriminate; try lra.
Qed.




(** ** The limit-switch indicators (src/app.js, [updateTestIndicator]) *)

Lemma updateTestIndicator_runs id tested hit (d : DOM) e i :
  d !! ("#" +:+ id) = Some e →
  d !! ("#" +:+ id +:+ " .test-indicator") = Some i →
  updateTestIndicator id tested hit d =
  (Ok tt,
   <["#" +:+ id +:+ " .test-indicator" :=
       {| className :=
            ["test-indicator";
             colour_token (spec_colour (Js.truthy tested) (Js.truthy hit))];
          textContent := textContent i |}]> d).
Proof.
  intros He Hi. unfold updateTestIndicator.
  destruct (Js.truthy tested), (Js.truthy hit); simpl; simpl in Hi;
    run_document; rewrite insert_insert_eq; reflexivity.
Qed.

(** The colour after one run of [updateTestIndicator], and a second run. *)
Lemma indicator_colour_after id tested hit (d : DOM) :
  is_Some (d !! ("#" +:+ id)) →
  is_Some (d !! ("#" +:+ id +:+ " .test-indicator")) →
  let d' := exec (updateTestIndicator id tested hit) d in
  indicator_colour id d' = Some (spec_colour (Js.truthy tested) (Js.truthy hit)) ∧
  exec (updateTestIndicator id tested hit) d' = d'.
Proof.
  intros [e He] [i Hi] d'. split.
  - unfold d', exec, indicator_colour, classes.
    rewrite (updateTestIndicator_runs id tested hit d e i He Hi). cbn [snd].
    rewrite lookup_insert_eq. cbn [from_option className].
    destruct (Js.truthy tested), (Js.truthy hit); reflexivity.
  - unfold d', exec. rewrite (updateTestIndicator_runs id tested hit d e i He Hi). cbn [snd].
    set (i' := {| className := _; textContent := textContent i |}).
    rewrite (updateTestIndicator_runs id tested hit _ e i').
    + cbn [snd]. rewrite insert_insert_eq. reflexivity.
    + rewrite lookup_insert_ne; [exact He|].
      simpl. intros [= H]. clear -H. induction id as [|c id IH]; [discriminate H|].
      injection H as H. auto.
    + apply lookup_insert_eq.
Qed.

(** C5.  For every pair of flags (tested, hit) of a limit switch whose
    indicator is on the page, the indicator [updateTestIndicator] renders is
    red when hit and not tested, yellow when hit and tested, green when
    tested and not hit, grey when neither: the table of section 4.3, all four
    entries.  The colour does not depend on what the page showed before, and
    rendering the same pair again changes nothing. *)
Theorem test_indicator_colour id tested hit (d : DOM) :
  is_Some (d !! ("#" +:+ id)) →
  is_Some (d !! ("#" +:+ id +:+ " .test-indicator")) →
  let d' := exec (updateTestIndicator id tested hit) d in
  indicator_colour id d' = Some (spec_colour (Js.truthy tested) (Js.truthy hit)) ∧
  (indicator_colour id d' = Some red ↔ Js.truthy hit = true ∧ Js.truthy tested = false) ∧
  (indicator_colour id d' = Some yellow ↔ Js.truthy hit = true ∧ Js.truthy tested = true) ∧
  (indicator_colour id d' = Some green ↔ Js.truthy hit = false ∧ Js.truthy tested = true) ∧
  (indicator_colour id d' = Some grey ↔ Js.truthy hit = false ∧ Js.truthy tested = false) ∧
  exec (updateTestIndicator id tested hit) d' = d'.
Proof.
  intros He Hi d'.
  destruct (indicator_colour_after id tested hit d He Hi) as [Hc Hidem].
  fold d' in Hc, Hidem.
  split; [exact Hc|]. rewrite Hc.
  do 4 (split; [destruct (Js.truthy tested), (Js.truthy hit); simpl;
                (split; [intros H | intros [H1 H2]]); auto; discriminate|]).
  exact Hidem.
Qed.

(** Witness of [test_indicator_colour]: switch 1, tested and hit, on the
    blank page. *)
Lemma test_indicator_colour_witness :
  let d' := exec (updateTestIndicator "test-ls1" (Some true) (Some true)) blank_page in
  is_Some (blank_page !! "#test-ls1") ∧
  is_Some (blank_page !! "#test-ls1 .test-indicator") ∧
  indicator_colour "test-ls1" d' = Some yellow ∧
  exec (updateTestIndicator "test-ls1" (Some true) (Some true)) d' = d'.
Proof.
  intros d'.
  assert (is_Some (blank_page !! "#test-ls1")) as H1 by (vm_compute; eauto).
  assert (is_Some (blank_page !! "#test-ls1 .test-indicator")) as H2 by (vm_compute; eauto).
  destruct (test_indicator_colour "test-ls1" (Some true) (Some true) blank_page H1 H2)
    as (Hc & _ & _ & _ & _ & Hi).
  split; [exact H1|]. split; [exact H2|]. split; [exact Hc | exact Hi].
Defined.

(** *** The four indicators of a snapshot *)

(** One statement further in a sequence, on a page that has its elements. *)
Lemma exec_seq_page (m k : Dom unit) d :
  safe page_keys m → touches page_keys m → page_ok d →
  exec (m;; k) d = exec k (exec m d) ∧ page_ok (exec m d).
Proof.
  intros Hs Ht Hd. split.
  - apply exec_seq, Hs, Hd.
  - exact (page_ok_exec _ _ _ Ht Hd).
Qed.

Ltac advance Hd :=
  match goal with
  | |- context [exec (?m;; ?k) ?d] =>
      let E := fresh "E" in
      let Hd' := fresh "Hd" in
      destruct (exec_seq_page m k d) as [E Hd'];
      [ safely | touch | exact Hd | rewrite E; clear E ]
  end.

Lemma updateTestIndicator_colour_on_page id tested hit d :
  page_ok d →
  "#" +:+ id ∈ page_keys → "#" +:+ id +:+ " .test-indicator" ∈ page_keys →
  indicator_colour id (exec (updateTestIndicator id tested hit) d) =
  Some (spec_colour (Js.truthy tested) (Js.truthy hit)).
Proof.
  intros Hd H1 H2.
  exact (proj1 (indicator_colour_after id tested hit d (Hd _ H1) (Hd _ H2))).
Qed.

Lemma indicator_colour_ext id (d d' : DOM) :
  d !! ("#" +:+ id +:+ " .test-indicator") = d' !! ("#" +:+ id +:+ " .test-indicator") →
  indicator_colour id d = indicator_colour id d'.
Proof. intros E. unfold indicator_colour, classes. rewrite E. reflexivity. Qed.

Ltac not_in_keys := intros H; apply (bool_decide_pack _) in H; vm_compute in H; exact H.

(** [updateTestMode] renders each switch by the table. *)
Lemma updateTestMode_indicators testData d :
  page_ok d →
  let d' := exec (updateTestMode testData) d in
  indicator_colour "test-ls1" d' =
    Some (spec_colour (Js.truthy (ls1_tested testData)) (Js.truthy (ls1_hit testData))) ∧
  indicator_colour "test-ls2" d' =
    Some (spec_colour (Js.truthy (ls2_tested testData)) (Js.truthy (ls2_hit testData))) ∧
  indicator_colour "test-ls3" d' =
    Some (spec_colour (Js.truthy (ls3_tested testData)) (Js.truthy (ls3_hit testData))) ∧
  indicator_colour "test-ls4" d' =
    Some (spec_colour (Js.truthy (ls4_tested testData)) (Js.truthy (ls4_hit testData))).
Proof.
  intros Hd d'. unfold d', updateTestMode, exec.
  destruct (Hd "#test-status-badge" ltac:(in_keys)) as [e1 H1].
  destruct (Hd "#test-status-text" ltac:(in_keys)) as [e2 H2].
  destruct (Hd "#test-timer" ltac:(in_keys)) as [e3 H3].
  destruct (Hd "#test-warning" ltac:(in_keys)) as [e4 H4].
  unfold getElementById.
  rewrite (select_bind_Some _ _ _ _ H1), (select_bind_Some _ _ _ _ H2),
    (select_bind_Some _ _ _ _ H3), (select_bind_Some _ _ _ _ H4).
  clear e1 e2 e3 e4 H1 H2 H3 H4.
  repeat match goal with |- context [(?m d).2] => change ((m d).2) with (exec m d) end.
  advance Hd. advance Hd0. advance Hd1.
  set (d3 := exec _ (exec _ (exec _ d))) in *.
  set (I1 := updateTestIndicator "test-ls1" _ _).
  set (I2 := updateTestIndicator "test-ls2" _ _).
  set (I3 := updateTestIndicator "test-ls3" _ _).
  set (I4 := updateTestIndicator "test-ls4" _ _).
  set (W := if Js.truthy (warning_active testData) then _ else _).
  assert (safe page_keys I1 ∧ safe page_keys I2 ∧ safe page_keys I3 ∧ safe page_keys I4)
    as (S1 & S2 & S3 & S4) by (repeat split; apply updateTestIndicator_safe).
  assert (∀ K, "#test-ls1 .test-indicator" ∈ K → touches K I1) as T1
    by (intros K HK; apply updateTestIndicator_touches; exact HK).
  assert (∀ K, "#test-ls2 .test-indicator" ∈ K → touches K I2) as T2
    by (intros K HK; apply updateTestIndicator_touches; exact HK).
  assert (∀ K, "#test-ls3 .test-indicator" ∈ K → touches K I3) as T3
    by (intros K HK; apply updateTestIndicator_touches; exact HK).
  assert (∀ K, "#test-ls4 .test-indicator" ∈ K → touches K I4) as T4
    by (intros K HK; apply updateTestIndicator_touches; exact HK).
  assert (touches ["#test-warning"] W) as TW by (unfold W; touch).
  destruct (exec_seq_page I1 (I2;; I3;; I4;; W) d3 S1 (T1 page_keys ltac:(in_keys)) Hd2) as [-> P1].
  destruct (exec_seq_page I2 (I3;; I4;; W) _ S2 (T2 page_keys ltac:(in_keys)) P1) as [-> P2].
  destruct (exec_seq_page I3 (I4;; W) _ S3 (T3 page_keys ltac:(in_keys)) P2) as [-> P3].
  destruct (exec_seq_page I4 W _ S4 (T4 page_keys ltac:(in_keys)) P3) as [-> P4].
  set (d4 := exec I1 d3) in *. set (d5 := exec I2 d4) in *.
  set (d6 := exec I3 d5) in *. set (d7 := exec I4 d6) in *.
  assert (∀ k, k ≠ "#test-warning" → exec W d7 !! k = d7 !! k) as FW.
  { intros k Hk. apply (proj2 (TW d7)). rewrite list_elem_of_singleton. exact Hk. }
  assert (∀ k, k ≠ "#test-ls4 .test-indicator" → d7 !! k = d6 !! k) as F4.
  { intros k Hk. apply (proj2 (T4 ["#test-ls4 .test-indicator"] ltac:(in_keys) d6)).
    rewrite list_elem_of_singleton. exact Hk. }
  assert (∀ k, k ≠ "#test-ls3 .test-indicator" → d6 !! k = d5 !! k) as F3.
  { intros k Hk. apply (proj2 (T3 ["#test-ls3 .test-indicator"] ltac:(in_keys) d5)).
    rewrite list_elem_of_singleton. exact Hk. }
  assert (∀ k, k ≠ "#test-ls2 .test-indicator" → d5 !! k = d4 !! k) as F2.
  { intros k Hk. apply (proj2 (T2 ["#test-ls2 .test-indicator"] ltac:(in_keys) d4)).
    rewrite list_elem_of_singleton. exact Hk. }
  split; [|split; [|split]].
  - rewrite (indicator_colour_ext "test-ls1" _ d4).
    + apply updateTestIndicator_colour_on_page; [exact Hd2 | in_keys | in_keys].
    + rewrite FW, F4, F3, F2 by discriminate. reflexivity.
  - rewrite (indicator_colour_ext "test-ls2" _ d5).
    + apply updateTestIndicator_colour_on_page; [exact P1 | in_keys | in_keys].
    + rewrite FW, F4, F3 by discriminate. reflexivity.
  - rewrite (indicator_colour_ext "test-ls3" _ d6).
    + apply updateTestIndicator_colour_on_page; [exact P2 | in_keys | in_keys].
    + rewrite FW, F4 by discriminate. reflexivity.
  - rewrite (indicator_colour_ext "test-ls4" _ d7).
    + apply updateTestIndicator_colour_on_page; [exact P3 | in_keys | in_keys].
    + rewrite FW by discriminate. reflexivity.
Qed.

(** The same for a whole snapshot: after [updateUI] the indicator of switch
    [i] shows the table entry of the snapshot's [lsi_tested] and [lsi_hit]
    (absent flags, and an absent [test_mode], count as false). *)
Lemma snapshot_indicator_colours now data d :
  page_ok d →
  let testData := default empty_test_mode (test_mode data) in
  let d' := exec (updateUI now data) d in
  indicator_colour "test-ls1" d' =
    Some (spec_colour (Js.truthy (ls1_tested testData)) (Js.truthy (ls1_hit testData))) ∧
  indicator_colour "test-ls2" d' =
    Some (spec_colour (Js.truthy (ls2_tested testData)) (Js.truthy (ls2_hit testData))) ∧
  indicator_colour "test-ls3" d' =
    Some (spec_colour (Js.truthy (ls3_tested testData)) (Js.truthy (ls3_hit testData))) ∧
  indicator_colour "test-ls4" d' =
    Some (spec_colour (Js.truthy (ls4_tested testData)) (Js.truthy (ls4_hit testData))).
Proof.
  intros Hd testData d'.
  destruct (updateUI_on_page now data d Hd) as (_ & _ & H3 & _ & E & _).
  destruct (updateTestMode_indicators testData _ H3) as (C1 & C2 & C3 & C4).
  unfold d'. rewrite E. fold testData.
  rewrite <- C1, <- C2, <- C3, <- C4.
  repeat split; apply indicator_colour_ext, (proj2 (ui_tail_touches now data _)); not_in_keys.
Qed.

(** The end-to-end example of the specification: load 96 of swl 100, level
    warning, switch 1 tested and hit, hoist on. *)
Example end_to_end_example :
  let data :=
    {| load := Some 96; swl := Some 100; trolley := None; wind := None;
       safety_level := Some "warning";
       test_mode := Some {| in_progress := None; all_complete := None;
                            remaining_seconds := None;
                            ls1_tested := Some true; ls1_hit := Some true;
                            ls2_tested := None; ls2_hit := None;
                            ls3_tested := None; ls3_hit := None;
                            ls4_tested := None; ls4_hit := None;
                            warning_active := None |};
       hoist_active := Some true; trolley_active := None; slew_active := None;
       utilization_minutes := None; utilization_active := None;
       counters := None; status_word := None;
       overload_active := None; bypass_active := None |} in
  let d' := exec (updateUI "12:00:00" data) blank_page in
  percent_severity d' = danger ∧
  banner_visible d' = true ∧
  banner_message d' = "⚠️ Load approaching limit" ∧
  indicator_colour "test-ls1" d' = Some yellow ∧
  text "#hoist-op .op-status" d' = "ON".
Proof. vm_compute. repeat split. Qed.

(** ** The reconnecting client (src/app.js, lines 28-92) *)

Section Preservation.
Context {S : Type} (P : S → Prop).

Lemma preserves_ret {A} (a : A) : preserves P (mret a : Eff S A).
Proof. intros s Hs. exact Hs. Qed.

Lemma preserves_throw {A} : preserves P (throw : Eff S A).
Proof. intros s Hs. exact Hs. Qed.

Lemma preserves_read : preserves P (read : Eff S S).
Proof. intros s Hs. exact Hs. Qed.

Lemma preserves_modify (f : S → S) : (∀ s, P s → P (f s)) → preserves P (modify f).
Proof. intros Hf s Hs. apply Hf, Hs. Qed.

Lemma preserves_bind {A B} (m : Eff S A) (f : A → Eff S B) :
  preserves P m → (∀ a, preserves P (f a)) → preserves P (m ≫= f).
Proof.
  intros Hm Hf s Hs. rewrite exec_bind.
  destruct ((m s).1); [apply Hf|]; apply Hm, Hs.
Qed.

Lemma preserves_try_catch (m h : Eff S unit) :
  preserves P m → preserves P h → preserves P (try_catch m h).
Proof.
  intros Hm Hh s Hs. unfold exec, try_catch.
  specialize (Hm s Hs). unfold exec in Hm.
  destruct (m s) as [[[]|] s']; simpl in *; [exact Hm|]. apply Hh, Hm.
Qed.

End Preservation.

(** Document code changes the document and nothing else. *)
Lemma preserves_in_document {A} (P : World → Prop) (m : Dom A) :
  (∀ w d, P w → P (Upd.on_browser (Upd.with_document d) w)) →
  preserves P (in_document m).
Proof. intros H w Hw. apply H, Hw. Qed.

Lemma at_most_one_timer_document w d :
  at_most_one_timer w → at_most_one_timer (Upd.on_browser (Upd.with_document d) w).
Proof. intros H. exact H. Qed.

Lemma scheduleReconnect_preserves : preserves at_most_one_timer scheduleReconnect.
Proof.
  intros w Hw. unfold exec, scheduleReconnect. rewrite bind_eq. simpl.
  destruct (reconnectTimer (this w)) as [h|] eqn:E; [exact Hw|].
  destruct Hw as [Hw | (t & _ & Ht)]; [|congruence].
  right. simpl. rewrite Hw. eexists. split; reflexivity.
Qed.

Lemma clearTimeout_preserves h : preserves at_most_one_timer (Window.clearTimeout h).
Proof.
  intros w [Hw | (t & Hw & Ht)]; unfold exec, at_most_one_timer; simpl; rewrite Hw.
  - left. reflexivity.
  - rewrite filter_cons, filter_nil. destruct (decide (timeout_id t ≠ h)); [|by left].
    right. eauto.
Qed.

Lemma expire_preserves h : preserves at_most_one_timer (Window.expire h).
Proof. exact (clearTimeout_preserves h). Qed.

Lemma setupWebSocket_preserves ctor_ok : preserves at_most_one_timer (setupWebSocket ctor_ok).
Proof.
  unfold setupWebSocket. apply preserves_bind; [apply preserves_read|]. intros w.
  destruct (negb _).
  - apply preserves_modify. intros x Hx. exact Hx.
  - apply preserves_try_catch.
    + apply preserves_bind.
      * intros x Hx. unfold exec, Window.newWebSocket. destruct ctor_ok; exact Hx.
      * intros a. apply preserves_modify. intros x Hx. exact Hx.
    + apply preserves_bind; [|intros _; apply scheduleReconnect_preserves].
      apply preserves_in_document, at_most_one_timer_document.
Qed.

Lemma onConnect_preserves : preserves at_most_one_timer onConnect.
Proof.
  unfold onConnect.
  apply preserves_bind; [apply preserves_in_document, at_most_one_timer_document|].
  intros _ w Hw. unfold exec. rewrite bind_eq. simpl.
  destruct (reconnectTimer (this w)) as [h|] eqn:E; [|exact Hw].
  left. simpl. destruct Hw as [Hw | (t & Hw & Ht)]; rewrite Hw; [reflexivity|].
  rewrite filter_cons, filter_nil. rewrite E in Ht. injection Ht as ->.
  destruct (decide _) as [Hne|]; [contradiction | reflexivity].
Qed.

Lemma onMessage_preserves now payload : preserves at_most_one_timer (onMessage now payload).
Proof.
  unfold onMessage. apply preserves_try_catch; [|apply preserves_ret].
  destruct payload; [|apply preserves_throw].
  apply preserves_bind.
  - apply preserves_modify. intros x Hx. exact Hx.
  - intros _. apply preserves_in_document, at_most_one_timer_document.
Qed.

Lemma onDisconnect_preserves : preserves at_most_one_timer onDisconnect.
Proof.
  unfold onDisconnect. apply preserves_bind; [|intros _; apply scheduleReconnect_preserves].
  apply preserves_in_document, at_most_one_timer_document.
Qed.

Lemma step_preserves w e : at_most_one_timer w → at_most_one_timer (step w e).
Proof.
  intros Hw. destruct e; simpl; try exact Hw.
  - destruct (sockets (browser w)); [exact Hw | apply onConnect_preserves, Hw].
  - destruct (sockets (browser w)); [exact Hw | apply onMessage_preserves, Hw].
  - destruct (sockets (browser w)); exact Hw.
  - destruct (sockets (browser w)); [exact Hw | apply onDisconnect_preserves, Hw].
  - destruct (due h (browser w)); [|exact Hw].
    apply preserves_bind; [apply expire_preserves | | exact Hw].
    intros _. apply setupWebSocket_preserves.
Qed.

Lemma construct_at_most_one_timer ctor_ok b : fresh b → at_most_one_timer (construct ctor_ok b).
Proof.
  intros [Ht _]. unfold construct, init.
  apply preserves_bind.
  - apply preserves_in_document, at_most_one_timer_document.
  - intros _. apply setupWebSocket_preserves.
  - left. exact Ht.
Qed.

Lemma reachable_at_most_one_timer w : reachable w → at_most_one_timer w.
Proof.
  induction 1 as [b ctor_ok Hb | w e _ IH].
  - apply construct_at_most_one_timer, Hb.
  - apply step_preserves, IH.
Qed.

Lemma updateConnectionStatus_safe connected :
  safe [".status-dot"; "#connection-text"] (updateConnectionStatus connected).
Proof. unfold updateConnectionStatus. safely. Qed.

Lemma updateConnectionStatus_touches connected :
  touches [".status-dot"; "#connection-text"] (updateConnectionStatus connected).
Proof. unfold updateConnectionStatus. touch. Qed.

Lemma updateConnectionStatus_completes connected w :
  has_status_elements w →
  (in_document (updateConnectionStatus connected) w).1 = Ok tt ∧
  has_status_elements (exec (in_document (updateConnectionStatus connected)) w).
Proof.
  intros [H1 H2]. split.
  - destruct (updateConnectionStatus_safe connected (document (browser w))) as [[] E].
    + intros k Hk. apply elem_of_cons in Hk as [-> | Hk]; [exact H1|].
      apply list_elem_of_singleton in Hk as ->. exact H2.
    + exact E.
  - unfold has_status_elements, exec, in_document. simpl.
    destruct (updateConnectionStatus_touches connected (document (browser w))) as [Hdom _].
    unfold exec in Hdom. rewrite !Hdom. split; assumption.
Qed.

(** [onConnect] on a page with the status elements: whatever timer was
    pending is cancelled and the handle is cleared. *)
Lemma onConnect_clears w :
  has_status_elements w → at_most_one_timer w →
  let w' := exec onConnect w in
  timeouts (browser w') = [] ∧ reconnectTimer (this w') = None ∧
  has_status_elements w' ∧ sockets (browser w') = sockets (browser w).
Proof.
  intros Hs Hw. destruct (updateConnectionStatus_completes true w Hs) as [E Hs'].
  unfold onConnect. cbv zeta. rewrite exec_bind, E.
  set (w1 := exec (in_document (updateConnectionStatus true)) w) in *.
  assert (at_most_one_timer w1) as Hw1 by exact Hw.
  assert (sockets (browser w1) = sockets (browser w)) as Hso by reflexivity.
  clearbody w1. unfold exec. rewrite bind_eq. simpl.
  destruct (reconnectTimer (this w1)) as [h|] eqn:Eh; simpl.
  - destruct Hw1 as [Ht | (t & Ht & Hh)]; rewrite Ht.
    + repeat split; try apply Hs'; assumption.
    + rewrite Eh in Hh. injection Hh as ->.
      rewrite filter_cons, filter_nil. destruct (decide _) as [Hne|]; [contradiction|].
      repeat split; try apply Hs'; assumption.
  - destruct Hw1 as [Ht | (t & Ht & Hh)]; [|congruence].
    repeat split; try apply Hs'; assumption.
Qed.

(** A close or failure while the handle is set schedules nothing. *)
Lemma onDisconnect_with_handle w :
  is_Some (reconnectTimer (this w)) →
  let w' := exec onDisconnect w in
  timeouts (browser w') = timeouts (browser w) ∧
  reconnectTimer (this w') = reconnectTimer (this w) ∧
  sockets (browser w') = sockets (browser w).
Proof.
  intros [h Hh]. unfold onDisconnect. cbv zeta. rewrite exec_bind.
  destruct ((in_document (updateConnectionStatus false) w).1);
    [|split; [|split]; reflexivity].
  set (w1 := exec (in_document (updateConnectionStatus false)) w).
  change (timeouts (browser w)) with (timeouts (browser w1)).
  change (reconnectTimer (this w)) with (reconnectTimer (this w1)).
  change (sockets (browser w)) with (sockets (browser w1)).
  assert (reconnectTimer (this w1) = Some h) as Hh1 by exact Hh.
  clearbody w1. unfold exec, scheduleReconnect. rewrite bind_eq. simpl.
  destruct (reconnectTimer (this w1)) eqn:E; [|discriminate Hh1].
  simpl. rewrite E. split; [|split]; reflexivity.
Qed.

(** C4.  In every state the client can reach from a freshly loaded page, at
    most one reconnect timer is pending; a close that arrives while a timer
    is pending schedules no second one; and when a connection opens, on a
    page that has the two status elements, the pending timer is cancelled and
    the handle cleared, and a further open finds nothing to cancel and
    changes neither. *)
Theorem at_most_one_reconnect_timer w :
  reachable w →
  (length (timeouts (browser w)) ≤ 1)%nat ∧
  (timeouts (browser w) ≠ [] →
     timeouts (browser (step w SocketClose)) = timeouts (browser w)) ∧
  (has_status_elements w → sockets (browser w) ≠ [] →
     let w' := step w SocketOpen in
     timeouts (browser w') = [] ∧ reconnectTimer (this w') = None ∧
     timeouts (browser (step w' SocketOpen)) = [] ∧
     reconnectTimer (this (step w' SocketOpen)) = None).
Proof.
  intros Hr. pose proof (reachable_at_most_one_timer w Hr) as Hw.
  split; [|split].
  - destruct Hw as [-> | (t & -> & _)]; simpl; lia.
  - intros Hne. simpl. destruct (sockets (browser w)); [reflexivity|].
    apply onDisconnect_with_handle.
    destruct Hw as [Hw | (t & _ & Ht)]; [contradiction | eauto].
  - intros Hs Hso. simpl.
    destruct (sockets (browser w)) as [|u us] eqn:Eso; [contradiction|].
    destruct (onConnect_clears w Hs Hw) as (Ht & Hh & Hs' & Hso').
    split; [exact Ht|]. split; [exact Hh|].
    rewrite Hso', Eso.
    destruct (onConnect_clears (exec onConnect w) Hs' (onConnect_preserves w Hw))
      as (Ht' & Hh' & _).
    split; assumption.
Qed.

Lemma sample_browser_fresh : fresh sample_browser.
Proof. split; reflexivity. Qed.

(** Witness of [at_most_one_reconnect_timer]: the page connects, then the
    connection closes and one timer is pending. *)
Lemma at_most_one_reconnect_timer_witness :
  let w := step (step (construct true sample_browser) SocketOpen) SocketClose in
  reachable w ∧ timeouts (browser w) ≠ [] ∧
  has_status_elements w ∧ sockets (browser w) ≠ [] ∧
  (length (timeouts (browser w)) ≤ 1)%nat ∧
  timeouts (browser (step w SocketClose)) = timeouts (browser w) ∧
  (let w' := step w SocketOpen in
   timeouts (browser w') = [] ∧ reconnectTimer (this w') = None ∧
   timeouts (browser (step w' SocketOpen)) = [] ∧
   reconnectTimer (this (step w' SocketOpen)) = None).
Proof.
  intros w.
  assert (reachable w) as Hr.
  { apply reachable_step, reachable_step, reachable_construct, sample_browser_fresh. }
  assert (timeouts (browser w) ≠ []) as Ht by (vm_compute; discriminate).
  assert (has_status_elements w) as Hs by (split; vm_compute; eauto).
  assert (sockets (browser w) ≠ []) as Hso by (vm_compute; discriminate).
  destruct (at_most_one_reconnect_timer w Hr) as (H1 & H2 & H3).
  split; [exact Hr|]. split; [exact Ht|]. split; [exact Hs|]. split; [exact Hso|].
  split; [exact H1|]. split; [exact (H2 Ht) | exact (H3 Hs Hso)].
Defined.

(** *** A retry that fails ends the reconnecting (C3) *)

(** Once no timer is pending while the handle is still set, nothing but an
    open can start a timer or a connection attempt again. *)
Lemma stale_handle_step w e :
  stale_handle w → e ≠ SocketOpen →
  stale_handle (step w e) ∧ sockets (browser (step w e)) = sockets (browser w).
Proof.
  intros [Ht Hh] He.
  assert (∀ w', timeouts (browser w') = timeouts (browser w) →
                reconnectTimer (this w') = reconnectTimer (this w) →
                sockets (browser w') = sockets (browser w) →
                stale_handle w' ∧ sockets (browser w') = sockets (browser w)) as fin.
  { intros w' E1 E2 E3. unfold stale_handle. rewrite E1, E2. auto. }
  assert (∀ w1 : World,
            (if sockets (browser w) is [] then w else w1) = w ∨
            (if sockets (browser w) is [] then w else w1) = w1) as socket_case.
  { intros w1. destruct (sockets (browser w)); auto. }
  destruct e; cbn [step].
  - contradiction.
  - destruct (socket_case (exec (onMessage now payload) w)) as [-> | ->]; [by apply fin|].
    unfold onMessage, exec, try_catch. destruct payload as [p|]; [|by apply fin].
    rewrite bind_eq. cbn [modify in_document fst snd].
    destruct (updateUI now p _) as [[[]|] d']; by apply fin.
  - destruct (socket_case (exec onError w)) as [-> | ->]; by apply fin.
  - destruct (socket_case (exec onDisconnect w)) as [-> | ->]; [by apply fin|].
    destruct (onDisconnect_with_handle w Hh) as (E1 & E2 & E3). by apply fin.
  - assert (due h (browser w) = false) as ->; [|by apply fin].
    unfold due. rewrite Ht. reflexivity.
  - by apply fin.
  - by apply fin.
Qed.

Lemma stale_handle_run w es :
  stale_handle w → SocketOpen ∉ es →
  stale_handle (run w es) ∧ sockets (browser (run w es)) = sockets (browser w).
Proof.
  revert w. induction es as [|e es IH]; intros w Hw Hes; [by split|].
  apply not_elem_of_cons in Hes as [He Hes].
  destruct (stale_handle_step w e Hw (not_eq_sym He)) as [Hw' Hso].
  destruct (IH (step w e) Hw' Hes) as [Hw'' Hso'].
  split; [exact Hw''|]. simpl. rewrite Hso'. exact Hso.
Qed.

(** C3 at its failing input.  The page connects and the connection closes:
    one timer is pending, due 5000 ms later.  The timer fires and starts the
    second attempt.  That attempt fails, and the close schedules nothing:
    the fired timer's handle is still in [reconnectTimer], so
    [scheduleReconnect] returns without a timer, and however long the page
    waits, no third attempt is made. *)
Theorem failed_retry_schedules_nothing :
  let w0 := construct true sample_browser in
  let w1 := run w0 [SocketOpen; SocketClose] in
  let w2 := run w1 [TimePasses 5000; TimerFires 1 true] in
  let w3 := step w2 SocketClose in
  let w4 := run w3 [TimePasses 5000; SocketError; SocketClose; TimePasses 3600000] in
  timeouts (browser w1) = [{| timeout_id := 1; timeout_due := 5000 |}] ∧
  length (sockets (browser w1)) = 1%nat ∧
  timeouts (browser w2) = [] ∧
  length (sockets (browser w2)) = 2%nat ∧
  reachable w3 ∧
  timeouts (browser w3) = [] ∧
  reconnectTimer (this w3) = Some 1%positive ∧
  timeouts (browser w4) = [] ∧
  length (sockets (browser w4)) = 2%nat.
Proof.
  intros w0 w1 w2 w3 w4.
  assert (reachable w3) as Hr.
  { do 5 apply reachable_step. apply reachable_construct, sample_browser_fresh. }
  repeat split; try exact Hr; vm_compute; reflexivity.
Qed.

(** *** What the first failure does *)

(** A close while no handle is set, on a page with the status elements,
    schedules one timer, due [reconnectInterval] after the close. *)
Lemma onDisconnect_without_handle w :
  has_status_elements w → timeouts (browser w) = [] → reconnectTimer (this w) = None →
  let w' := exec onDisconnect w in
  timeouts (browser w') =
    [{| timeout_id := next_timeout (browser w);
        timeout_due := (clock (browser w) + reconnectInterval (this w))%Z |}] ∧
  reconnectTimer (this w') = Some (next_timeout (browser w)) ∧
  sockets (browser w') = sockets (browser w).
Proof.
  intros Hs Ht Hh. destruct (updateConnectionStatus_completes false w Hs) as [E _].
  unfold onDisconnect. cbv zeta. rewrite exec_bind, E.
  set (w1 := exec (in_document (updateConnectionStatus false)) w).
  change (next_timeout (browser w)) with (next_timeout (browser w1)).
  change (clock (browser w)) with (clock (browser w1)).
  change (reconnectInterval (this w)) with (reconnectInterval (this w1)).
  change (sockets (browser w)) with (sockets (browser w1)).
  assert (timeouts (browser w1) = []) as Ht1 by exact Ht.
  assert (reconnectTimer (this w1) = None) as Hh1 by exact Hh.
  clearbody w1. unfold exec, scheduleReconnect. rewrite bind_eq. cbn [read].
  rewrite Hh1. rewrite !bind_eq. cbn. rewrite Ht1. split; [|split]; reflexivity.
Qed.

(** When the one pending timer is due and a token is stored, its firing
    makes one connection attempt and leaves no timer pending. *)
Lemma due_timer_makes_one_attempt w t token :
  timeouts (browser w) = [t] → (timeout_due t ≤ clock (browser w))%Z →
  monitor_token (browser w) = Some token → token ≠ "" →
  let w' := step w (TimerFires (timeout_id t) true) in
  timeouts (browser w') = [] ∧
  sockets (browser w') =
    sockets (browser w) ++
    [{| url_scheme := if location_https (browser w) then "wss" else "ws";
        url_host := location_host (browser w); url_token := token |}] ∧
  reconnectTimer (this w') = reconnectTimer (this w).
Proof.
  intros Ht Hdue Htok Hne. cbn [step].
  assert (due (timeout_id t) (browser w) = true) as ->.
  { unfold due. rewrite Ht. cbn [existsb]. rewrite bool_decide_eq_true_2 by reflexivity.
    apply Z.leb_le in Hdue. rewrite Hdue. reflexivity. }
  assert (Js.str_truthy token = true) as Htruthy.
  { unfold Js.str_truthy. destruct (String.eqb_spec token ""); [contradiction | reflexivity]. }
  assert (filter (λ t0, timeout_id t0 ≠ timeout_id t) (timeouts (browser w)) = []) as Hf.
  { rewrite Ht, filter_cons, filter_nil.
    destruct (decide (timeout_id t ≠ timeout_id t)) as [Hc|_]; [contradiction | reflexivity]. }
  unfold exec. rewrite bind_eq. cbn [Window.expire modify].
  unfold setupWebSocket. rewrite bind_eq. cbn [read].
  cbn [Upd.on_browser Upd.with_timeouts browser this monitor_token location_https location_host].
  rewrite Htok. cbn [from_option default]. rewrite Htruthy. cbn [negb].
  unfold try_catch. rewrite bind_eq. cbn. rewrite Hf.
  split; [|split]; reflexivity.
Qed.

(** The delay is the constructor's 5000 ms in every reachable state. *)
Lemma reachable_interval w : reachable w → reconnectInterval (this w) = 5000%Z.
Proof.
  assert (∀ {A} (m : Dom A),
            preserves (λ w, reconnectInterval (this w) = 5000%Z) (in_document m)) as Hdoc.
  { intros A m. apply preserves_in_document. intros ? ? H. exact H. }
  assert (preserves (λ w, reconnectInterval (this w) = 5000%Z) scheduleReconnect) as Hsched.
  { unfold scheduleReconnect. apply preserves_bind; [apply preserves_read|]. intros x.
    destruct (reconnectTimer (this x)); [apply preserves_ret|].
    apply preserves_bind; [intros ? H; exact H|]. intros ?.
    apply preserves_modify. intros ? H. exact H. }
  assert (∀ ok, preserves (λ w, reconnectInterval (this w) = 5000%Z) (setupWebSocket ok)) as Hsetup.
  { intros ok. unfold setupWebSocket. apply preserves_bind; [apply preserves_read|]. intros x.
    destruct (negb _); [apply preserves_modify; intros ? H; exact H|].
    apply preserves_try_catch.
    - apply preserves_bind.
      + intros y Hy. unfold exec, Window.newWebSocket. destruct ok; exact Hy.
      + intros ?. apply preserves_modify. intros ? H. exact H.
    - apply preserves_bind; [apply Hdoc | intros _; apply Hsched]. }
  assert (preserves (λ w, reconnectInterval (this w) = 5000%Z) onConnect) as Hopen.
  { unfold onConnect. apply preserves_bind; [apply Hdoc|].
    intros _. apply preserves_bind; [apply preserves_read|]. intros x.
    destruct (reconnectTimer (this x)); [|apply preserves_ret].
    apply preserves_bind; [intros ? H; exact H|]. intros _.
    apply preserves_modify. intros ? H. exact H. }
  assert (∀ now p, preserves (λ w, reconnectInterval (this w) = 5000%Z) (onMessage now p))
    as Hmsg.
  { intros now p. unfold onMessage. apply preserves_try_catch; [|apply preserves_ret].
    destruct p; [|apply preserves_throw].
    apply preserves_bind; [apply preserves_modify; intros ? H; exact H|]. intros _. apply Hdoc. }
  assert (preserves (λ w, reconnectInterval (this w) = 5000%Z) onDisconnect) as Hclose.
  { unfold onDisconnect. apply preserves_bind; [apply Hdoc | intros _; apply Hsched]. }
  assert (∀ h ok, preserves (λ w, reconnectInterval (this w) = 5000%Z)
                    (Window.expire h;; setupWebSocket ok)) as Hfire.
  { intros h ok. apply preserves_bind; [intros ? H; exact H | intros _; apply Hsetup]. }
  induction 1 as [b ctor_ok Hb | w e _ IH].
  - unfold construct, init.
    apply (preserves_bind (λ w, reconnectInterval (this w) = 5000%Z));
      [apply Hdoc | intros _; apply Hsetup | reflexivity].
  - destruct e; cbn [step]; try exact IH.
    + destruct (sockets (browser w)); [exact IH | apply Hopen, IH].
    + destruct (sockets (browser w)); [exact IH | apply Hmsg, IH].
    + destruct (sockets (browser w)); exact IH.
    + destruct (sockets (browser w)); [exact IH | apply Hclose, IH].
    + destruct (due h (browser w)); [apply Hfire, IH | exact IH].
Qed.

(** ** The history buffer (src/unnamed/part_001, lines 149-158) *)

Section Slices.
Context {A : Type}.
Implicit Types (l xs : list A) (n : nat).

Lemma slice_last_short n l : (length l ≤ n)%nat → slice_last n l = l.
Proof. intros H. unfold slice_last. replace (length l - n)%nat with 0%nat by lia. reflexivity. Qed.

Lemma length_slice_last n l : length (slice_last n l) = (length l `min` n)%nat.
Proof. unfold slice_last. rewrite length_drop. lia. Qed.

Lemma slice_last_snoc n l x :
  slice_last n (slice_last n l ++ [x]) = slice_last n (l ++ [x]).
Proof.
  destruct (decide (length l ≤ n)%nat) as [Hle | Hgt].
  - rewrite (slice_last_short n l Hle). reflexivity.
  - unfold slice_last at 1 3. rewrite !length_app, length_slice_last. simpl.
    replace (length l `min` n + 1 - n)%nat with 1%nat by lia.
    replace (length l + 1 - n)%nat with ((length l - n) + 1)%nat by lia.
    rewrite <- drop_drop. f_equal. unfold slice_last.
    rewrite drop_app_le by lia. reflexivity.
Qed.

Lemma push_reading_slice l x : push_reading l x = slice_last 1000 (l ++ [x]).
Proof.
  unfold push_reading. destruct (1000 <? length (l ++ [x]))%nat eqn:E; [reflexivity|].
  apply Nat.ltb_ge in E. symmetry. apply slice_last_short, E.
Qed.

Lemma foldl_push_reading l xs :
  foldl push_reading (slice_last 1000 l) xs = slice_last 1000 (l ++ xs).
Proof.
  revert l. induction xs as [|x xs IH]; intros l.
  - rewrite app_nil_r. reflexivity.
  - cbn [foldl]. rewrite push_reading_slice, slice_last_snoc, IH, <- app_assoc. reflexivity.
Qed.

Lemma history_is_last_1000 xs : foldl push_reading [] xs = slice_last 1000 xs.
Proof. exact (foldl_push_reading [] xs). Qed.

End Slices.

(** C8.  After any sequence of appends to the empty buffer the buffer holds
    at most 1000 readings, and so it does after every append on the way; when
    more than 1000 readings were appended it holds exactly 1000, namely the
    last 1000 appended, in the order they were appended. *)
Theorem history_keeps_last_1000 {A} (xs : list A) :
  let buffer := foldl push_reading [] xs in
  (∀ k, (length (foldl push_reading [] (take k xs)) ≤ 1000)%nat) ∧
  (length buffer ≤ 1000)%nat ∧
  ((1000 < length xs)%nat →
     length buffer = 1000%nat ∧
     buffer = drop (length xs - 1000) xs ∧
     ∀ i x, buffer !! i = Some x ↔
            (i < 1000)%nat ∧ xs !! (length xs - 1000 + i)%nat = Some x).
Proof.
  intros buffer. unfold buffer. rewrite history_is_last_1000.
  split; [|split].
  - intros k. rewrite history_is_last_1000, length_slice_last. lia.
  - rewrite length_slice_last. lia.
  - intros Hlen. split; [rewrite length_slice_last; lia|].
    split; [reflexivity|].
    intros i x. unfold slice_last. rewrite lookup_drop. split.
    + intros H. split; [|exact H]. apply lookup_lt_Some in H. lia.
    + intros [_ H]. exact H.
Qed.

(** Witness of [history_keeps_last_1000]: 1001 appends drop the first. *)
Lemma history_keeps_last_1000_witness :
  let xs := seq 0 1001 in
  (1000 < length xs)%nat ∧
  length (foldl push_reading [] xs) = 1000%nat ∧
  foldl push_reading [] xs = drop (length xs - 1000) xs.
Proof.
  intros xs.
  assert (1000 < length xs)%nat as H by (apply Nat.ltb_lt; vm_compute; reflexivity).
  destruct (proj2 (proj2 (history_keeps_last_1000 xs)) H) as (H1 & H2 & _).
  split; [exact H|]. split; [exact H1 | exact H2].
Defined.

(** ** The gateway (src/unnamed/part_001, lines 113-168) *)

Lemma on_connection_no_token c req s :
  carries_no_token req → address_parses req →
  on_connection c req s = ws_close c 1008 "Unauthorized" s.
Proof.
  unfold carries_no_token, address_parses, on_connection, extract_token.
  intros Ht [Hq | Hu].
  - rewrite Hq. reflexivity.
  - rewrite Hu, Ht. destruct (includes_qmark _); reflexivity.
Qed.

Lemma on_connection_throws c req s :
  (¬ address_parses req) → on_connection c req s = ws_close c 1011 "Server error" s.
Proof.
  unfold address_parses, on_connection, extract_token. intros H.
  destruct (includes_qmark _); [|tauto].
  destruct (url_throws req); [reflexivity | tauto].
Qed.

Lemma on_connection_invalid_token c req s :
  carries_invalid_token req →
  on_connection c req s = ws_close c 1008 "Invalid token" s.
Proof.
  unfold carries_invalid_token, on_connection, extract_token.
  intros (Hq & Hu & (t & Ht & Hne) & Hv). rewrite Hq, Hu, Ht, Hv. simpl.
  unfold Js.str_truthy. destruct (String.eqb_spec t ""); [contradiction | reflexivity].
Qed.

Lemma address_parses_dec req : address_parses req ∨ (¬ address_parses req).
Proof.
  unfold address_parses.
  destruct (includes_qmark _), (url_throws req); intuition discriminate.
Qed.

Lemma received_app c s fs :
  (filter (λ cf : nat * frame, cf.1 = c) (wire s ++ fs)).*2 =
  received c s ++ (filter (λ cf : nat * frame, cf.1 = c) fs).*2.
Proof. unfold received. rewrite filter_app, fmap_app. reflexivity. Qed.

(** A connection without interval timer gets no frame and keeps none running,
    whatever happens on the server, until a connection of that identifier is
    accepted. *)
Lemma silent_step c s e :
  c ∉ tickers s → (∀ req, e ≠ Connection c req) →
  (c ∉ tickers (server_step s e)) ∧ received c (server_step s e) = received c s.
Proof.
  intros Hc He. destruct e as [c' req | c' r now | c']; cbn [server_step].
  - assert (c' ≠ c) as Hne by (intros ->; exact (He req eq_refl)).
    assert (∀ code reason, received c (ws_close c' code reason s) = received c s) as Hclose.
    { intros code reason. unfold received at 1. cbn [ws_close wire].
      rewrite received_app. cbn [filter]. rewrite filter_cons, filter_nil.
      cbn [fst]. destruct (decide (c' = c)); [contradiction|]. apply app_nil_r. }
    unfold on_connection. destruct (extract_token req) as [token|]; [|by split].
    destruct (negb _); [by split|]. destruct (negb _); [by split|].
    split; [|reflexivity]. cbn [setInterval tickers].
    rewrite not_elem_of_app, list_elem_of_singleton. auto.
  - destruct (bool_decide_reflect (c' ∈ tickers s)) as [Hin|]; [|by split].
    assert (c' ≠ c) as Hne by (intros ->; contradiction).
    split; [exact Hc|]. unfold received at 1. cbn [on_tick wire].
    rewrite received_app. rewrite filter_cons, filter_nil. cbn [fst].
    destruct (decide (c' = c)); [contradiction|]. apply app_nil_r.
  - destruct (bool_decide (c' ∈ tickers s)); [|by split].
    split; [|reflexivity]. cbn [on_close clearInterval tickers].
    rewrite list_elem_of_filter. tauto.
Qed.

Lemma silent_run c s es :
  c ∉ tickers s → no_connection c es →
  (c ∉ tickers (server_run s es)) ∧ received c (server_run s es) = received c s.
Proof.
  revert s. induction es as [|e es IH]; intros s Hc Hes; [by split|].
  assert (∀ req, e ≠ Connection c req) as He.
  { intros req ->. apply (Hes req). apply list_elem_of_here. }
  destruct (silent_step c s e Hc He) as [Hc' Hr].
  destruct (IH (server_step s e) Hc') as [Hc'' Hr'].
  { intros req Hin. apply (Hes req). apply list_elem_of_further, Hin. }
  split; [exact Hc''|]. cbn [server_run foldl]. unfold server_run in Hr'. rewrite Hr'. exact Hr.
Qed.

(** C6, as the handler has it.  A connection request that carries no token
    is closed with code 1008 ("Unauthorized") when the handler can read the
    address, and with code 1011 ("Server error") when [new URL] throws on it.
    Either way the close is the only frame the connection ever gets, no
    interval timer is started for it and it appends nothing to the readings:
    the readings and the running timers are those from before the request,
    and a tick of that connection never runs. *)
Theorem tokenless_request_is_refused c req s :
  carries_no_token req → c ∉ tickers s →
  let s' := on_connection c req s in
  (address_parses req → wire s' = wire s ++ [(c, CloseFrame 1008 "Unauthorized")]) ∧
  ((¬ address_parses req) → wire s' = wire s ++ [(c, CloseFrame 1011 "Server error")]) ∧
  readings s' = readings s ∧
  tickers s' = tickers s ∧
  (∀ es, no_connection c es →
     received c (server_run s' es) = received c s' ∧
     (c ∉ tickers (server_run s' es)) ∧
     ∀ r now, server_step (server_run s' es) (Tick c r now) = server_run s' es).
Proof.
  intros Ht Hc s'.
  assert (readings s' = readings s ∧ tickers s' = tickers s) as [Hr Hk].
  { unfold s'. destruct (address_parses_dec req) as [Hp | Hp].
    - rewrite (on_connection_no_token c req s Ht Hp). by split.
    - rewrite (on_connection_throws c req s Hp). by split. }
  split; [|split; [|split; [exact Hr|split; [exact Hk|]]]].
  - intros Hp. unfold s'. rewrite (on_connection_no_token c req s Ht Hp). reflexivity.
  - intros Hp. unfold s'. rewrite (on_connection_throws c req s Hp). reflexivity.
  - intros es Hes. rewrite <- Hk in Hc.
    destruct (silent_run c s' es Hc Hes) as [Hc' Hrec].
    split; [exact Hrec|]. split; [exact Hc'|].
    intros r now. cbn [server_step]. rewrite bool_decide_eq_false_2 by exact Hc'. reflexivity.
Qed.

(** Witness of [tokenless_request_is_refused]: a request for [/ws] without
    query, first on a server that has just started. *)
Lemma tokenless_request_is_refused_witness :
  let s' := on_connection 0 request_without_token server_start in
  carries_no_token request_without_token ∧ (0%nat ∉ tickers server_start) ∧
  address_parses request_without_token ∧
  wire s' = [(0%nat, CloseFrame 1008 "Unauthorized")] ∧
  readings s' = [] ∧ tickers s' = [] ∧
  server_step s' (Tick 0 sample_draws 0) = s'.
Proof.
  intros s'.
  assert (carries_no_token request_without_token) as Ht by reflexivity.
  assert (0%nat ∉ tickers server_start) as Hc by apply not_elem_of_nil.
  assert (address_parses request_without_token) as Hp by (left; reflexivity).
  destruct (tokenless_request_is_refused 0 request_without_token server_start Ht Hc)
    as (H1 & _ & H3 & H4 & H5).
  split; [exact Ht|]. split; [exact Hc|]. split; [exact Hp|].
  split; [exact (H1 Hp)|]. split; [exact H3|]. split; [exact H4|].
  apply (H5 []). intros req Hin. exact (not_elem_of_nil _ Hin).
Defined.

(** C6, as the specification words it, fails: a request that carries no
    token, sent with a Host header on which [new URL] throws, is closed with
    code 1011. *)
Lemma tokenless_request_closed_1011 :
  carries_no_token request_with_bad_host ∧
  received 0 (on_connection 0 request_with_bad_host server_start) =
  [CloseFrame 1011 "Server error"].
Proof. split; reflexivity. Qed.




(** ** The wire message (src/unnamed/part_001, lines 136-162) *)

Lemma only_tick_frames_step s e : only_tick_frames s → only_tick_frames (server_step s e).
Proof.
  intros Hs. destruct e as [c' req | c' r now | c']; cbn [server_step].
  - assert (∀ code reason, only_tick_frames (ws_close c' code reason s)) as Hclose.
    { intros code reason c msg. cbn [ws_close wire].
      rewrite elem_of_app, list_elem_of_singleton. intros [H | [=]]. exact (Hs c msg H). }
    unfold on_connection. destruct (extract_token req); [|apply Hclose].
    destruct (negb _); [apply Hclose|]. destruct (negb _); [apply Hclose|]. exact Hs.
  - destruct (bool_decide _); [|exact Hs].
    intros c msg. cbn [on_tick wire].
    rewrite elem_of_app, list_elem_of_singleton. intros [H | [= -> ->]]; [exact (Hs c msg H)|].
    eauto.
  - destruct (bool_decide _); exact Hs.
Qed.

Lemma only_tick_frames_run s es : only_tick_frames s → only_tick_frames (server_run s es).
Proof.
  revert s. induction es as [|e es IH]; intros s Hs; [exact Hs|].
  apply IH, only_tick_frames_step, Hs.
Qed.

(** C9, as the server has it.  Every message the server pushes is an object
    with exactly the members load, swl, fork_position, battery, safety_level,
    utilization_minutes, utilization_active, counters and timestamp.  Of the
    fields the specification lists it has load, swl, safety_level,
    utilization_minutes, utilization_active, counters and timestamp, and it
    has none of test_mode, hoist_active, trolley_active, slew_active,
    status_word, overload_active and bypass_active. *)
Theorem tick_message_fields es c msg :
  (c, Data msg) ∈ wire (server_run server_start es) →
  keys msg = tick_fields ∧
  (∀ f, f ∈ documented_present → f ∈ keys msg) ∧
  (∀ f, f ∈ documented_absent → f ∉ keys msg) ∧
  (∀ f, f ∈ documented_fields ↔ f ∈ documented_present ∨ f ∈ documented_absent).
Proof.
  intros H.
  assert (only_tick_frames (server_run server_start es)) as Hinv.
  { apply only_tick_frames_run. intros c' msg' Hin. exact (False_ind _ (not_elem_of_nil _ Hin)). }
  destruct (Hinv c msg H) as (r & now & ->).
  change (keys (tick_data r now)) with tick_fields.
  split; [reflexivity|]. split; [|split].
  - apply Forall_forall. apply (bool_decide_unpack _). vm_compute. exact I.
  - apply Forall_forall. apply (bool_decide_unpack _). vm_compute. exact I.
  - intros f. unfold documented_fields, documented_present, documented_absent.
    rewrite !elem_of_cons, !elem_of_nil. tauto.
Qed.

(** Witness of [tick_message_fields]: the first tick of an accepted
    connection. *)
Lemma tick_message_fields_witness :
  let msg := tick_data sample_draws 0 in
  let es := [Connection 0 request_with_good_token; Tick 0 sample_draws 0] in
  (0%nat, Data msg) ∈ wire (server_run server_start es) ∧
  keys msg = tick_fields ∧
  (∀ f, f ∈ documented_present → f ∈ keys msg) ∧
  (∀ f, f ∈ documented_absent → f ∉ keys msg).
Proof.
  intros msg es.
  assert ((0%nat, Data msg) ∈ wire (server_run server_start es)) as H.
  { apply list_elem_of_here. }
  destruct (tick_message_fields es 0 msg H) as (H1 & H2 & H3 & _).
  split; [exact H|]. split; [exact H1|]. split; [exact H2 | exact H3].
Defined.

(** C9, as the specification words it, fails: the message of a tick has no
    member test_mode. *)
Lemma tick_message_lacks_test_mode :
  let msg := tick_data sample_draws 0 in
  let es := [Connection 0 request_with_good_token; Tick 0 sample_draws 0] in
  received 0 (server_run server_start es) = [Data msg] ∧
  "test_mode" ∈ documented_fields ∧
  member "test_mode" msg = None ∧
  "test_mode" ∉ keys msg.
Proof.
  split; [reflexivity|]. split; [in_keys|]. split; [reflexivity|].
  intros H. apply (bool_decide_pack _) in H. vm_compute in H. exact H.
Qed.

(** *** The readings of a server run *)

(** The readings are built by the ticks alone, one append per tick. *)
Lemma readings_of_run s es :
  readings (server_run s es) = foldl push_reading (readings s) (tick_log s es).
Proof.
  revert s. induction es as [|e es IH]; intros s; [reflexivity|].
  cbn [server_run foldl]. fold (server_run (server_step s e) es). rewrite IH.
  destruct e as [c req | c r now | c]; cbn [tick_log].
  - f_equal. cbn [server_step]. unfold on_connection.
    destruct (extract_token req); [|reflexivity].
    destruct (negb _); [reflexivity|]. destruct (negb _); reflexivity.
  - cbn [server_step]. destruct (bool_decide (c ∈ tickers s)); reflexivity.
  - f_equal. cbn [server_step]. destruct (bool_decide (c ∈ tickers s)); reflexivity.
Qed.

(** From its start the server holds the last 1000 tick objects, and never
    more than 1000. *)
Lemma readings_from_start es :
  readings (server_run server_start es) = slice_last 1000 (tick_log server_start es) ∧
  (length (readings (server_run server_start es)) ≤ 1000)%nat.
Proof.
  rewrite readings_of_run. cbn [server_start readings]. rewrite history_is_last_1000.
  split; [reflexivity|]. rewrite length_slice_last. lia.
Qed.

(** * Further properties *)

(** ** Rendering (src/app.js, lines 94-291) *)

Lemma touches_mono {A} K K' (m : Dom A) :
  (∀ k, k ∈ K → k ∈ K') → touches K m → touches K' m.
Proof.
  intros HK Hm d. split; [apply Hm|]. intros k Hk. apply Hm. intros H. apply Hk, HK, H.
Qed.

Lemma touches_ext {A} K (m m' : Dom A) : (∀ d, m d = m' d) → touches K m → touches K m'.
Proof. intros E Hm d. unfold exec. rewrite <- E. apply Hm. Qed.

Lemma updateUI_touches now data : touches ui_keys (updateUI now data).
Proof.
  apply (touches_ext _ _ _ (λ d, eq_sym (updateUI_parts now data d))).
  apply touches_bind; [|intros _ _; apply touches_bind; [|intros _ _; apply touches_bind;
    [|intros _ _; apply touches_bind; [|intros _ _]]]].
  - apply (touches_mono values_keys); [|apply ui_values_touches].
    intros k Hk. unfold ui_keys. rewrite !elem_of_app. auto.
  - apply (touches_mono ["#load-percent"]); [|apply updateLoadPercent_touches].
    intros k Hk. unfold ui_keys. rewrite !elem_of_app. auto.
  - apply (touches_mono safety_keys); [|apply updateSafetyStatus_touches].
    intros k Hk. unfold ui_keys. rewrite !elem_of_app. auto.
  - apply (touches_mono test_mode_keys); [|apply updateTestMode_touches].
    intros k Hk. unfold ui_keys. rewrite !elem_of_app. auto.
  - apply (touches_mono tail_keys); [|apply ui_tail_touches].
    intros k Hk. unfold ui_keys. rewrite !elem_of_app. auto.
Qed.


(** A statement that keeps the elements of the page keeps the next one
    safe. *)
Lemma safe_bind_any {A B} K K' (m : Dom A) (f : A → Dom B) :
  safe K m → touches K' m → (∀ a, returns m a → safe K (f a)) → safe K (m ≫= f).
Proof.
  intros Sm Tm Sf d Hd. destruct (Sm d Hd) as [a Ha].
  apply (completes_bind _ _ _ a Ha). apply (Sf a); [exists d; exact Ha|].
  intros x Hx. apply (Tm d). auto.
Qed.

Lemma safe_seq_any {A B} K K' (m : Dom A) (k : Dom B) :
  safe K m → touches K' m → safe K k → safe K (m ;; k).
Proof. intros Sm Tm Sk. apply (safe_bind_any K K'); auto. Qed.

(** [safely], for elements that need not all be on the page. *)
Ltac safely_needed :=
  open_document;
  repeat first
    [ solve [ eauto with footprint ]
    | apply safe_ret
    | apply safe_update; in_keys
    | apply safe_select_bind; [ in_keys | ]
    | apply safe_select_bind_any
    | match goal with
      | |- safe _ (mbind _ (match ?x with _ => _ end)) => returned x
      end
    | apply (safe_bind_any _ page_keys); [ | touch | intros ? ? ]
    | match goal with
      | |- safe _ (match ?x with _ => _ end) => first [ returned x | destruct x ]
      end ].

Lemma updateSafetyStatus_safe_needed level : safe needed_keys (updateSafetyStatus level).
Proof. unfold updateSafetyStatus. safely_needed. Qed.

Lemma updateLoadPercent_safe_needed data : safe needed_keys (updateLoadPercent data).
Proof. unfold updateLoadPercent. safely_needed. Qed.

Lemma updateTestMode_safe_needed testData : safe needed_keys (updateTestMode testData).
Proof. unfold updateTestMode. safely_needed. Qed.

Lemma updateUtilStatus_safe_needed active : safe needed_keys (updateUtilStatus active).
Proof. unfold updateUtilStatus. safely_needed. Qed.

Lemma ui_values_safe_any K data : safe K (ui_values data).
Proof. unfold ui_values. safely_needed. Qed.

Lemma ui_tail_safe_needed now data : safe needed_keys (ui_tail now data).
Proof.
  assert (∀ id active, "#" +:+ id ∈ needed_keys →
            ("#" +:+ id) +:+ " " +:+ ".badge-status" ∈ needed_keys →
            safe needed_keys (updateBadge id active)) as HB
    by (intros; apply updateBadge_safe; assumption).
  pose proof updateUtilStatus_safe_needed as HU.
  unfold ui_tail.
  repeat first
    [ apply HU
    | apply HB; in_keys
    | solve [ eauto with footprint ]
    | apply (safe_bind_any _ page_keys); [ | touch | intros ? ? ] ].
Qed.

Lemma bare_page_has_needed k : k ∈ needed_keys → is_Some (bare_page !! k).
Proof.
  revert k. apply Forall_forall. apply (bool_decide_unpack _). vm_compute. exact I.
Qed.

(** X2.  [updateUI] runs to its end on every page that has the sixteen
    elements of [needed_keys], whatever the message holds: the value fields,
    the operations and the limit-switch rows may all be missing from the
    page. *)
Theorem updateUI_needs_sixteen_elements now data d :
  (∀ k, k ∈ needed_keys → is_Some (d !! k)) →
  (updateUI now data d).1 = Ok tt.
Proof.
  intros Hd.
  assert (safe needed_keys
            (ui_values data;;
             updateLoadPercent data;;
             updateSafetyStatus (safety_level_or_safe data);;
             updateTestMode (default empty_test_mode (test_mode data));;
             ui_tail now data)) as S.
  { apply (safe_seq_any _ values_keys);
      [apply ui_values_safe_any | apply ui_values_touches |].
    apply (safe_seq_any _ ["#load-percent"]);
      [apply updateLoadPercent_safe_needed | apply updateLoadPercent_touches |].
    apply (safe_seq_any _ safety_keys);
      [apply updateSafetyStatus_safe_needed | apply updateSafetyStatus_touches |].
    apply (safe_seq_any _ test_mode_keys);
      [apply updateTestMode_safe_needed | apply updateTestMode_touches |].
    apply ui_tail_safe_needed. }
  destruct (S d Hd) as [[] E]. rewrite updateUI_parts. exact E.
Qed.

(** Witness of [updateUI_needs_sixteen_elements]: a full message on the bare
    page. *)
Lemma updateUI_needs_sixteen_elements_witness :
  (∀ k, k ∈ needed_keys → is_Some (bare_page !! k)) ∧
  (updateUI "12:00:00" (mockData sample_mock_draws) bare_page).1 = Ok tt.
Proof.
  split; [exact bare_page_has_needed|].
  exact (updateUI_needs_sixteen_elements "12:00:00" (mockData sample_mock_draws) bare_page
           bare_page_has_needed).
Defined.

Lemma updateLoadPercent_throws data (d : DOM) l w :
  d !! "#load-percent" = None →
  load data = Some l → swl data = Some w → ¬ (l == 0)%Q → (0 < w)%Q →
  updateLoadPercent data d = (Thrown, d).
Proof.
  intros Hd Hl Hw Hl0 Hw0. unfold updateLoadPercent. rewrite Hl, Hw.
  assert (Js.num_truthy l && Js.num_truthy w && Js.gt w 0 = true) as ->.
  { unfold Js.num_truthy, Js.gt.
    destruct (Qeq_bool l 0) eqn:E1; [apply Qeq_bool_iff in E1; contradiction|].
    destruct (Qeq_bool w 0) eqn:E2; [apply Qeq_bool_iff in E2; rewrite E2 in Hw0; lra|].
    destruct (Qle_bool w 0) eqn:E3; [apply Qle_bool_iff in E3; lra|]. reflexivity. }
  unfold getElementById. change ("#" +:+ "load-percent") with "#load-percent".
  rewrite bind_eq. unfold select. rewrite Hd. reflexivity.
Qed.

(** X3.  When the page lacks the percentage element and the message has a
    load and a positive safe working load, [updateUI] throws at the
    percentage: it has written the four value fields and nothing else, so
    the safety banner, the test rows and the badges still show the previous
    message. *)
Theorem missing_percent_element_stops_update now data (d : DOM) l w :
  d !! "#load-percent" = None →
  load data = Some l → swl data = Some w → ¬ (l == 0)%Q → (0 < w)%Q →
  (updateUI now data d).1 = Thrown ∧
  (∀ k, k ∉ values_keys → exec (updateUI now data) d !! k = d !! k).
Proof.
  intros Hd Hl Hw Hl0 Hw0.
  destruct (ui_values_safe_any [] data d) as [[] E1].
  { intros k Hk. inversion Hk. }
  pose proof (proj2 (ui_values_touches data d)) as F1.
  assert (exec (ui_values data) d !! "#load-percent" = None) as Hd1.
  { rewrite F1; [exact Hd | not_in_keys]. }
  pose proof (updateLoadPercent_throws data _ l w Hd1 Hl Hw Hl0 Hw0) as E2.
  assert (updateUI now data d = (Thrown, exec (ui_values data) d)) as E.
  { rewrite updateUI_parts, bind_eq. unfold exec in *.
    destruct (ui_values data d) as [r d1]. simpl in *. subst r.
    rewrite bind_eq, E2. reflexivity. }
  split; [rewrite E; reflexivity|].
  intros k Hk. unfold exec at 1. rewrite E. simpl. apply F1, Hk.
Qed.

(** Witness of [missing_percent_element_stops_update]: a load of 96 of 100
    on the page without percentage element. *)
Lemma missing_percent_element_stops_update_witness :
  page_without_percent !! "#load-percent" = None ∧
  ¬ (96 == 0)%Q ∧ (0 < 100)%Q ∧
  (updateUI "12:00:00" (load_snapshot 96 100) page_without_percent).1 = Thrown ∧
  (∀ k, k ∉ values_keys →
        exec (updateUI "12:00:00" (load_snapshot 96 100)) page_without_percent !! k =
        page_without_percent !! k).
Proof.
  assert (page_without_percent !! "#load-percent" = None) as H1 by apply lookup_delete_eq.
  assert (¬ (96 == 0)%Q) as H2 by (intros H; discriminate H).
  assert (0 < 100)%Q as H3 by reflexivity.
  split; [exact H1|]. split; [exact H2|]. split; [exact H3|].
  exact (missing_percent_element_stops_update "12:00:00" (load_snapshot 96 100)
           page_without_percent 96 100 H1 eq_refl eq_refl H2 H3).
Defined.

(** [updateSafetyStatus] on the levels [safe] and [warning]. *)
Lemma updateSafetyStatus_calm level (d : DOM) :
  (∀ k, k ∈ safety_keys → is_Some (d !! k)) →
  let d' := exec (updateSafetyStatus level) d in
  (level = "safe" →
     classes "#safety-banner" d' = ["safety-banner"; "hidden"] ∧
     classes ".status-light" d' = ["status-light"; "safe"] ∧
     text ".status-text" d' = "Safe" ∧
     text "#safety-message" d' = text "#safety-message" d) ∧
  (level = "warning" →
     classes "#safety-banner" d' = ["safety-banner"] ∧
     classes ".status-light" d' = ["status-light"; "warning"] ∧
     text ".status-text" d' = "Warning" ∧
     text "#safety-message" d' = "⚠️ Load approaching limit").
Proof.
  intros (l & t & b & m & Hl & Ht & Hb & Hm)%has_safety_keys.
  split; intros ->; unfold exec, updateSafetyStatus; simpl; run_document;
    repeat split; read_back; rewrite ?Hm; reflexivity.
Qed.

(** The same after [updateUI]. *)
Lemma updateUI_calm now data d :
  page_ok d →
  let d' := exec (updateUI now data) d in
  (safety_level_or_safe data = "safe" →
     classes "#safety-banner" d' = ["safety-banner"; "hidden"] ∧
     classes ".status-light" d' = ["status-light"; "safe"] ∧
     text ".status-text" d' = "Safe" ∧
     text "#safety-message" d' = text "#safety-message" d) ∧
  (safety_level_or_safe data = "warning" →
     classes "#safety-banner" d' = ["safety-banner"] ∧
     classes ".status-light" d' = ["status-light"; "warning"] ∧
     text ".status-text" d' = "Warning" ∧
     text "#safety-message" d' = "⚠️ Load approaching limit").
Proof.
  intros Hd d'. unfold d'.
  destruct (updateUI_safety_text now data d "#safety-banner" Hd ltac:(in_keys))
    as (H2 & -> & _ & _).
  destruct (updateUI_safety_text now data d "#safety-message" Hd ltac:(in_keys))
    as (_ & _ & -> & Em).
  destruct (updateUI_safety_text now data d ".status-text" Hd ltac:(in_keys))
    as (_ & _ & -> & _).
  destruct (updateUI_safety_text now data d ".status-light" Hd ltac:(in_keys))
    as (_ & -> & _ & _).
  destruct (updateSafetyStatus_calm (safety_level_or_safe data) _
              (λ k, page_has_safety_keys _ k H2)) as [Hsafe Hwarning].
  split; intros L.
  - destruct (Hsafe L) as (-> & -> & -> & ->). rewrite Em. repeat split.
  - destruct (Hwarning L) as (-> & -> & -> & ->). repeat split.
Qed.

(** X4.  On a page that has its elements, a message whose level is safe,
    empty or absent leaves the banner hidden and the status text "Safe",
    and does not write the banner message; a message of level warning shows
    the banner with the message "Load approaching limit" and the status text
    "Warning", and the banner then carries its base class only: no severity
    class tells a warning banner from a plain one. *)
Theorem safe_and_warning_banner now data d :
  page_ok d →
  let d' := exec (updateUI now data) d in
  (safety_level data = None ∨ safety_level data = Some "" ∨
   safety_level data = Some "safe" →
     banner_visible d' = false ∧
     classes ".status-light" d' = ["status-light"; "safe"] ∧
     status_text d' = "Safe" ∧
     banner_message d' = banner_message d) ∧
  (safety_level data = Some "warning" →
     banner_visible d' = true ∧
     classes "#safety-banner" d' = ["safety-banner"] ∧
     banner_severity d' = normal ∧
     classes ".status-light" d' = ["status-light"; "warning"] ∧
     status_text d' = "Warning" ∧
     banner_message d' = "⚠️ Load approaching limit").
Proof.
  intros Hd d'. unfold banner_visible, banner_severity, banner_message, status_text, d'.
  destruct (updateUI_calm now data d Hd) as [Hsafe Hwarning].
  split; intros Hlevel.
  - assert (safety_level_or_safe data = "safe") as L.
    { unfold safety_level_or_safe. destruct Hlevel as [-> | [-> | ->]]; reflexivity. }
    destruct (Hsafe L) as (-> & -> & -> & ->). repeat split.
  - assert (safety_level_or_safe data = "warning") as L.
    { unfold safety_level_or_safe. rewrite Hlevel. reflexivity. }
    destruct (Hwarning L) as (-> & -> & -> & ->). repeat split.
Qed.

(** Witness of [safe_and_warning_banner]: a safe and a warning message on the
    blank page. *)
Lemma safe_and_warning_banner_witness :
  page_ok blank_page ∧
  banner_visible (exec (updateUI "12:00:00" (level_snapshot "safe")) blank_page) = false ∧
  banner_severity (exec (updateUI "12:00:00" (level_snapshot "warning")) blank_page) = normal.
Proof.
  split; [exact blank_page_ok|].
  pose proof (safe_and_warning_banner "12:00:00" (level_snapshot "safe") blank_page
                blank_page_ok) as Hs.
  pose proof (safe_and_warning_banner "12:00:00" (level_snapshot "warning") blank_page
                blank_page_ok) as Hw.
  split.
  - exact (proj1 (proj1 Hs (or_intror (or_intror eq_refl)))).
  - exact (proj1 (proj2 (proj2 (proj2 Hw eq_refl)))).
Defined.

(** *** Class tokens *)

Lemma elem_of_add_token x c cls : x ∈ add_token c cls ↔ x = c ∨ x ∈ cls.
Proof.
  unfold add_token. destruct (decide (c ∈ cls)) as [Hc|Hc].
  - split; [auto|]. intros [-> | H]; assumption.
  - rewrite elem_of_app, list_elem_of_singleton. tauto.
Qed.

Lemma elem_of_remove_token x c cls : x ∈ remove_token c cls ↔ x ≠ c ∧ x ∈ cls.
Proof. unfold remove_token. rewrite list_elem_of_filter. reflexivity. Qed.

(** X5.  [updateConnectionStatus] on a page that has the indicator: the dot
    gets the token of the new state and loses the token of the other state,
    every other token of the dot stays, and the text is "Connected" when
    connected and "Mock Data" when not. *)
Theorem connection_indicator_shows_state connected (d : DOM) :
  is_Some (d !! ".status-dot") → is_Some (d !! "#connection-text") →
  let d' := exec (updateConnectionStatus connected) d in
  let shown := if connected then "online" else "offline" in
  let other := if connected then "offline" else "online" in
  (updateConnectionStatus connected d).1 = Ok tt ∧
  shown ∈ classes ".status-dot" d' ∧
  (other ∉ classes ".status-dot" d') ∧
  (∀ c, c ≠ "online" → c ≠ "offline" →
        c ∈ classes ".status-dot" d' ↔ c ∈ classes ".status-dot" d) ∧
  text "#connection-text" d' = (if connected then "Connected" else "Mock Data").
Proof.
  intros [e1 H1] [e2 H2].
  destruct connected; unfold updateConnectionStatus, exec; simpl; run_document;
    (split; [reflexivity|]); unfold classes, text; simpl;
    repeat first [ rewrite lookup_insert_eq | rewrite lookup_insert_ne by done ];
    rewrite ?H1; simpl.
  - split; [apply elem_of_add_token; auto|].
    split; [rewrite elem_of_add_token, elem_of_remove_token; intros [H | [H _]]; [discriminate H | auto]|].
    split; [|reflexivity].
    intros c C1 C2. rewrite elem_of_add_token, elem_of_remove_token. tauto.
  - split; [apply elem_of_add_token; auto|].
    split; [rewrite elem_of_add_token, elem_of_remove_token; intros [H | [H _]]; [discriminate H | auto]|].
    split; [|reflexivity].
    intros c C1 C2. rewrite elem_of_add_token, elem_of_remove_token. tauto.
Qed.

(** Witness of [connection_indicator_shows_state]: the blank page goes
    online. *)
Lemma connection_indicator_shows_state_witness :
  is_Some (blank_page !! ".status-dot") ∧ is_Some (blank_page !! "#connection-text") ∧
  "online" ∈ classes ".status-dot" (exec (updateConnectionStatus true) blank_page) ∧
  text "#connection-text" (exec (updateConnectionStatus true) blank_page) = "Connected".
Proof.
  assert (is_Some (blank_page !! ".status-dot")) as H1 by (apply blank_page_ok; in_keys).
  assert (is_Some (blank_page !! "#connection-text")) as H2 by (apply blank_page_ok; in_keys).
  split; [exact H1|]. split; [exact H2|].
  pose proof (connection_indicator_shows_state true blank_page H1 H2) as (_ & Hs & _ & _ & Ht).
  split; [exact Hs | exact Ht].
Defined.

(** *** Reading one element after a sequence of statements *)

(** What follows a statement does not change the elements it does not
    touch. *)
Lemma exec_bind_frame {A B} K (m : Dom A) (f : A → Dom B) (d : DOM) key :
  (∀ a, touches K (f a)) → key ∉ K → exec (m ≫= f) d !! key = exec m d !! key.
Proof.
  intros Hf Hk. rewrite exec_bind. destruct ((m d).1); [apply Hf, Hk | reflexivity].
Qed.

Ltac step_page :=
  match goal with
  | Hd : page_ok ?d |- context [exec (?m;; ?k) ?d] =>
      let E := fresh "E" in
      let Hd' := fresh "Hd" in
      destruct (exec_seq_page m k d) as [E Hd'];
      [ safely | touch | exact Hd | rewrite E; clear E ]
  end.

Ltac rest_frame K :=
  rewrite (exec_bind_frame K); [ | intros ?; cbv beta; touch | not_in_keys ].

Lemma updateElement_text id value (d : DOM) :
  is_Some (d !! ("#" +:+ id)) →
  exec (updateElement id value) d !! ("#" +:+ id) =
  (λ e, {| className := className e; textContent := value |}) <$> d !! ("#" +:+ id).
Proof.
  intros [e He]. unfold updateElement, exec. run_document. simpl.
  rewrite lookup_insert_eq, He. reflexivity.
Qed.

Lemma updateOperation_shows id active (d : DOM) :
  is_Some (d !! ("#" +:+ id)) → is_Some (d !! ("#" +:+ id +:+ " .op-status")) →
  let d' := exec (updateOperation id active) d in
  text ("#" +:+ id +:+ " .op-status") d' = (if Js.truthy active then "ON" else "OFF") ∧
  classes ("#" +:+ id +:+ " .op-status") d' =
    (if Js.truthy active then ["op-status"; "active"] else ["op-status"]).
Proof.
  intros [e He] [s Hs]. unfold updateOperation, exec.
  destruct (Js.truthy active); run_document; split; read_back.
Qed.

Lemma updateBadge_shows id active (d : DOM) :
  is_Some (d !! ("#" +:+ id)) → is_Some (d !! ("#" +:+ id +:+ " .badge-status")) →
  let d' := exec (updateBadge id active) d in
  text ("#" +:+ id +:+ " .badge-status") d' = (if Js.truthy active then "ON" else "OFF") ∧
  classes ("#" +:+ id +:+ " .badge-status") d' =
    (if Js.truthy active then ["badge-status"; "active"] else ["badge-status"]).
Proof.
  intros [e He] [s Hs]. unfold updateBadge, exec.
  destruct (Js.truthy active); run_document; split; read_back.
Qed.

(** What follows the statement that writes an element of the tail does not
    write it again. *)
Lemma ui_tail_shows now data d :
  page_ok d →
  let d' := exec (ui_tail now data) d in
  let shown (b : Js.flag) := if Js.truthy b then "ON" else "OFF" in
  (text "#hoist-op .op-status" d' = shown (hoist_active data) ∧
   text "#trolley-op .op-status" d' = shown (trolley_active data) ∧
   text "#slew-op .op-status" d' = shown (slew_active data)) ∧
  (text "#util-time" d' = int_or_zero (utilization_minutes data) ∧
   text "#counter-hookup" d' = int_or_zero (counters data ≫= hookup) ∧
   text "#counter-hookdown" d' = int_or_zero (counters data ≫= hookdown)) ∧
  (text "#status-word" d' =
     "0x" +:+ Js.padStart 4 "0" (Js.toHexUpper (default 0%Z (status_word data))) ∧
   text "#last-update" d' = now) ∧
  (text "#overload-badge .badge-status" d' = shown (overload_active data) ∧
   text "#bypass-badge .badge-status" d' = shown (bypass_active data)).
Proof.
  intros Hd d' shown. unfold d', shown, ui_tail.
  assert (∀ k (x : DOM), page_ok x → k ∈ page_keys → is_Some (x !! k)) as Has
    by (intros k x Hx Hk; apply Hx, Hk).
  split; [split; [|split] | split; [split; [|split] | split; [split | split]]]; unfold text.
  - rest_frame (filter (λ k : string, k ≠ "#hoist-op .op-status") page_keys).
    apply updateOperation_shows; apply Hd; in_keys.
  - do 1 step_page.
    rest_frame (filter (λ k : string, k ≠ "#trolley-op .op-status") page_keys).
    apply updateOperation_shows; apply Has; first [assumption | in_keys].
  - do 2 step_page.
    rest_frame (filter (λ k : string, k ≠ "#slew-op .op-status") page_keys).
    apply updateOperation_shows; apply Has; first [assumption | in_keys].
  - do 3 step_page.
    rest_frame (filter (λ k : string, k ≠ "#util-time") page_keys).
    rewrite (updateElement_text "util-time") by (apply Has; first [assumption | in_keys]).
    match goal with |- context [?x !! ("#" +:+ "util-time")] =>
      destruct (Has ("#" +:+ "util-time") x) as [e ->]; [assumption | in_keys | reflexivity] end.
  - do 5 step_page.
    rest_frame (filter (λ k : string, k ≠ "#counter-hookup") page_keys).
    rewrite (updateElement_text "counter-hookup") by (apply Has; first [assumption | in_keys]).
    match goal with |- context [?x !! ("#" +:+ "counter-hookup")] =>
      destruct (Has ("#" +:+ "counter-hookup") x) as [e ->]; [assumption | in_keys | reflexivity] end.
  - do 6 step_page.
    rest_frame (filter (λ k : string, k ≠ "#counter-hookdown") page_keys).
    rewrite (updateElement_text "counter-hookdown") by (apply Has; first [assumption | in_keys]).
    match goal with |- context [?x !! ("#" +:+ "counter-hookdown")] =>
      destruct (Has ("#" +:+ "counter-hookdown") x) as [e ->]; [assumption | in_keys | reflexivity] end.
  - do 7 step_page.
    rest_frame (filter (λ k : string, k ≠ "#status-word") page_keys).
    rewrite (updateElement_text "status-word") by (apply Has; first [assumption | in_keys]).
    match goal with |- context [?x !! ("#" +:+ "status-word")] =>
      destruct (Has ("#" +:+ "status-word") x) as [e ->]; [assumption | in_keys | reflexivity] end.
  - do 8 step_page.
    rest_frame (filter (λ k : string, k ≠ "#last-update") page_keys).
    rewrite (updateElement_text "last-update") by (apply Has; first [assumption | in_keys]).
    match goal with |- context [?x !! ("#" +:+ "last-update")] =>
      destruct (Has ("#" +:+ "last-update") x) as [e ->]; [assumption | in_keys | reflexivity] end.
  - do 9 step_page.
    rest_frame (filter (λ k : string, k ≠ "#overload-badge .badge-status") page_keys).
    apply updateBadge_shows; apply Has; first [assumption | in_keys].
  - do 10 step_page.
    apply updateBadge_shows; apply Has; first [assumption | in_keys].
Qed.

(** *** Numerals *)

Lemma holds_from_spec (P : Z → bool) n x :
  holds_from P n x = true → ∀ y, (x ≤ y < x + Z.of_nat n)%Z → P y = true.
Proof.
  revert x. induction n as [|n IH]; intros x H y Hy; [lia|].
  simpl in H. apply andb_true_iff in H as [H0 H1].
  destruct (decide (y = x)) as [->|Hne]; [exact H0|].
  apply (IH (x + 1)%Z H1). lia.
Qed.

Lemma seconds_two_digits s :
  (0 ≤ s < 60)%Z → Js.padStart 2 "0" (pretty s) = two_digits s.
Proof.
  intros Hs. apply String.eqb_eq.
  apply (holds_from_spec
           (λ s, String.eqb (Js.padStart 2 "0" (pretty s)) (two_digits s)) (Z.to_nat 60) 0);
    [vm_compute; reflexivity | lia].
Qed.

Lemma word_four_digits w :
  (0 ≤ w < 65536)%Z → Js.padStart 4 "0" (Js.toHexUpper w) = hex4 w.
Proof.
  intros Hw. apply String.eqb_eq.
  apply (holds_from_spec
           (λ w, String.eqb (Js.padStart 4 "0" (Js.toHexUpper w)) (hex4 w))
           (Z.to_nat 65536) 0);
    [vm_compute; reflexivity | lia].
Qed.

(** The text [updateTestMode] leaves in the timer. *)
Lemma updateTestMode_timer testData d :
  page_ok d →
  text "#test-timer" (exec (updateTestMode testData) d) =
  match Js.truthy (in_progress testData), remaining_seconds testData with
  | true, Some rs =>
      pretty (rs / 60)%Z +:+ ":" +:+ Js.padStart 2 "0" (pretty (Z.rem rs 60))
  | _, _ => "10:00"
  end.
Proof.
  intros Hd. unfold updateTestMode, exec.
  destruct (Hd "#test-status-badge" ltac:(in_keys)) as [e1 H1].
  destruct (Hd "#test-status-text" ltac:(in_keys)) as [e2 H2].
  destruct (Hd "#test-timer" ltac:(in_keys)) as [e3 H3].
  destruct (Hd "#test-warning" ltac:(in_keys)) as [e4 H4].
  unfold getElementById.
  rewrite (select_bind_Some _ _ _ _ H1), (select_bind_Some _ _ _ _ H2),
    (select_bind_Some _ _ _ _ H3), (select_bind_Some _ _ _ _ H4).
  clear e1 e2 e3 e4 H1 H2 H3 H4.
  repeat match goal with |- context [(?m d).2] => change ((m d).2) with (exec m d) end.
  do 2 step_page. unfold text.
  rest_frame (filter (λ k : string, k ≠ "#test-timer") page_keys).
  match goal with |- context [exec _ ?x !! _] =>
    destruct (Hd1 "#test-timer" ltac:(in_keys)) as [e He] end.
  destruct (Js.truthy (in_progress testData)), (remaining_seconds testData);
    unfold exec; open_document; erewrite update_Some by exact He; simpl;
    rewrite lookup_insert_eq; reflexivity.
Qed.

(** The elements of the test panel after [updateUI] are as [updateTestMode]
    leaves them. *)
Lemma updateUI_test_mode_element now data d k :
  page_ok d → k ∉ tail_keys →
  ∃ d3, page_ok d3 ∧
        exec (updateUI now data) d !! k =
        exec (updateTestMode (default empty_test_mode (test_mode data))) d3 !! k.
Proof.
  intros Hd Hk. destruct (updateUI_on_page now data d Hd) as (_ & _ & H3 & _ & -> & _).
  eexists. split; [exact H3|]. apply (proj2 (ui_tail_touches now data _)), Hk.
Qed.

Lemma updateUI_timer now data d :
  page_ok d →
  let t := default empty_test_mode (test_mode data) in
  text "#test-timer" (exec (updateUI now data) d) =
  match Js.truthy (in_progress t), remaining_seconds t with
  | true, Some rs =>
      pretty (rs / 60)%Z +:+ ":" +:+ Js.padStart 2 "0" (pretty (Z.rem rs 60))
  | _, _ => "10:00"
  end.
Proof.
  intros Hd t.
  destruct (updateUI_test_mode_element now data d "#test-timer" Hd ltac:(not_in_keys))
    as (d3 & H3 & E).
  pose proof (updateTestMode_timer t d3 H3) as T.
  subst t. unfold text in *. rewrite E, T. reflexivity.
Qed.

(** X6.  The countdown of the test panel after [updateUI], on a page that
    has its elements: while a test is in progress with [rs] seconds left,
    [rs] not negative, the timer shows the whole minutes, a colon and the
    seconds of the minute as two digits; when no test is in progress, or the
    message has no remaining time, it shows "10:00", whatever time the
    message carries. *)
Theorem countdown_text now data d :
  page_ok d →
  let t := default empty_test_mode (test_mode data) in
  let d' := exec (updateUI now data) d in
  (Js.truthy (in_progress t) = false ∨ remaining_seconds t = None →
     text "#test-timer" d' = "10:00") ∧
  (∀ rs, Js.truthy (in_progress t) = true → remaining_seconds t = Some rs → (0 ≤ rs)%Z →
     text "#test-timer" d' = pretty (rs / 60)%Z +:+ ":" +:+ two_digits (rs `mod` 60)).
Proof.
  intros Hd t d'. pose proof (updateUI_timer now data d Hd) as T.
  subst t d'. cbv zeta in T. rewrite T. clear T. split.
  - intros [-> | ->]; [reflexivity|]. destruct (Js.truthy _); reflexivity.
  - intros rs -> -> Hrs.
    rewrite Z.rem_mod_nonneg by lia.
    rewrite seconds_two_digits; [reflexivity|]. apply Z.mod_pos_bound. lia.
Qed.

(** Witness of [countdown_text]: 125 seconds left show as 2:05. *)
Lemma countdown_text_witness :
  let data := set_test_mode (Some (running_test 125)) empty_snapshot in
  page_ok blank_page ∧ (0 ≤ 125)%Z ∧
  text "#test-timer" (exec (updateUI "12:00:00" data) blank_page) = "2:05" ∧
  text "#test-timer" (exec (updateUI "12:00:00" empty_snapshot) blank_page) = "10:00".
Proof.
  intros data.
  assert (0 ≤ 125)%Z as H by lia.
  split; [exact blank_page_ok|]. split; [exact H|]. split.
  - exact (proj2 (countdown_text "12:00:00" data blank_page blank_page_ok)
             125%Z eq_refl eq_refl H).
  - exact (proj1 (countdown_text "12:00:00" empty_snapshot blank_page blank_page_ok)
             (or_introl eq_refl)).
Defined.

(** The elements of the tail after [updateUI] are as [ui_tail] leaves them,
    on a page that has its elements. *)
Lemma updateUI_tail now data d :
  page_ok d →
  ∃ d4, page_ok d4 ∧ exec (updateUI now data) d = exec (ui_tail now data) d4.
Proof.
  intros Hd. destruct (updateUI_on_page now data d Hd) as (_ & _ & _ & H4 & E & _).
  eexists. split; [exact H4 | exact E].
Qed.

(** X7.  The status word after [updateUI], on a page that has its elements:
    a word of sixteen bits shows as "0x" and its four hexadecimal digits,
    capitals for the digits above nine; an absent word shows as the word
    zero, "0x0000". *)
Theorem status_word_text now data d :
  page_ok d →
  let d' := exec (updateUI now data) d in
  (status_word data = None → text "#status-word" d' = "0x0000") ∧
  (∀ w, status_word data = Some w → (0 ≤ w < 65536)%Z →
        text "#status-word" d' = "0x" +:+ hex4 w).
Proof.
  intros Hd d'. destruct (updateUI_tail now data d Hd) as (d4 & H4 & E).
  destruct (ui_tail_shows now data d4 H4) as (_ & _ & [T _] & _).
  subst d'. rewrite E, T. clear E T. split.
  - intros ->. reflexivity.
  - intros w -> Hw. simpl default. rewrite word_four_digits by exact Hw. reflexivity.
Qed.

(** Witness of [status_word_text]: the word 0x0123 of the mock data. *)
Lemma status_word_text_witness :
  page_ok blank_page ∧ (0 ≤ 291 < 65536)%Z ∧
  text "#status-word"
    (exec (updateUI "12:00:00" (set_status_word (Some 291%Z) empty_snapshot)) blank_page) =
  "0x0123".
Proof.
  assert (0 ≤ 291 < 65536)%Z as H by lia.
  split; [exact blank_page_ok|]. split; [exact H|].
  exact (proj2 (status_word_text "12:00:00" (set_status_word (Some 291%Z) empty_snapshot)
                  blank_page blank_page_ok) 291%Z eq_refl H).
Defined.

(** X8.  The operations and the badges after [updateUI], on a page that has
    its elements: each of the five shows "ON" when its flag in the message
    is true and "OFF" when the flag is false or absent; the counters show
    the message's counts, and "0" for a count that is zero or absent. *)
Theorem flags_and_counters_shown now data d :
  page_ok d →
  let d' := exec (updateUI now data) d in
  let shown (b : Js.flag) := if Js.truthy b then "ON" else "OFF" in
  text "#hoist-op .op-status" d' = shown (hoist_active data) ∧
  text "#trolley-op .op-status" d' = shown (trolley_active data) ∧
  text "#slew-op .op-status" d' = shown (slew_active data) ∧
  text "#overload-badge .badge-status" d' = shown (overload_active data) ∧
  text "#bypass-badge .badge-status" d' = shown (bypass_active data) ∧
  text "#util-time" d' = int_or_zero (utilization_minutes data) ∧
  text "#counter-hookup" d' = int_or_zero (counters data ≫= hookup) ∧
  text "#counter-hookdown" d' = int_or_zero (counters data ≫= hookdown) ∧
  text "#last-update" d' = now.
Proof.
  intros Hd d' shown. destruct (updateUI_tail now data d Hd) as (d4 & H4 & E).
  destruct (ui_tail_shows now data d4 H4)
    as ((T1 & T2 & T3) & (T4 & T5 & T6) & (_ & T8) & (T9 & T10)).
  subst d'. rewrite E. repeat split; assumption.
Qed.

(** Witness of [flags_and_counters_shown]: the empty message on the blank
    page. *)
Lemma flags_and_counters_shown_witness :
  let d' := exec (updateUI "12:00:00" empty_snapshot) blank_page in
  page_ok blank_page ∧
  text "#overload-badge .badge-status" d' = "OFF" ∧
  text "#counter-hookup" d' = "0" ∧
  text "#last-update" d' = "12:00:00".
Proof.
  intros d'. split; [exact blank_page_ok|].
  pose proof (flags_and_counters_shown "12:00:00" empty_snapshot blank_page blank_page_ok)
    as (_ & _ & _ & H4 & _ & _ & H7 & _ & H9).
  split; [exact H4|]. split; [exact H7 | exact H9].
Defined.

(** The class of the percentage after [updateUI], by the percentage before
    rounding. *)
Lemma updateUI_percent_below now data d l w :
  page_ok d →
  load data = Some l → swl data = Some w → ¬ (l == 0)%Q → (0 < w)%Q →
  let p := (l / w * 100)%Q in
  let cls := classes "#load-percent" (exec (updateUI now data) d) in
  ((p < 7995 # 100)%Q → cls = []) ∧
  ((p < 9495 # 100)%Q → cls = [] ∨ cls = ["warning"]).
Proof.
  intros Hd El Ew Hl Hw p cls.
  assert (is_Some (exec (ui_values data) d !! "#load-percent")) as [e He].
  { apply (page_ok_exec _ _ _ (ui_values_touches data) Hd). in_keys. }
  assert (cls = if Js.ge (displayed_percent l w) 95 then ["danger"]
                else if Js.ge (displayed_percent l w) 80 then ["warning"] else []) as ->.
  { unfold cls, classes. rewrite updateUI_percent_element by exact Hd.
    exact (updateLoadPercent_renders data _ l w e He El Ew Hl Hw). }
  unfold displayed_percent. fold p.
  pose proof (displayed_ge p 95 ltac:(lia)) as H95.
  pose proof (displayed_ge p 80 ltac:(lia)) as H80.
  change (inject_Z 95) with 95%Q in H95. change (inject_Z 80) with 80%Q in H80.
  destruct (Js.ge (Js.Fixed_num (Js.toFixed 1 p)) 95) eqn:E95;
    destruct (Js.ge (Js.Fixed_num (Js.toFixed 1 p)) 80) eqn:E80; split; intros Hp; auto;
    try (pose proof (proj1 H95 eq_refl); lra);
    try (pose proof (proj1 H80 eq_refl); lra).
Qed.

(** ** The connection (src/app.js, lines 6-92) *)

(** *** Without a stored token *)

Lemma str_truthy_iff s : Js.str_truthy s = true ↔ s ≠ "".
Proof.
  unfold Js.str_truthy. destruct (String.eqb_spec s ""); split; intros H; try done.
Qed.

(** With no socket and no timer no handler ever runs. *)
Lemma idle_step w e : idle w → idle (step w e).
Proof.
  intros [Ht Hs]. destruct e; cbn [step]; rewrite ?Hs; try (split; assumption).
  assert (due h (browser w) = false) as ->; [|split; assumption].
  unfold due. rewrite Ht. reflexivity.
Qed.

Lemma idle_run w es : idle w → idle (run w es).
Proof.
  revert w. induction es as [|e es IH]; intros w Hw; [exact Hw|].
  apply IH, idle_step, Hw.
Qed.

Lemma init_runs_setup ctor_ok w :
  has_status_elements w →
  exec (init ctor_ok) w =
  exec (setupWebSocket ctor_ok) (exec (in_document (updateConnectionStatus false)) w) ∧
  has_status_elements (exec (in_document (updateConnectionStatus false)) w).
Proof.
  intros Hs. destruct (updateConnectionStatus_completes false w Hs) as [E Hs'].
  split; [|exact Hs']. unfold init. rewrite exec_bind, E. reflexivity.
Qed.



(** *** Messages *)


(** *** The addresses the script connects to *)

Lemma sockets_carry_token_same w w' :
  sockets (browser w') = sockets (browser w) → sockets_carry_token w → sockets_carry_token w'.
Proof. intros E H u Hu. apply H. rewrite <- E. exact Hu. Qed.

Lemma scheduleReconnect_carry : preserves sockets_carry_token scheduleReconnect.
Proof.
  unfold scheduleReconnect. apply preserves_bind; [apply preserves_read|]. intros x.
  destruct (reconnectTimer (this x)); [apply preserves_ret|].
  apply preserves_bind; [intros ? H; exact H|]. intros ?.
  apply preserves_modify. intros ? H. exact H.
Qed.

Lemma setupWebSocket_carry ctor_ok : preserves sockets_carry_token (setupWebSocket ctor_ok).
Proof.
  unfold setupWebSocket. apply preserves_bind; [apply preserves_read|]. intros x.
  destruct (negb _) eqn:E.
  - apply preserves_modify. intros s Hs. exact Hs.
  - apply preserves_try_catch.
    + apply preserves_bind.
      * intros y Hy. unfold exec, Window.newWebSocket. destruct ctor_ok; [|exact Hy].
        intros u Hu. cbn in Hu.
        apply elem_of_app in Hu as [Hu | Hu%list_elem_of_singleton]; [apply Hy, Hu|].
        subst u. cbn. split.
        -- apply negb_false_iff in E. destruct (monitor_token (browser x)) as [t|];
             [|discriminate E]. apply str_truthy_iff, E.
        -- destruct (location_https (browser x)); auto.
      * intros a. apply preserves_modify. intros s Hs. exact Hs.
    + apply preserves_bind; [|intros _; apply scheduleReconnect_carry].
      apply preserves_in_document. intros ? ? H. exact H.
Qed.

Lemma step_carry w e : sockets_carry_token w → sockets_carry_token (step w e).
Proof.
  intros Hw.
  assert (∀ {A} (m : Dom A), preserves sockets_carry_token (in_document m)) as Hdoc.
  { intros A m. apply preserves_in_document. intros ? ? H. exact H. }
  destruct e; cbn [step]; try exact Hw.
  - destruct (sockets (browser w)); [exact Hw|].
    unfold onConnect. apply preserves_bind; [apply Hdoc | | exact Hw].
    intros _. apply preserves_bind; [apply preserves_read|]. intros x.
    destruct (reconnectTimer (this x)); [|apply preserves_ret].
    apply preserves_bind; [intros ? H; exact H|]. intros _.
    apply preserves_modify. intros ? H. exact H.
  - destruct (sockets (browser w)); [exact Hw|].
    unfold onMessage. apply preserves_try_catch; [|apply preserves_ret | exact Hw].
    destruct payload; [|apply preserves_throw].
    apply preserves_bind; [apply preserves_modify; intros ? H; exact H|].
    intros _. apply Hdoc.
  - destruct (sockets (browser w)); exact Hw.
  - destruct (sockets (browser w)); [exact Hw|].
    unfold onDisconnect. apply preserves_bind; [apply Hdoc | | exact Hw].
    intros _. apply scheduleReconnect_carry.
  - destruct (due h (browser w)); [|exact Hw].
    apply preserves_bind; [intros ? H; exact H | | exact Hw].
    intros _. apply setupWebSocket_carry.
Qed.

(** X11.  Whatever happens on a freshly loaded page, every WebSocket address
    the script has built carries a token that is not empty, and the scheme
    ws or wss: the script never connects without a stored token, also not
    from the retry timer after the token has been removed from the
    storage. *)
Theorem every_socket_carries_a_token w :
  reachable w →
  ∀ u, u ∈ sockets (browser w) →
       url_token u ≠ "" ∧ (url_scheme u = "ws" ∨ url_scheme u = "wss").
Proof.
  intros Hr. change (sockets_carry_token w).
  induction Hr as [b ctor_ok [_ Hb] | w e _ IH].
  - unfold construct, init. apply preserves_bind.
    + apply preserves_in_document. intros ? ? H. exact H.
    + intros _. apply setupWebSocket_carry.
    + intros u Hu. cbn in Hu. rewrite Hb in Hu. inversion Hu.
  - apply step_carry, IH.
Qed.

(** Witness of [every_socket_carries_a_token]: the second socket of a page
    that reconnected. *)
Lemma every_socket_carries_a_token_witness :
  let w := run (construct true sample_browser)
             [SocketOpen; SocketClose; TimePasses 5000; TimerFires 1 true] in
  let u := {| url_scheme := "ws"; url_host := "crane.local:3001"; url_token := "abc" |} in
  reachable w ∧ u ∈ sockets (browser w) ∧ url_token u ≠ "".
Proof.
  intros w u.
  assert (reachable w) as Hr.
  { do 4 apply reachable_step. apply reachable_construct, sample_browser_fresh. }
  assert (u ∈ sockets (browser w)) as Hu.
  { assert (sockets (browser w) = [u; u]) as -> by (vm_compute; reflexivity).
    apply list_elem_of_here. }
  split; [exact Hr|]. split; [exact Hu|].
  exact (proj1 (every_socket_carries_a_token w Hr u Hu)).
Defined.

(** *** Retries *)

(** With a stored token, a WebSocket constructor that throws is handled as a
    close is. *)
Lemma setupWebSocket_throwing w token :
  monitor_token (browser w) = Some token → token ≠ "" →
  setupWebSocket false w = onDisconnect w.
Proof.
  intros Htok Hne. unfold setupWebSocket. rewrite bind_eq. cbn [read].
  rewrite Htok. cbn [from_option]. rewrite (proj2 (str_truthy_iff token) Hne). reflexivity.
Qed.

(** Firing the pending timer leaves no timer and keeps the handle. *)
Lemma stale_after_firing w h ctor_ok :
  at_most_one_timer w → due h (browser w) = true →
  stale_handle (step w (TimerFires h ctor_ok)).
Proof.
  intros Hw Hdue. cbn [step]. rewrite Hdue.
  assert (stale_handle (exec (Window.expire h) w)) as Hs.
  { unfold due in Hdue. destruct Hw as [Ht | (t & Ht & Hh)]; rewrite Ht in Hdue;
      [discriminate Hdue|].
    cbn [existsb] in Hdue. rewrite orb_false_r in Hdue.
    apply andb_true_iff in Hdue as [Hid _]. apply bool_decide_eq_true in Hid. subst h.
    split; [|unfold exec; cbn; rewrite Hh; eauto].
    unfold exec. cbn. rewrite Ht, filter_cons, filter_nil.
    destruct (decide (timeout_id t ≠ timeout_id t)); [contradiction | reflexivity]. }
  rewrite exec_bind. cbn [Window.expire modify fst].
  revert Hs. generalize (exec (Window.expire h) w). clear. intros w Hs.
  assert (∀ {A} (m : Dom A), preserves stale_handle (in_document m)) as Hdoc.
  { intros A m. apply preserves_in_document. intros ? ? H. exact H. }
  revert w Hs. change (preserves stale_handle (setupWebSocket ctor_ok)).
  unfold setupWebSocket. apply preserves_bind; [apply preserves_read|]. intros x.
  destruct (negb _); [apply preserves_modify; intros ? H; exact H|].
  apply preserves_try_catch.
  - apply preserves_bind.
    + intros y Hy. unfold exec, Window.newWebSocket. destruct ctor_ok; exact Hy.
    + intros ?. apply preserves_modify. intros ? H. exact H.
  - apply preserves_bind; [apply Hdoc|]. intros _ y [Ht [h Hh]].
    unfold exec, scheduleReconnect. rewrite bind_eq. cbn [read]. rewrite Hh.
    split; [exact Ht | eauto].
Qed.

(** X12.  Once the retry timer has fired, whether the attempt it makes
    succeeds, throws or is redirected, the handle of the fired timer stays
    in [reconnectTimer]; from then on no timer is pending and no further
    connection attempt is made, whatever closes, errors, messages, storage
    changes and waiting follow, until a connection opens. *)
Theorem fired_timer_is_never_rearmed w h ctor_ok es :
  reachable w → due h (browser w) = true → SocketOpen ∉ es →
  let w1 := step w (TimerFires h ctor_ok) in
  timeouts (browser w1) = [] ∧ is_Some (reconnectTimer (this w1)) ∧
  timeouts (browser (run w1 es)) = [] ∧
  sockets (browser (run w1 es)) = sockets (browser w1).
Proof.
  intros Hr Hdue Hes w1.
  pose proof (stale_after_firing w h ctor_ok (reachable_at_most_one_timer w Hr) Hdue) as Hs.
  destruct (stale_handle_run _ es Hs Hes) as [[Ht _] Hso].
  destruct Hs as [Ht1 Hh1]. repeat split; assumption.
Qed.

(** Witness of [fired_timer_is_never_rearmed]: the page connects, the
    connection closes, the timer fires five seconds later; the second
    connection closes as well and an hour passes. *)
Lemma fired_timer_is_never_rearmed_witness :
  let w := run (construct true sample_browser) [SocketOpen; SocketClose; TimePasses 5000] in
  let es := [SocketError; SocketClose; TimePasses 3600000] in
  let w1 := step w (TimerFires 1 true) in
  reachable w ∧ due 1 (browser w) = true ∧ (SocketOpen ∉ es) ∧
  timeouts (browser (run w1 es)) = [] ∧
  sockets (browser (run w1 es)) = sockets (browser w1).
Proof.
  intros w es w1.
  assert (reachable w) as Hr.
  { do 3 apply reachable_step. apply reachable_construct, sample_browser_fresh. }
  assert (due 1 (browser w) = true) as Hd by (vm_compute; reflexivity).
  assert (SocketOpen ∉ es) as Hes.
  { intros H. repeat (apply elem_of_cons in H as [H|H]; [discriminate H|]). inversion H. }
  split; [exact Hr|]. split; [exact Hd|]. split; [exact Hes|].
  exact (proj2 (proj2 (fired_timer_is_never_rearmed w 1 true es Hr Hd Hes))).
Defined.

(** X13.  The first close of a connection, in a state the client can reach
    with no handle set and on a page that has the status elements,
    schedules exactly one timer, due 5000 ms after the close, and stores
    its handle; it builds no socket, and the indicator text becomes
    "Mock Data". *)
Theorem first_close_schedules_retry w :
  reachable w → has_status_elements w →
  sockets (browser w) ≠ [] → reconnectTimer (this w) = None →
  let w' := step w SocketClose in
  timeouts (browser w') =
    [{| timeout_id := next_timeout (browser w);
        timeout_due := (clock (browser w) + 5000)%Z |}] ∧
  reconnectTimer (this w') = Some (next_timeout (browser w)) ∧
  sockets (browser w') = sockets (browser w) ∧
  text "#connection-text" (document (browser w')) = "Mock Data".
Proof.
  intros Hr Hs Hso Hh w'.
  assert (timeouts (browser w) = []) as Ht.
  { destruct (reachable_at_most_one_timer w Hr) as [Ht | (t & _ & Ht)]; [exact Ht|].
    rewrite Hh in Ht. discriminate Ht. }
  assert (w' = exec onDisconnect w) as ->.
  { unfold w'. cbn [step]. destruct (sockets (browser w)); [contradiction | reflexivity]. }
  destruct (onDisconnect_without_handle w Hs Ht Hh) as (E1 & E2 & E3).
  rewrite (reachable_interval w Hr) in E1.
  split; [exact E1|]. split; [exact E2|]. split; [exact E3|].
  destruct (updateConnectionStatus_completes false w Hs) as [E _].
  unfold onDisconnect. rewrite exec_bind, E.
  assert (∀ x, document (browser (exec scheduleReconnect x)) = document (browser x)) as Hdoc.
  { intros x. unfold exec, scheduleReconnect. rewrite bind_eq. cbn [read].
    destruct (reconnectTimer (this x)); reflexivity. }
  rewrite Hdoc. destruct Hs as [[e1 H1] [e2 H2]].
  unfold exec, in_document. cbn [snd browser document Upd.on_browser Upd.with_document].
  unfold updateConnectionStatus. run_document. read_back.
Qed.

(** Witness of [first_close_schedules_retry]: the page connects and the
    connection closes. *)
Lemma first_close_schedules_retry_witness :
  let w := step (construct true sample_browser) SocketOpen in
  reachable w ∧ has_status_elements w ∧ sockets (browser w) ≠ [] ∧
  reconnectTimer (this w) = None ∧
  timeouts (browser (step w SocketClose)) = [{| timeout_id := 1; timeout_due := 5000 |}].
Proof.
  intros w.
  assert (reachable w) as Hr.
  { apply reachable_step, reachable_construct, sample_browser_fresh. }
  assert (has_status_elements w) as Hs by (split; vm_compute; eauto).
  assert (sockets (browser w) ≠ []) as Hso by (vm_compute; discriminate).
  assert (reconnectTimer (this w) = None) as Hh by (vm_compute; reflexivity).
  split; [exact Hr|]. split; [exact Hs|]. split; [exact Hso|]. split; [exact Hh|].
  exact (proj1 (first_close_schedules_retry w Hr Hs Hso Hh)).
Defined.

(** A constructor that throws builds no socket. *)
Lemma setupWebSocket_false_sockets w :
  sockets (browser (exec (setupWebSocket false) w)) = sockets (browser w).
Proof.
  set (l := sockets (browser w)).
  assert (preserves (λ x, sockets (browser x) = l) (setupWebSocket false)) as H;
    [|exact (H w eq_refl)].
  unfold setupWebSocket. apply preserves_bind; [apply preserves_read|]. intros x.
  destruct (negb _); [apply preserves_modify; intros ? H; exact H|].
  apply preserves_try_catch.
  - apply preserves_bind; [intros y Hy; exact Hy|].
    intros ?. apply preserves_modify. intros ? H. exact H.
  - apply preserves_bind; [apply preserves_in_document; intros ? ? H; exact H|].
    intros _. unfold scheduleReconnect. apply preserves_bind; [apply preserves_read|].
    intros y. destruct (reconnectTimer (this y)); [apply preserves_ret|].
    apply preserves_bind; [intros ? H; exact H|]. intros ?.
    apply preserves_modify. intros ? H. exact H.
Qed.

(** X14.  When the WebSocket constructor throws at start-up, on a page with
    a stored token and the status elements, the script schedules one retry
    in 5000 ms and builds no socket.  When the constructor throws again at
    that retry, nothing is scheduled any more: whatever happens afterwards,
    the page never makes another attempt. *)
Theorem second_constructor_failure_is_final b token dt es :
  fresh b →
  is_Some (document b !! ".status-dot") → is_Some (document b !! "#connection-text") →
  monitor_token b = Some token → token ≠ "" → (5000 ≤ dt)%Z →
  let w := construct false b in
  let w1 := run w [TimePasses dt; TimerFires (next_timeout b) false] in
  timeouts (browser w) =
    [{| timeout_id := next_timeout b; timeout_due := (clock b + 5000)%Z |}] ∧
  reconnectTimer (this w) = Some (next_timeout b) ∧
  sockets (browser w) = [] ∧
  timeouts (browser (run w1 es)) = [] ∧ sockets (browser (run w1 es)) = [].
Proof.
  intros Hb H1 H2 Htok Hne Hdt w w1.
  assert (reachable w) as Hr by (apply reachable_construct, Hb).
  destruct Hb as [Hbt Hbs].
  assert (timeouts (browser w) =
            [{| timeout_id := next_timeout b; timeout_due := (clock b + 5000)%Z |}] ∧
          reconnectTimer (this w) = Some (next_timeout b) ∧
          sockets (browser w) = []) as (Ht & Hh & Hs).
  { unfold w, construct.
    match goal with |- context [exec (init false) ?w0] =>
      destruct (init_runs_setup false w0) as [-> Hs1]; [split; assumption|];
      set (w1' := exec (in_document (updateConnectionStatus false)) w0) in *
    end.
    unfold exec at 1 2 3. rewrite (setupWebSocket_throwing w1' token Htok Hne).
    destruct (onDisconnect_without_handle w1' Hs1 Hbt eq_refl) as (E1 & E2 & E3).
    split; [exact E1|]. split; [exact E2|]. rewrite <- Hbs. exact E3. }
  split; [exact Ht|]. split; [exact Hh|]. split; [exact Hs|].
  set (wa := step w (TimePasses dt)).
  assert (reachable wa) as Hra by (apply reachable_step, Hr).
  assert (due (next_timeout b) (browser wa) = true) as Hdue.
  { unfold due, wa. cbn. rewrite Ht. cbn.
    rewrite bool_decide_eq_true_2 by reflexivity.
    assert ((clock b + 5000 <=? clock (browser w) + Z.max 0 dt)%Z = true) as ->; [|reflexivity].
    apply Z.leb_le.
    assert (clock (browser w) = clock b) as ->; [|lia].
    unfold w, construct.
    match goal with |- context [exec (init false) ?w0] =>
      destruct (init_runs_setup false w0) as [-> Hs1]; [split; assumption|];
      set (w1' := exec (in_document (updateConnectionStatus false)) w0) in *
    end.
    unfold exec at 1. rewrite (setupWebSocket_throwing w1' token Htok Hne).
    destruct (updateConnectionStatus_completes false w1' Hs1) as [E _].
    fold (exec onDisconnect w1'). unfold onDisconnect. rewrite exec_bind, E.
    unfold exec, scheduleReconnect. rewrite bind_eq. cbn [read].
    destruct (reconnectTimer _); reflexivity. }
  assert (idle w1) as Hi.
  { unfold w1. cbn [run foldl]. fold wa. split.
    - exact (proj1 (stale_after_firing wa _ false (reachable_at_most_one_timer wa Hra) Hdue)).
    - cbn [step]. rewrite Hdue. rewrite exec_bind. cbn [Window.expire modify fst].
      rewrite setupWebSocket_false_sockets. exact Hs. }
  destruct (idle_run w1 es Hi) as [Ht' Hs']. split; assumption.
Qed.

(** Witness of [second_constructor_failure_is_final]: the blank page with a
    stored token. *)
Lemma second_constructor_failure_is_final_witness :
  let w := construct false sample_browser in
  let w1 := run w [TimePasses 6000; TimerFires 1 false] in
  fresh sample_browser ∧
  is_Some (document sample_browser !! ".status-dot") ∧
  is_Some (document sample_browser !! "#connection-text") ∧
  "abc" ≠ "" ∧ (5000 ≤ 6000)%Z ∧
  timeouts (browser w) = [{| timeout_id := 1; timeout_due := 5000 |}] ∧
  sockets (browser (run w1 [TimePasses 3600000; SocketClose; StorageSet (Some "abc")])) = [].
Proof.
  intros w w1.
  assert (is_Some (document sample_browser !! ".status-dot")) as H1
    by (apply blank_page_ok; in_keys).
  assert (is_Some (document sample_browser !! "#connection-text")) as H2
    by (apply blank_page_ok; in_keys).
  assert ("abc" ≠ "") as H3 by discriminate.
  assert (5000 ≤ 6000)%Z as H4 by lia.
  split; [exact sample_browser_fresh|]. split; [exact H1|]. split; [exact H2|].
  split; [exact H3|]. split; [exact H4|].
  pose proof (second_constructor_failure_is_final sample_browser "abc" 6000
                [TimePasses 3600000; SocketClose; StorageSet (Some "abc")]
                sample_browser_fresh H1 H2 eq_refl H3 H4) as (Ht & _ & _ & _ & Hs).
  split; [exact Ht | exact Hs].
Defined.

(** *** The mock frame (src/app.js, lines 297-341) *)

(** X15.  A frame of [startMockData], whatever its draws in [0, 1), on a
    page that has its elements: rendering it does not throw and leaves the
    instance as it was (the mock data is not stored in [data]); the load
    percentage has no severity class, the banner is hidden and the status
    text is "Safe"; the four limit switches show green and the timer
    "10:00"; the status word shows "0x0123", the counters 42 and 38, the
    utilization 245, and the two badges "OFF". *)
Theorem mock_frame_renders_safe now r w :
  unit_draw (mock_load r) → page_ok (document (browser w)) →
  let w' := exec (mockFrame now r) w in
  let d' := document (browser w') in
  (mockFrame now r w).1 = Ok tt ∧
  this w' = this w ∧
  percent_severity d' = normal ∧
  (banner_visible d' = false ∧ status_text d' = "Safe") ∧
  (indicator_colour "test-ls1" d' = Some green ∧
   indicator_colour "test-ls2" d' = Some green ∧
   indicator_colour "test-ls3" d' = Some green ∧
   indicator_colour "test-ls4" d' = Some green) ∧
  text "#test-timer" d' = "10:00" ∧
  (text "#status-word" d' = "0x0123" ∧
   text "#counter-hookup" d' = "42" ∧ text "#counter-hookdown" d' = "38" ∧
   text "#util-time" d' = "245") ∧
  (text "#overload-badge .badge-status" d' = "OFF" ∧
   text "#bypass-badge .badge-status" d' = "OFF").
Proof.
  intros [Hlo Hhi] Hd w' d'.
  set (d := document (browser w)) in *.
  set (data := mockData r).
  assert (d' = exec (updateUI now data) d) as -> by reflexivity.
  assert (this w' = this w) as Hthis by reflexivity.
  assert ((mockFrame now r w).1 = Ok tt) as Hok.
  { destruct (updateUI_on_page now data d Hd) as (_ & _ & _ & _ & _ & [[] E]). exact E. }
  split; [exact Hok|]. split; [exact Hthis|]. clear w' Hthis Hok.
  split; [|split; [|split; [|split; [|split]]]].
  - unfold percent_severity.
    rewrite (proj1 (updateUI_percent_below now data d ((155 # 10) + mock_load r * 5) 100
                      Hd eq_refl eq_refl ltac:(intros H; lra) ltac:(reflexivity))).
    + reflexivity.
    + cbv zeta.
      assert (((155 # 10) + mock_load r * 5) / 100 * 100 == (155 # 10) + mock_load r * 5)%Q
        as -> by (field; discriminate).
      lra.
  - destruct (proj1 (updateUI_calm now data d Hd) eq_refl) as (Hb & _ & Ht & _).
    unfold banner_visible, status_text. rewrite Hb, Ht. split; reflexivity.
  - exact (snapshot_indicator_colours now data d Hd).
  - rewrite (updateUI_timer now data d Hd). reflexivity.
  - destruct (updateUI_tail now data d Hd) as (d4 & H4 & ->).
    destruct (ui_tail_shows now data d4 H4) as (_ & (T4 & T5 & T6) & (T7 & _) & _).
    rewrite T4, T5, T6, T7. repeat split; vm_compute; reflexivity.
  - destruct (updateUI_tail now data d Hd) as (d4 & H4 & ->).
    destruct (ui_tail_shows now data d4 H4) as (_ & _ & _ & (T9 & T10)).
    rewrite T9, T10. split; reflexivity.
Qed.

(** Witness of [mock_frame_renders_safe]: a mock frame on the blank page. *)
Lemma mock_frame_renders_safe_witness :
  let w := {| this := {| ws := None; reconnectInterval := 5000; reconnectTimer := None;
                         data := Some empty_snapshot |};
              browser := sample_browser |} in
  let d' := document (browser (exec (mockFrame "12:00:00" sample_mock_draws) w)) in
  unit_draw (mock_load sample_mock_draws) ∧ page_ok (document (browser w)) ∧
  percent_severity d' = normal ∧ text "#status-word" d' = "0x0123".
Proof.
  intros w d'.
  assert (unit_draw (mock_load sample_mock_draws)) as H1 by (split; [discriminate | reflexivity]).
  assert (page_ok (document (browser w))) as H2 by exact blank_page_ok.
  split; [exact H1|]. split; [exact H2|].
  pose proof (mock_frame_renders_safe "12:00:00" sample_mock_draws w H1 H2)
    as (_ & _ & Hp & _ & _ & _ & (Hw & _) & _).
  split; [exact Hp | exact Hw].
Defined.

(** ** The backend's WebSocket endpoint (src/unnamed/part_001, lines 113-168) *)

(** X16.  What the connection handler does with a request, in full: it
    never touches the readings; when the address has a query that
    [new URL] can read, holding a token that is not empty and verifies, it
    starts the interval timer of the connection and writes nothing; in every
    other case it starts no timer and writes exactly one close frame, with
    code 1008 or 1011. *)
Theorem connection_accepted_iff c req s :
  let s' := on_connection c req s in
  readings s' = readings s ∧
  (accepts req = true → tickers s' = tickers s ++ [c] ∧ wire s' = wire s) ∧
  (accepts req = false →
     tickers s' = tickers s ∧
     ∃ code reason, wire s' = wire s ++ [(c, CloseFrame code reason)] ∧
                    (code = 1008 ∨ code = 1011)%Z).
Proof.
  unfold accepts, on_connection, extract_token.
  destruct (includes_qmark _), (url_throws req),
    (from_option Js.str_truthy false (token_param req)) eqn:Et, (verify_ok req);
    cbn; rewrite ?Et; cbn;
      (split; [reflexivity|]); split; intros H; try discriminate H;
      try (split; reflexivity); (split; [reflexivity|]); eauto.
Qed.

(** Witness of [connection_accepted_iff]: a request that is let in and one
    that is not. *)
Lemma connection_accepted_iff_witness :
  accepts request_with_good_token = true ∧ accepts request_with_bad_token = false ∧
  tickers (on_connection 7 request_with_good_token server_start) = [7%nat] ∧
  tickers (on_connection 7 request_with_bad_token server_start) = [].
Proof.
  split; [reflexivity|]. split; [reflexivity|]. split.
  - exact (proj1 (proj1 (proj2 (connection_accepted_iff 7 request_with_good_token
                                  server_start)) eq_refl)).
  - exact (proj1 (proj2 (proj2 (connection_accepted_iff 7 request_with_bad_token
                                  server_start)) eq_refl)).
Defined.

Lemma received_snoc c s c' f :
  (filter (λ cf : nat * frame, cf.1 = c) (wire s ++ [(c', f)])).*2 =
  received c s ++ (if decide (c' = c) then [f] else []).
Proof.
  rewrite received_app, filter_cons, filter_nil. cbn [fst].
  destruct (decide (c' = c)); reflexivity.
Qed.

(** X17.  A tick of a connection whose interval timer runs sends exactly one
    frame, the tick object, to that connection and none to any other; the
    object is appended to the one buffer all connections share, where it is
    the last reading, and the buffer then holds one reading more, up to
    1000. *)
Theorem tick_feeds_own_connection c r now s :
  c ∈ tickers s →
  let s' := server_step s (Tick c r now) in
  received c s' = received c s ++ [Data (tick_data r now)] ∧
  (∀ c', c' ≠ c → received c' s' = received c' s) ∧
  last (readings s') = Some (tick_data r now) ∧
  length (readings s') = (S (length (readings s)) `min` 1000)%nat ∧
  tickers s' = tickers s.
Proof.
  intros Hc s'. unfold s'. cbn [server_step].
  rewrite bool_decide_eq_true_2 by exact Hc.
  split; [|split; [|split; [|split]]].
  - unfold received at 1. cbn [on_tick wire]. rewrite received_snoc.
    destruct (decide (c = c)); [reflexivity | contradiction].
  - intros c' Hne. unfold received at 1. cbn [on_tick wire]. rewrite received_snoc.
    destruct (decide (c = c')); [congruence | apply app_nil_r].
  - cbn [on_tick readings]. rewrite push_reading_slice. unfold slice_last.
    rewrite length_app. cbn [length].
    rewrite last_lookup, length_drop, length_app. cbn [length].
    rewrite lookup_drop. rewrite lookup_app_r by lia.
    replace (_ - _)%nat with 0%nat by lia. reflexivity.
  - cbn [on_tick readings]. rewrite push_reading_slice, length_slice_last, length_app.
    cbn [length]. lia.
  - reflexivity.
Qed.

(** Witness of [tick_feeds_own_connection]: the first tick of an accepted
    connection. *)
Lemma tick_feeds_own_connection_witness :
  let s := on_connection 0 request_with_good_token server_start in
  let s' := server_step s (Tick 0 sample_draws 0) in
  0%nat ∈ tickers s ∧
  received 0 s' = [Data (tick_data sample_draws 0)] ∧
  last (readings s') = Some (tick_data sample_draws 0).
Proof.
  intros s s'.
  assert (0%nat ∈ tickers s) as H by (apply list_elem_of_here).
  split; [exact H|].
  pose proof (tick_feeds_own_connection 0 sample_draws 0 s H) as (H1 & _ & H3 & _).
  split; [exact H1 | exact H3].
Defined.

(** X18.  When the peer of a connection closes, the interval timer of that
    connection stops and the timers of the others keep running; the close
    writes nothing and keeps the readings; from then on the connection gets
    no frame, whatever happens on the server, and a tick of it does
    nothing. *)
Theorem close_stops_own_feed c s es :
  c ∈ tickers s → no_connection c es →
  let s' := server_step s (PeerClose c) in
  (wire s' = wire s ∧ readings s' = readings s) ∧
  (c ∉ tickers s') ∧
  (∀ c', c' ≠ c → c' ∈ tickers s' ↔ c' ∈ tickers s) ∧
  received c (server_run s' es) = received c s ∧
  (∀ r now, server_step (server_run s' es) (Tick c r now) = server_run s' es).
Proof.
  intros Hc Hes s'.
  assert (s' = clearInterval c s) as ->.
  { unfold s'. cbn [server_step]. rewrite bool_decide_eq_true_2 by exact Hc. reflexivity. }
  assert (c ∉ tickers (clearInterval c s)) as Hout.
  { cbn [clearInterval tickers]. rewrite list_elem_of_filter. tauto. }
  destruct (silent_run c _ es Hout Hes) as [Hout' Hr].
  split; [split; reflexivity|]. split; [exact Hout|]. split; [|split].
  - intros c' Hne. cbn [clearInterval tickers]. rewrite list_elem_of_filter. tauto.
  - rewrite Hr. reflexivity.
  - intros r now. cbn [server_step]. rewrite bool_decide_eq_false_2 by exact Hout'.
    reflexivity.
Qed.

(** Witness of [close_stops_own_feed]: two connections, the first closes and
    the second goes on. *)
Lemma close_stops_own_feed_witness :
  let s := server_run server_start
             [Connection 0 request_with_good_token; Connection 1 request_with_good_token;
              Tick 0 sample_draws 0] in
  let es := [Tick 1 sample_draws 1000; Tick 0 sample_draws 1000] in
  let s' := server_step s (PeerClose 0) in
  0%nat ∈ tickers s ∧ no_connection 0 es ∧
  received 0 (server_run s' es) = received 0 s ∧
  1%nat ∈ tickers s'.
Proof.
  intros s es s'.
  assert (0%nat ∈ tickers s) as H1 by (apply list_elem_of_here).
  assert (no_connection 0 es) as H2.
  { intros req H. repeat (apply elem_of_cons in H as [H|H]; [discriminate H|]). inversion H. }
  split; [exact H1|]. split; [exact H2|].
  pose proof (close_stops_own_feed 0 s es H1 H2) as (_ & _ & H3 & H4 & _).
  split; [exact H4|]. apply (H3 1%nat); [discriminate|].
  apply list_elem_of_further, list_elem_of_here.
Defined.

(** *** The values of a tick *)

Lemma floor_bounds (q : Q) (a b : Z) :
  (inject_Z a <= q)%Q → (q < inject_Z b)%Q → (a ≤ floor q < b)%Z.
Proof.
  destruct q as [n d]. unfold floor, Qle, Qlt, inject_Z. cbn [Qnum Qden].
  rewrite !Z.mul_1_r. intros Hlo Hhi. split.
  - apply Z.div_le_lower_bound; lia.
  - apply Z.div_lt_upper_bound; lia.
Qed.

Lemma round2_bounds (x : Q) (n : Z) :
  (0 <= x)%Q → (x <= inject_Z n)%Q → (0 <= round2 x)%Q ∧ (round2 x <= inject_Z n)%Q.
Proof.
  destruct x as [a b]. unfold round2, Js.toFixed, Js.Fixed_num, Js.pow10, Qle, inject_Z.
  cbn [Qnum Qden Js.fx_neg Js.fx_n Js.fx_digits].
  change (10 ^ Z.of_nat 2)%Z with 100%Z. change (Z.to_pos 100) with 100%positive.
  rewrite !Z.mul_1_r. intros Ha Hn.
  assert ((a <? 0)%Z = false) as -> by (apply Z.ltb_ge; lia).
  rewrite Z.abs_eq by lia.
  assert (0 <= (2 * a * 100 + Z.pos b) / (2 * Z.pos b))%Z as Hq by (apply Z.div_pos; lia).
  rewrite Z2N.id by exact Hq. split; [lia|].
  assert ((2 * a * 100 + Z.pos b) / (2 * Z.pos b) < 100 * n + 1)%Z as Hlt.
  { apply Z.div_lt_upper_bound; [lia|]. nia. }
  lia.
Qed.


Lemma sample_draws_in_range : draws_in_range sample_draws.
Proof. repeat split; first [discriminate | reflexivity]. Qed.


(** *** The buffer and the wire *)

Lemma elem_of_push_reading {A} (l : list A) x y :
  y ∈ push_reading l x → y ∈ l ∨ y = x.
Proof.
  rewrite push_reading_slice. unfold slice_last. intros H.
  apply list_elem_of_lookup in H as [i H]. rewrite lookup_drop in H.
  apply list_elem_of_lookup_2 in H.
  apply elem_of_app in H as [H | H%list_elem_of_singleton]; auto.
Qed.

Lemma readings_were_sent_step s e :
  readings_were_sent s → readings_were_sent (server_step s e).
Proof.
  intros Hs. destruct e as [c req | c r now | c]; cbn [server_step].
  - assert (readings (on_connection c req s) = readings s ∧
            ∃ fs, wire (on_connection c req s) = wire s ++ fs) as [Er [fs Ew]].
    { unfold on_connection.
      destruct (extract_token req); [destruct (negb _); [|destruct (negb _)]|];
        (split; [reflexivity|]);
        first [ eexists; reflexivity | exists []; symmetry; apply app_nil_r ]. }
    intros o Ho. rewrite Er in Ho. destruct (Hs o Ho) as [c' Hc'].
    exists c'. rewrite Ew. apply elem_of_app. left. exact Hc'.
  - destruct (bool_decide (c ∈ tickers s)); [|exact Hs].
    intros o Ho. cbn [on_tick readings wire] in *.
    apply elem_of_push_reading in Ho as [Ho | ->].
    + destruct (Hs o Ho) as [c' Hc']. exists c'. apply elem_of_app. left. exact Hc'.
    + exists c. apply elem_of_app. right. apply list_elem_of_here.
  - destruct (bool_decide (c ∈ tickers s)); exact Hs.
Qed.

(** X20.  Whatever happens on the server from its start, every reading in
    the buffer is an object that went out as a frame on some connection:
    the routes that serve the buffer disclose nothing that was not sent to a
    client that had a valid token. *)
Theorem stored_readings_were_sent es o :
  o ∈ readings (server_run server_start es) →
  ∃ c, (c, Data o) ∈ wire (server_run server_start es).
Proof.
  revert o. change (readings_were_sent (server_run server_start es)).
  assert (∀ s, readings_were_sent s → readings_were_sent (server_run s es)) as H.
  { induction es as [|e es IH]; intros s Hs; [exact Hs|].
    apply IH, readings_were_sent_step, Hs. }
  apply H. intros o Ho. inversion Ho.
Qed.

(** Witness of [stored_readings_were_sent]: the first tick of an accepted
    connection. *)
Lemma stored_readings_were_sent_witness :
  let es := [Connection 0 request_with_good_token; Tick 0 sample_draws 0] in
  tick_data sample_draws 0 ∈ readings (server_run server_start es) ∧
  ∃ c, (c, Data (tick_data sample_draws 0)) ∈ wire (server_run server_start es).
Proof.
  intros es.
  assert (tick_data sample_draws 0 ∈ readings (server_run server_start es)) as H
    by apply list_elem_of_here.
  split; [exact H|].
  exact (stored_readings_were_sent es (tick_data sample_draws 0) H).
Defined.

(** *** A tick on the page *)

Lemma floor_inject_Z z : floor (inject_Z z) = z.
Proof. unfold floor, inject_Z. cbn [Qnum Qden]. apply Z.div_1_r. Qed.

(** What the script reads in a tick object. *)
Lemma message_snapshot_tick r t :
  message_snapshot (tick_data r t) =
  {| load := Some (round2 (draw_load r * 2000)); swl := Some 2500;
     trolley := None; wind := None;
     safety_level := Some "safe"; test_mode := None;
     hoist_active := None; trolley_active := None; slew_active := None;
     utilization_minutes := Some (floor (draw_minutes r * 300));
     utilization_active := Some (Js.gt (draw_active r) (3 # 10));
     counters := Some {| hookup := None; hookdown := None |};
     status_word := None; overload_active := None; bypass_active := None |}.
Proof.
  unfold message_snapshot. f_equal.
  unfold field_integer. cbn [tick_data member List.find fst snd String.eqb Ascii.eqb
    Bool.eqb fmap option_fmap option_map].
  rewrite floor_inject_Z.
  assert (Qeq_bool (inject_Z (floor (draw_minutes r * 300)))
            (inject_Z (floor (draw_minutes r * 300))) = true) as ->; [|reflexivity].
  apply Qeq_bool_iff. reflexivity.
Qed.

Lemma updateLoadPercent_zero_load data (d : DOM) l :
  load data = Some l → (l == 0)%Q → updateLoadPercent data d = (Ok tt, d).
Proof.
  intros El Hl. unfold updateLoadPercent. rewrite El.
  assert (Js.num_truthy l = false) as ->.
  { unfold Js.num_truthy. apply Qeq_bool_iff in Hl. rewrite Hl. reflexivity. }
  destruct (swl data); reflexivity.
Qed.

(** X21.  A tick object of the backend, rendered by the script on a page
    that has its elements: the update does not throw; the banner is hidden
    and the status text "Safe"; the tick never puts the load percentage at
    danger (the class is danger afterwards only when the load of the tick is
    zero, the percentage is then not written, and it was danger before);
    the page shows nothing of the tick's counters, which are named
    [liftup] and [liftdown]: both counters show "0"; the four limit switches
    show grey and the timer "10:00", the status word "0x0000", and the
    operations and badges "OFF", since the tick carries none of these
    fields. *)
Theorem server_tick_on_the_page now r t d :
  unit_draw (draw_load r) → page_ok d →
  let data := message_snapshot (tick_data r t) in
  let d' := exec (updateUI now data) d in
  (updateUI now data d).1 = Ok tt ∧
  (banner_visible d' = false ∧ status_text d' = "Safe") ∧
  (percent_severity d' = danger → d' !! "#load-percent" = d !! "#load-percent") ∧
  (indicator_colour "test-ls1" d' = Some grey ∧
   indicator_colour "test-ls2" d' = Some grey ∧
   indicator_colour "test-ls3" d' = Some grey ∧
   indicator_colour "test-ls4" d' = Some grey) ∧
  text "#test-timer" d' = "10:00" ∧
  (text "#counter-hookup" d' = "0" ∧ text "#counter-hookdown" d' = "0" ∧
   text "#status-word" d' = "0x0000") ∧
  (text "#hoist-op .op-status" d' = "OFF" ∧
   text "#trolley-op .op-status" d' = "OFF" ∧
   text "#slew-op .op-status" d' = "OFF" ∧
   text "#overload-badge .badge-status" d' = "OFF" ∧
   text "#bypass-badge .badge-status" d' = "OFF").
Proof.
  intros [Hlo Hhi] Hd data d'.
  assert (data = message_snapshot (tick_data r t)) as Edata by reflexivity.
  rewrite message_snapshot_tick in Edata. clearbody data. subst d'.
  pose proof (round2_bounds (draw_load r * 2000) 2000 ltac:(lra)
                ltac:(change (inject_Z 2000) with 2000%Q; lra)) as [L0 L1].
  change (inject_Z 2000) with 2000%Q in L1.
  set (l := round2 (draw_load r * 2000)) in *.
  split; [|split; [|split; [|split; [|split; [|split]]]]].
  - destruct (updateUI_on_page now data d Hd) as (_ & _ & _ & _ & _ & [[] E]). exact E.
  - destruct (proj1 (updateUI_calm now data d Hd)) as (Hb & _ & Ht & _).
    { rewrite Edata. reflexivity. }
    unfold banner_visible, status_text. rewrite Hb, Ht. split; reflexivity.
  - intros Hdanger. destruct (Qeq_dec l 0) as [Hz | Hnz].
    + rewrite updateUI_percent_element by exact Hd. unfold exec at 1.
      rewrite (updateLoadPercent_zero_load data _ l); [|rewrite Edata; reflexivity | exact Hz].
      apply (proj2 (ui_values_touches data d)). not_in_keys.
    + exfalso. unfold percent_severity in Hdanger.
      destruct (proj2 (updateUI_percent_below now data d l 2500 Hd
                         ltac:(rewrite Edata; reflexivity) ltac:(rewrite Edata; reflexivity)
                         Hnz ltac:(reflexivity))) as [E | E].
      * cbv zeta. assert (l / 2500 * 100 == l * (1 # 25))%Q as -> by (field; discriminate).
        lra.
      * rewrite E in Hdanger. discriminate Hdanger.
      * rewrite E in Hdanger. discriminate Hdanger.
  - pose proof (snapshot_indicator_colours now data d Hd) as H. cbv zeta in H.
    assert (test_mode data = None) as Etm by (rewrite Edata; reflexivity).
    rewrite Etm in H. exact H.
  - rewrite (updateUI_timer now data d Hd). rewrite Edata. reflexivity.
  - destruct (updateUI_tail now data d Hd) as (d4 & H4 & ->).
    destruct (ui_tail_shows now data d4 H4) as (_ & (_ & T5 & T6) & (T7 & _) & _).
    rewrite T5, T6, T7, Edata. repeat split.
  - destruct (updateUI_tail now data d Hd) as (d4 & H4 & ->).
    destruct (ui_tail_shows now data d4 H4) as ((T1 & T2 & T3) & _ & _ & (T9 & T10)).
    rewrite T1, T2, T3, T9, T10, Edata. repeat split.
Qed.

(** Witness of [server_tick_on_the_page]: the sample tick on the blank
    page. *)
Lemma server_tick_on_the_page_witness :
  let data := message_snapshot (tick_data sample_draws 0) in
  let d' := exec (updateUI "12:00:00" data) blank_page in
  unit_draw (draw_load sample_draws) ∧ page_ok blank_page ∧
  banner_visible d' = false ∧ text "#counter-hookup" d' = "0".
Proof.
  intros data d'.
  assert (unit_draw (draw_load sample_draws)) as H1 by (split; [discriminate | reflexivity]).
  split; [exact H1|]. split; [exact blank_page_ok|].
  pose proof (server_tick_on_the_page "12:00:00" sample_draws 0 blank_page H1 blank_page_ok)
    as (_ & (Hb & _) & _ & _ & _ & (Hc & _) & _).
  split; [exact Hb | exact Hc].
Defined.

(** ** The HTTP routes (src/unnamed/part_001, lines 29-107) *)

(** *** The bearer token *)

Lemma split_space_no_space s : no_space s = true → split_space s = [s].
Proof.
  induction s as [|c s IH]; [reflexivity|]. cbn [no_space split_space].
  intros [Hc Hs]%andb_true_iff. apply negb_true_iff in Hc. rewrite Hc, (IH Hs). reflexivity.
Qed.

Lemma split_space_nonempty s : split_space s ≠ [].
Proof.
  destruct s as [|c s]; [discriminate|]. cbn [split_space].
  destruct (String.eqb _ _); [discriminate|]. destruct (split_space s); discriminate.
Qed.

Lemma split_space_cons s p ps :
  split_space s = p :: ps →
  no_space p = true ∧
  ((ps = [] ∧ s = p) ∨ (∃ rest, s = p +:+ " " +:+ rest ∧ split_space rest = ps)).
Proof.
  revert p ps. induction s as [|c s IH]; intros p ps.
  - intros [= <- <-]. split; [reflexivity|]. left. split; reflexivity.
  - cbn [split_space]. destruct (String.eqb (String c "") " ") eqn:Ec.
    + intros [= <- <-]. split; [reflexivity|]. right. exists s. split; [|reflexivity].
      apply String.eqb_eq in Ec. injection Ec as ->. reflexivity.
    + destruct (split_space s) as [|q qs] eqn:Es; intros [= <- <-].
      * split; [cbn [no_space]; rewrite Ec; reflexivity|]. left. split; [reflexivity|].
        destruct (split_space_nonempty s Es).
      * destruct (IH q qs eq_refl) as [Hq Hcases]. split.
        { cbn [no_space]. rewrite Ec, Hq. reflexivity. }
        destruct Hcases as [[-> ->] | (rest & -> & Hrest)].
        -- left. split; reflexivity.
        -- right. exists rest. split; [reflexivity | exact Hrest].
Qed.

Lemma split_space_bearer t : split_space ("Bearer " +:+ t) = "Bearer" :: split_space t.
Proof. reflexivity. Qed.

Lemma split_space_single s p : split_space s = [p] → s = p.
Proof.
  intros H. destruct (split_space_cons s p [] H) as [_ [[_ E] | (rest & _ & Hrest)]];
    [exact E|]. destruct (split_space_nonempty rest Hrest).
Qed.

(** X22.  [verifyToken] lets a request through exactly when its
    Authorization header is "Bearer", one space, and a token without a
    space that [jwt.verify] accepts; in every other case it answers with
    status 401, and a route behind it then answers 401 as well instead of
    running its handler. *)
Theorem verifyToken_passes_iff jwt_verify authorization :
  (verifyToken jwt_verify authorization = Next ↔
   ∃ t, authorization = Some ("Bearer " +:+ t) ∧ no_space t = true ∧ jwt_verify t = true) ∧
  (∀ r, verifyToken jwt_verify authorization = Answered r → res_status r = 401%Z) ∧
  (∀ handler,
     verifyToken jwt_verify authorization ≠ Next →
     res_status (guarded jwt_verify authorization handler) = 401%Z).
Proof.
  split; [split|split].
  - unfold verifyToken. destruct authorization as [a|]; [|discriminate].
    change (default "" (Some a)) with a. cbn [from_option].
    destruct (Js.str_truthy a); [|discriminate]. cbn [negb].
    destruct (split_space a) as [|p0 [|p1 [|p2 ps]]] eqn:Es;
      cbn [length Nat.eqb negb orb lookup list_lookup default from_option id];
      try discriminate.
    destruct (String.eqb p0 "Bearer") eqn:Ep; cbn [negb]; [|discriminate].
    destruct (jwt_verify p1) eqn:Ev; [|discriminate]. intros _.
    apply String.eqb_eq in Ep. subst p0.
    destruct (split_space_cons a _ _ Es) as [_ [[[=] _] | (rest & -> & Hrest)]].
    pose proof (split_space_cons rest _ _ Hrest) as [Hns _].
    apply split_space_single in Hrest. subst rest.
    exists p1. repeat split; assumption.
  - intros (t & -> & Hns & Hv). unfold verifyToken.
    change (default "" (Some ("Bearer " +:+ t))) with ("Bearer " +:+ t).
    rewrite split_space_bearer, (split_space_no_space t Hns).
    cbn. rewrite Hv. reflexivity.
  - intros r. unfold verifyToken.
    repeat match goal with
           | |- context [if ?c then _ else _] => destruct c
           end; intros [= <-]; reflexivity.
  - intros handler Hne. unfold guarded. revert Hne. unfold verifyToken.
    repeat match goal with
           | |- context [if ?c then _ else _] => destruct c
           end; intros Hne; try reflexivity; contradiction.
Qed.

(** Witness of [verifyToken_passes_iff]: a well-formed header, and one with
    two spaces. *)
Lemma verifyToken_passes_iff_witness :
  let verify := String.eqb "good" in
  verifyToken verify (Some "Bearer good") = Next ∧
  verifyToken verify (Some "Bearer  good") ≠ Next ∧
  res_status (guarded verify (Some "Bearer  good") (latest [])) = 401%Z.
Proof.
  intros verify.
  assert (verifyToken verify (Some "Bearer  good") ≠ Next) as Hne by discriminate.
  split; [|split; [exact Hne|]].
  - apply (proj1 (verifyToken_passes_iff verify (Some "Bearer good"))).
    exists "good". repeat split.
  - exact (proj2 (proj2 (verifyToken_passes_iff verify (Some "Bearer  good"))) (latest []) Hne).
Defined.

(** *** Login *)

Lemma find_user_Some name users user :
  find_user name users = Some user → username user = name ∧ user ∈ users.
Proof.
  unfold find_user. intros H. apply find_some in H as [Hin Heq].
  split; [apply String.eqb_eq, Heq | apply list_elem_of_In, Hin].
Qed.

(** X23.  The login route answers 200 exactly when the body has a user name
    and a password that are not empty, a user of that name exists,
    [bcrypt.compare] returns true for the password and the stored hash, and
    [jwt.sign] returns; the answer then carries the token [jwt.sign]
    returned for the claims of that user, whose subject is the name asked
    for.  The only other statuses are 400, 401 and 500. *)
Theorem login_succeeds_iff bcrypt_compare jwt_sign users req_body :
  let r := login bcrypt_compare jwt_sign users req_body in
  (res_status r = 200%Z ↔
   ∃ name password user token,
     req_body ≫= cred_username = Some name ∧ name ≠ "" ∧
     req_body ≫= cred_password = Some password ∧ password ≠ "" ∧
     find_user name users = Some user ∧ username user = name ∧
     bcrypt_compare password (passwordHash user) = Returns true ∧
     jwt_sign {| claim_sub := name; claim_username := name; claim_role := role user |} =
       Returns token ∧
     r = res_json (LoginBody token name (role user))) ∧
  (res_status r = 200 ∨ res_status r = 400 ∨ res_status r = 401 ∨ res_status r = 500)%Z.
Proof.
  intros r. unfold r, login.
  destruct (req_body ≫= cred_username) as [name|]; cbn [from_option default id negb orb];
    [|split; [split; [discriminate | intros (? & ? & ? & ? & [=] & _)] | auto]].
  destruct (Js.str_truthy name) eqn:En; cbn [negb orb].
  2:{ split; [split; [discriminate|] | auto].
      intros (? & ? & ? & ? & [= <-] & Hne & _). apply str_truthy_iff in Hne. congruence. }
  destruct (req_body ≫= cred_password) as [password|]; cbn [from_option default id negb];
    [|split; [split; [discriminate | intros (? & ? & ? & ? & _ & _ & [=] & _)] | auto]].
  destruct (Js.str_truthy password) eqn:Ep; cbn [negb].
  2:{ split; [split; [discriminate|] | auto].
      intros (? & ? & ? & ? & _ & _ & [= <-] & Hne & _). apply str_truthy_iff in Hne.
      congruence. }
  apply str_truthy_iff in En, Ep.
  destruct (find_user name users) as [user|] eqn:Eu.
  2:{ split; [split; [discriminate|] | auto].
      intros (? & ? & ? & ? & [= <-] & _ & _ & _ & Hf & _). rewrite Eu in Hf.
      discriminate Hf. }
  destruct (find_user_Some _ _ _ Eu) as [Hname _].
  destruct (bcrypt_compare password (passwordHash user)) as [[|]|m] eqn:Ec.
  - rewrite Hname.
    destruct (jwt_sign _) as [token|m] eqn:Es.
    + split; [|auto]. split; [intros _|reflexivity].
      exists name, password, user, token. repeat split; assumption.
    + split; [split; [discriminate|] | auto].
      intros (n0 & p0 & u0 & t0 & H1 & _ & H3 & _ & H5 & _ & H7 & H8 & _). congruence.
  - split; [split; [discriminate|] | auto].
    intros (n0 & p0 & u0 & t0 & H1 & _ & H3 & _ & H5 & _ & H7 & H8 & _). congruence.
  - split; [split; [discriminate|] | auto].
    intros (n0 & p0 & u0 & t0 & H1 & _ & H3 & _ & H5 & _ & H7 & H8 & _). congruence.
Qed.

(** X24.  The login route does not tell which part of the credentials was
    wrong: for a name no user has and for a wrong password of an existing
    user the answer is the same, status 401 with the error
    "Invalid credentials". *)
Theorem login_hides_which_part_failed bcrypt_compare jwt_sign users name password :
  name ≠ "" → password ≠ "" →
  find_user name users = None ∨
  (∃ user, find_user name users = Some user ∧
           bcrypt_compare password (passwordHash user) = Returns false) →
  login bcrypt_compare jwt_sign users
    (Some {| cred_username := Some name; cred_password := Some password |}) =
  respond 401 (ErrorBody "Invalid credentials").
Proof.
  intros Hn Hp H. unfold login. cbn [mbind option_bind cred_username cred_password
    from_option default id].
  rewrite (proj2 (str_truthy_iff name) Hn), (proj2 (str_truthy_iff password) Hp).
  cbn [negb orb].
  destruct H as [-> | (user & -> & ->)]; reflexivity.
Qed.

(** Witness of [login_hides_which_part_failed]: an unknown name and a wrong
    password against the sample users. *)
Lemma login_hides_which_part_failed_witness :
  "nobody" ≠ "" ∧ "admin" ≠ "" ∧ "guess" ≠ "" ∧
  login sample_compare sample_sign sample_users
    (Some {| cred_username := Some "nobody"; cred_password := Some "guess" |}) =
  login sample_compare sample_sign sample_users
    (Some {| cred_username := Some "admin"; cred_password := Some "guess" |}).
Proof.
  assert ("nobody" ≠ "") as H1 by discriminate.
  assert ("admin" ≠ "") as H2 by discriminate.
  assert ("guess" ≠ "") as H3 by discriminate.
  split; [exact H1|]. split; [exact H2|]. split; [exact H3|].
  rewrite (login_hides_which_part_failed sample_compare sample_sign sample_users
             "nobody" "guess" H1 H3 (or_introl eq_refl)).
  rewrite (login_hides_which_part_failed sample_compare sample_sign sample_users
             "admin" "guess" H2 H3
             (or_intror (ex_intro _ _ (conj eq_refl eq_refl)))).
  reflexivity.
Defined.

(** *** The default user *)

Lemma default_admin_password_truthy env : default_admin_password env ≠ "".
Proof.
  unfold default_admin_password. destruct env as [p|]; [|discriminate].
  destruct (Js.str_truthy p) eqn:E; [apply str_truthy_iff, E | discriminate].
Qed.

(** X25.  [seedDefaultUser] adds a user only to an empty user list, and then
    the one user [admin] with role [admin] and the hash of the default
    password, which is the environment's [DEFAULT_ADMIN_PASSWORD] or, when
    that is unset or empty, the word "password".  When [bcrypt.compare]
    accepts that password for that hash and [jwt.sign] returns, the seeded
    administrator logs in with the default password and gets the token. *)
Theorem seeded_admin_can_log_in env bcrypt_hash bcrypt_compare jwt_sign users h token :
  let password := default_admin_password env in
  bcrypt_hash password = Returns h →
  bcrypt_compare password h = Returns true →
  jwt_sign {| claim_sub := "admin"; claim_username := "admin"; claim_role := "admin" |} =
    Returns token →
  (users ≠ [] → seedDefaultUser env bcrypt_hash users = users) ∧
  seedDefaultUser env bcrypt_hash [] =
    [{| username := "admin"; passwordHash := h; role := "admin" |}] ∧
  (env = None ∨ env = Some "" → password = "password") ∧
  login bcrypt_compare jwt_sign (seedDefaultUser env bcrypt_hash [])
    (Some {| cred_username := Some "admin"; cred_password := Some password |}) =
  res_json (LoginBody token "admin" "admin").
Proof.
  intros password Hh Hc Hs.
  assert (seedDefaultUser env bcrypt_hash [] =
            [{| username := "admin"; passwordHash := h; role := "admin" |}]) as Eseed.
  { unfold seedDefaultUser. cbn [length Nat.eqb]. fold password. rewrite Hh. reflexivity. }
  split; [|split; [exact Eseed|split]].
  - intros Hne. unfold seedDefaultUser. destruct users; [contradiction | reflexivity].
  - unfold password. intros [-> | ->]; reflexivity.
  - rewrite Eseed. unfold login.
    cbn [mbind option_bind cred_username cred_password from_option default id
         Js.str_truthy String.eqb negb orb].
    rewrite (proj2 (str_truthy_iff password) (default_admin_password_truthy env)).
    cbn [negb find_user List.find username String.eqb Ascii.eqb Bool.eqb passwordHash role].
    rewrite Hc, Hs. reflexivity.
Qed.

(** Witness of [seeded_admin_can_log_in]: no password in the environment. *)
Lemma seeded_admin_can_log_in_witness :
  sample_hash "password" = Returns "hash-of-password" ∧
  sample_hash_compare "password" "hash-of-password" = Returns true ∧
  login sample_hash_compare sample_sign (seedDefaultUser None sample_hash [])
    (Some {| cred_username := Some "admin"; cred_password := Some "password" |}) =
  res_json (LoginBody "token-of-admin" "admin" "admin").
Proof.
  split; [reflexivity|]. split; [reflexivity|].
  exact (proj2 (proj2 (proj2 (seeded_admin_can_log_in None sample_hash sample_hash_compare
                                 sample_sign [] "hash-of-password" "token-of-admin"
                                 eq_refl eq_refl eq_refl)))).
Defined.

(** *** The readings routes *)

Lemma last_push_reading {A} (l : list A) x : last (push_reading l x) = Some x.
Proof.
  rewrite push_reading_slice. unfold slice_last.
  rewrite last_lookup, length_drop, length_app. cbn [length].
  rewrite lookup_drop. rewrite lookup_app_r by lia.
  replace (_ - _)%nat with 0%nat by lia. reflexivity.
Qed.

Lemma latest_of_last rs :
  latest rs =
  res_json (match last rs with
            | Some x => ReadingBody x
            | None => MessageBody "No readings yet"
            end).
Proof.
  unfold latest. rewrite last_lookup. destruct rs as [|x rs]; [reflexivity|].
  change (length (x :: rs) - 1)%nat with (length rs - 0)%nat. rewrite Nat.sub_0_r.
  reflexivity.
Qed.

(** X26.  The route of the latest reading answers with the last reading of
    the buffer, and with the message "No readings yet" when the buffer is
    empty, as it is at the server's start; after a tick of a running
    connection it answers with the object of that tick. *)
Theorem latest_is_last_tick c r now s :
  c ∈ tickers s →
  latest (readings (server_step s (Tick c r now))) = res_json (ReadingBody (tick_data r now)) ∧
  latest (readings server_start) = res_json (MessageBody "No readings yet") ∧
  (∀ rs, latest rs = res_json (match last rs with
                               | Some x => ReadingBody x
                               | None => MessageBody "No readings yet"
                               end)).
Proof.
  intros Hc. split; [|split; [reflexivity | exact latest_of_last]].
  cbn [server_step]. rewrite bool_decide_eq_true_2 by exact Hc.
  cbn [on_tick readings]. rewrite latest_of_last, last_push_reading. reflexivity.
Qed.

(** Witness of [latest_is_last_tick]: the first tick of an accepted
    connection. *)
Lemma latest_is_last_tick_witness :
  let s := on_connection 0 request_with_good_token server_start in
  0%nat ∈ tickers s ∧
  latest (readings (server_step s (Tick 0 sample_draws 0))) =
  res_json (ReadingBody (tick_data sample_draws 0)).
Proof.
  intros s.
  assert (0%nat ∈ tickers s) as H by (apply list_elem_of_here).
  split; [exact H|].
  exact (proj1 (latest_is_last_tick 0 sample_draws 0 s H)).
Defined.

(** *** The history route *)

Lemma insert_recent_perm r l : insert_recent r l ≡ₚ r :: l.
Proof.
  induction l as [|x l IH]; [reflexivity|]. cbn [insert_recent].
  destruct (0 <? _)%Z; [|reflexivity]. rewrite IH. apply perm_swap.
Qed.

Lemma sort_recent_first_perm l : sort_recent_first l ≡ₚ l.
Proof.
  induction l as [|x l IH]; [reflexivity|]. unfold sort_recent_first in *.
  cbn [foldr]. rewrite insert_recent_perm, IH. reflexivity.
Qed.

Lemma recent_first_dated a b x y :
  reading_date a = Some x → reading_date b = Some y → recent_first a b = (y - x)%Z.
Proof. intros Ha Hb. unfold recent_first. rewrite Ha, Hb. reflexivity. Qed.

Lemma insert_recent_order r l :
  Forall (λ o, is_Some (reading_date o)) (r :: l) →
  in_sort_order l → in_sort_order (insert_recent r l).
Proof.
  induction l as [|x l IH]; intros Hd Hs.
  - cbn. split; [constructor | exact I].
  - cbn [insert_recent]. destruct Hs as [Hx Hs].
    apply Forall_cons in Hd as [[dr Hr] Hd]. apply Forall_cons in Hd as [[dx Hxd] Hd].
    destruct (0 <? recent_first r x)%Z eqn:E.
    + apply Z.ltb_lt in E. cbn [in_sort_order]. split.
      * rewrite insert_recent_perm. constructor; [|exact Hx].
        rewrite (recent_first_dated _ _ _ _ Hxd Hr).
        rewrite (recent_first_dated _ _ _ _ Hr Hxd) in E. lia.
      * apply IH; [constructor; eauto | exact Hs].
    + apply Z.ltb_ge in E. cbn [in_sort_order]. split; [|split; assumption].
      constructor; [exact E|].
      rewrite Forall_forall in Hx, Hd |- *. intros y Hy.
      destruct (Hd y Hy) as [dy Hyd]. specialize (Hx y Hy).
      rewrite (recent_first_dated _ _ _ _ Hxd Hyd) in Hx.
      rewrite (recent_first_dated _ _ _ _ Hr Hxd) in E.
      rewrite (recent_first_dated _ _ _ _ Hr Hyd). lia.
Qed.

Lemma sort_recent_first_order l :
  Forall (λ o, is_Some (reading_date o)) l → in_sort_order (sort_recent_first l).
Proof.
  induction l as [|x l IH]; intros Hd; [exact I|].
  apply Forall_cons in Hd as [Hx Hd]. unfold sort_recent_first in *. cbn [foldr].
  apply insert_recent_order; [|apply IH, Hd].
  constructor; [exact Hx|]. fold (sort_recent_first l). rewrite sort_recent_first_perm.
  exact Hd.
Qed.

Lemma in_sort_order_take n l : in_sort_order l → in_sort_order (take n l).
Proof.
  revert n. induction l as [|x l IH]; intros [|n] Hs; try exact I.
  destruct Hs as [Hx Hs]. cbn [take in_sort_order].
  split; [apply Forall_take, Hx | apply IH, Hs].
Qed.

Lemma in_sort_order_lookup l : in_sort_order l → recent_first_sorted l.
Proof.
  induction l as [|h l IH]; intros Hs i j a b x y Hij Ha Hb Hx Hy; [discriminate Ha|].
  destruct Hs as [Hh Hs]. destruct i as [|i], j as [|j]; try lia.
  - cbn in Ha, Hb. simplify_eq. lia.
  - cbn in Ha, Hb. injection Ha as <-.
    rewrite Forall_forall in Hh. specialize (Hh b (list_elem_of_lookup_2 _ _ _ Hb)).
    rewrite (recent_first_dated _ _ _ _ Hx Hy) in Hh. lia.
  - cbn in Ha, Hb. apply (IH Hs i j a b x y); [lia | assumption ..].
Qed.

Lemma in_bool_filter (f : object → bool) l o :
  o ∈ List.filter f l ↔ o ∈ l ∧ f o = true.
Proof. rewrite !list_elem_of_In. apply filter_In. Qed.

Lemma date_ge_window since o :
  date_ge (reading_date o) (Some since) = true ↔ in_window since o.
Proof.
  unfold date_ge, in_window. destruct (reading_date o) as [t|].
  - rewrite Z.leb_le. split; [eauto|]. intros (t' & [= <-] & H). exact H.
  - split; [discriminate|]. intros (t' & [=] & _).
Qed.

(** What the history route finds. *)
Lemma history_found now parsed_hours readings :
  let since := (now - hours_or_one parsed_hours * 60 * 60 * 1000)%Z in
  ∃ found,
    history now parsed_hours readings = res_json (ReadingsBody found) ∧
    (length found ≤ 1000)%nat ∧
    recent_first_sorted found ∧
    (∀ o, o ∈ found → o ∈ readings ∧ in_window since o) ∧
    ((max_time < Z.abs since)%Z → found = []) ∧
    ((Z.abs since ≤ max_time)%Z → (length readings ≤ 1000)%nat →
       found ≡ₚ List.filter (λ o, date_ge (reading_date o) (Some since)) readings).
Proof.
  intros since. eexists. split; [reflexivity|]. fold since.
  set (kept := List.filter (λ o, date_ge (reading_date o) (new_Date since)) readings).
  assert (∀ o, o ∈ kept → o ∈ readings ∧ in_window since o) as Hkept.
  { intros o [Ho Hd]%in_bool_filter. split; [exact Ho|].
    unfold new_Date in Hd. destruct (Z.abs since <=? max_time)%Z.
    - apply date_ge_window, Hd.
    - unfold date_ge in Hd. destruct (reading_date o); discriminate Hd. }
  split; [|split; [|split; [|split]]].
  - rewrite length_take. lia.
  - apply in_sort_order_lookup, in_sort_order_take, sort_recent_first_order.
    apply Forall_forall. intros o Ho. destruct (Hkept o Ho) as [_ (t & -> & _)]. eauto.
  - intros o Ho. apply Hkept. rewrite <- sort_recent_first_perm.
    apply elem_of_take in Ho as (i & Hi & _). exact (list_elem_of_lookup_2 _ _ _ Hi).
  - intros Hbig.
    assert (kept = []) as ->; [|reflexivity].
    unfold kept, new_Date. rewrite (proj2 (Z.leb_gt _ _) Hbig).
    clear. induction readings as [|o l IH]; [reflexivity|]. cbn [List.filter].
    unfold date_ge at 1. destruct (reading_date o); exact IH.
  - intros Hok Hlen.
    assert (new_Date since = Some since) as E.
    { unfold new_Date. rewrite (proj2 (Z.leb_le _ _) Hok). reflexivity. }
    rewrite take_ge.
    + rewrite sort_recent_first_perm. unfold kept. rewrite E. reflexivity.
    + rewrite sort_recent_first_perm. unfold kept.
      pose proof (filter_length_le (λ o, date_ge (reading_date o) (new_Date since)) readings).
      lia.
Qed.

(** X27.  The history route answers 200 with at most 1000 readings, each of
    them a reading of the buffer that is not older than the given number of
    hours, from the most recent to the oldest; a number of hours that is
    zero or no number counts as one hour.  When the number of hours is so
    large that the start of the window is no valid date, the route finds
    nothing. *)
Theorem history_returns_window now parsed_hours readings :
  let hours := if parsed_hours is Some h then if (h =? 0)%Z then 1%Z else h else 1%Z in
  let since := (now - hours * 3600000)%Z in
  ∃ found,
    history now parsed_hours readings = res_json (ReadingsBody found) ∧
    (length found ≤ 1000)%nat ∧
    recent_first_sorted found ∧
    (∀ o, o ∈ found → o ∈ readings ∧ in_window since o) ∧
    ((max_time < Z.abs since)%Z → found = []).
Proof.
  intros hours since.
  destruct (history_found now parsed_hours readings) as (found & E & Hl & Hs & Hw & Hb & _).
  assert ((now - hours_or_one parsed_hours * 60 * 60 * 1000)%Z = since) as Es.
  { unfold since, hours, hours_or_one. destruct parsed_hours as [h|]; [|lia].
    destruct (h =? 0)%Z; lia. }
  rewrite Es in Hw, Hb. exists found. repeat split; try assumption; apply Hw; assumption.
Qed.

(** X28.  On the buffer of a server run the history route leaves nothing
    out: the buffer never holds more than 1000 readings, so the cut at 1000
    drops none, and the answer is a rearrangement of the readings of the
    buffer that are in the window, whenever the start of the window is a
    valid date. *)
Theorem history_of_server_buffer es now parsed_hours :
  let since := (now - hours_or_one parsed_hours * 60 * 60 * 1000)%Z in
  let buffer := readings (server_run server_start es) in
  (Z.abs since ≤ max_time)%Z →
  ∃ found,
    history now parsed_hours buffer = res_json (ReadingsBody found) ∧
    found ≡ₚ List.filter (λ o, date_ge (reading_date o) (Some since)) buffer ∧
    (∀ o, o ∈ found ↔ o ∈ buffer ∧ in_window since o).
Proof.
  intros since buffer Hok.
  destruct (history_found now parsed_hours buffer) as (found & E & _ & _ & _ & _ & Hp).
  specialize (Hp Hok (proj2 (readings_from_start es))).
  exists found. split; [exact E|]. split; [exact Hp|].
  intros o. rewrite Hp, in_bool_filter, date_ge_window. reflexivity.
Qed.

(** Witness of [history_of_server_buffer]: two ticks, one hour apart and a
    second; the window of one hour holds the later one. *)
Lemma history_of_server_buffer_witness :
  let es := [Connection 0 request_with_good_token;
             Tick 0 sample_draws 1000; Tick 0 sample_draws 3601000] in
  let since := (3602000 - hours_or_one None * 60 * 60 * 1000)%Z in
  let buffer := readings (server_run server_start es) in
  (Z.abs since ≤ max_time)%Z ∧
  ∃ found,
    history 3602000 None buffer = res_json (ReadingsBody found) ∧
    found ≡ₚ List.filter (λ o, date_ge (reading_date o) (Some since)) buffer ∧
    (∀ o, o ∈ found ↔ o ∈ buffer ∧ in_window since o).
Proof.
  intros es since buffer.
  assert (Z.abs since ≤ max_time)%Z as H by (vm_compute; discriminate).
  split; [exact H|].
  exact (history_of_server_buffer es 3602000 None H).
Defined.

(** ** The test panel and the utilization status (src/app.js, lines 197-232
    and 266-278) *)

(** What [updateTestMode] leaves in the status text, the badge and the
    warning. *)
Lemma updateTestMode_status testData d :
  page_ok d →
  let d' := exec (updateTestMode testData) d in
  text "#test-status-text" d' =
    (if Js.truthy (in_progress testData) then "In Progress"
     else if Js.truthy (all_complete testData) then "Complete" else "Not Started") ∧
  classes "#test-status-badge" d' =
    (if Js.truthy (in_progress testData) then ["test-status-badge"; "active"]
     else if Js.truthy (all_complete testData) then ["test-status-badge"; "complete"]
     else ["test-status-badge"]) ∧
  ("hidden" ∈ classes "#test-warning" d' ↔ Js.truthy (warning_active testData) = false).
Proof.
  intros Hd d'. unfold d', updateTestMode, exec.
  destruct (Hd "#test-status-badge" ltac:(in_keys)) as [e1 H1].
  destruct (Hd "#test-status-text" ltac:(in_keys)) as [e2 H2].
  destruct (Hd "#test-timer" ltac:(in_keys)) as [e3 H3].
  destruct (Hd "#test-warning" ltac:(in_keys)) as [e4 H4].
  unfold getElementById.
  rewrite (select_bind_Some _ _ _ _ H1), (select_bind_Some _ _ _ _ H2),
    (select_bind_Some _ _ _ _ H3), (select_bind_Some _ _ _ _ H4).
  repeat match goal with |- context [(?m d).2] => change ((m d).2) with (exec m d) end.
  split; [|split].
  - unfold text. step_page.
    rest_frame (filter (λ k : string, k ≠ "#test-status-text") page_keys).
    unfold exec. open_document. rewrite (update_Some _ _ _ _ H1). cbn [snd].
    destruct (Js.truthy (in_progress testData)); [|destruct (Js.truthy (all_complete testData))];
      run_document; read_back.
  - unfold classes. step_page.
    rest_frame (filter (λ k : string, k ≠ "#test-status-badge") page_keys).
    unfold exec. open_document. rewrite (update_Some _ _ _ _ H1). cbn [snd].
    destruct (Js.truthy (in_progress testData)); [|destruct (Js.truthy (all_complete testData))];
      run_document; read_back.
  - do 7 step_page.
    match goal with |- context [exec _ ?x] =>
      assert (is_Some (x !! "#test-warning")) as [e He] by (apply Hd6; in_keys)
    end.
    unfold classes, exec. open_document.
    destruct (Js.truthy (warning_active testData));
      rewrite (update_Some _ _ _ _ He); cbn [snd]; rewrite lookup_insert_eq;
      cbn [from_option className].
    + rewrite elem_of_remove_token. split; [intros [H _]; contradiction | discriminate].
    + rewrite elem_of_add_token. split; [reflexivity | auto].
Qed.

(** X29.  The test status after [updateUI], on a page that has its
    elements: a test in progress shows "In Progress" with the badge class
    [active], also when the message says the test is complete as well; a
    test that is complete and not in progress shows "Complete" with the
    class [complete]; otherwise the text is "Not Started" and the badge has
    its base class only.  The warning is hidden exactly when the message's
    [warning_active] is false or absent. *)
Theorem test_status_shown now data d :
  page_ok d →
  let t := default empty_test_mode (test_mode data) in
  let d' := exec (updateUI now data) d in
  text "#test-status-text" d' =
    (if Js.truthy (in_progress t) then "In Progress"
     else if Js.truthy (all_complete t) then "Complete" else "Not Started") ∧
  classes "#test-status-badge" d' =
    (if Js.truthy (in_progress t) then ["test-status-badge"; "active"]
     else if Js.truthy (all_complete t) then ["test-status-badge"; "complete"]
     else ["test-status-badge"]) ∧
  ("hidden" ∈ classes "#test-warning" d' ↔ Js.truthy (warning_active t) = false).
Proof.
  intros Hd t d'.
  destruct (updateUI_on_page now data d Hd) as (_ & _ & H3 & _ & E & _).
  pose proof (updateTestMode_status t _ H3) as (T1 & T2 & T3).
  assert (∀ k, k ∉ tail_keys →
               d' !! k =
               exec (updateTestMode t)
                 (exec (updateSafetyStatus (safety_level_or_safe data))
                    (exec (updateLoadPercent data) (exec (ui_values data) d))) !! k) as F.
  { intros k Hk. unfold d'. rewrite E. apply (proj2 (ui_tail_touches now data _)), Hk. }
  unfold text, classes in *.
  rewrite !F by not_in_keys. split; [exact T1|]. split; [exact T2 | exact T3].
Qed.

(** Witness of [test_status_shown]: a test in progress on the blank page. *)
Lemma test_status_shown_witness :
  let data := set_test_mode (Some (running_test 125)) empty_snapshot in
  page_ok blank_page ∧
  text "#test-status-text" (exec (updateUI "12:00:00" data) blank_page) = "In Progress".
Proof.
  intros data. split; [exact blank_page_ok|].
  exact (proj1 (test_status_shown "12:00:00" data blank_page blank_page_ok)).
Defined.

(** X30.  The utilization status after [updateUI], on a page that has its
    elements: the text is "Active" and the dot has the class [online] when
    the message's [utilization_active] is true; the text is "Inactive" and
    the dot has no class [online] when the flag is false or absent. *)
Theorem utilization_status_shown now data d :
  page_ok d →
  let d' := exec (updateUI now data) d in
  text "#util-status span:last-child" d' =
    (if Js.truthy (utilization_active data) then "Active" else "Inactive") ∧
  ("online" ∈ classes "#util-status .status-dot" d' ↔
   Js.truthy (utilization_active data) = true).
Proof.
  intros Hd d'. destruct (updateUI_tail now data d Hd) as (d4 & H4 & E).
  unfold d'. rewrite E. clear E d'. unfold ui_tail. split.
  - unfold text. do 4 step_page.
    rest_frame (filter (λ k : string, k ≠ "#util-status span:last-child") page_keys).
    match goal with H : page_ok ?x |- context [exec (updateUtilStatus _) ?x !! _] =>
      destruct (H "#util-status" ltac:(in_keys)) as [e1 H1];
      destruct (H "#util-status .status-dot" ltac:(in_keys)) as [e2 H2];
      destruct (H "#util-status span:last-child" ltac:(in_keys)) as [e3 H3];
      set (dx := x) in *; clearbody dx
    end.
    unfold updateUtilStatus, exec.
    destruct (Js.truthy (utilization_active data)); run_document; read_back.
  - unfold classes. do 4 step_page.
    rest_frame (filter (λ k : string, k ≠ "#util-status .status-dot") page_keys).
    match goal with H : page_ok ?x |- context [exec (updateUtilStatus _) ?x !! _] =>
      destruct (H "#util-status" ltac:(in_keys)) as [e1 H1];
      destruct (H "#util-status .status-dot" ltac:(in_keys)) as [e2 H2];
      destruct (H "#util-status span:last-child" ltac:(in_keys)) as [e3 H3];
      set (dx := x) in *; clearbody dx
    end.
    unfold updateUtilStatus, exec.
    destruct (Js.truthy (utilization_active data)); run_document; cbn [snd];
      rewrite lookup_insert_ne by done; rewrite lookup_insert_eq; cbn [from_option className].
    + rewrite elem_of_add_token. split; [reflexivity | auto].
    + rewrite elem_of_remove_token. split; [intros [H _]; contradiction | discriminate].
Qed.

(** Witness of [utilization_status_shown]: the empty message on the blank
    page. *)
Lemma utilization_status_shown_witness :
  page_ok blank_page ∧
  text "#util-status span:last-child" (exec (updateUI "12:00:00" empty_snapshot) blank_page) =
  "Inactive".
Proof.
  split; [exact blank_page_ok|].
  exact (proj1 (utilization_status_shown "12:00:00" empty_snapshot blank_page blank_page_ok)).
Defined.
